(** * codemap: a model of the codebase-map generator and its specification

    The development embeds [src/codemap.py] function by function: the file
    walk ([discover_files]), the Python API extraction
    ([extract_python_api]), the importance heuristic ([_score_importance])
    and the two renderers ([generate_map], [generate_json]).  The second
    half of the file states and proves the properties of the
    natural-language specification against these definitions, followed
    by further properties that the code itself shows. *)

From Stdlib Require Import String Ascii DecimalString.
From Stdlib Require Import ZArith NArith QArith Lqa Lia Bool Arith List.
From Stdlib Require Import Sorted Permutation.
Import ListNotations.

Set Implicit Arguments.
Set Warnings "-register-all".

(* ------------------------------------------------------------------ *)
(** ** Python strings and the builtins the program uses *)

Module Py.

(** A Python [str] is a sequence of Unicode code points; [len] is the
    number of code points, so the model is a list of code points. *)
Definition char := N.
Definition str := list char.

(** String literals of the source (all of them ASCII) are written with
    [py]; the few non-ASCII glyphs are given by code point below. *)
Definition py (s : string) : str := map N_of_ascii (list_ascii_of_string s).

Definition dquote : char := 34%N.
Definition newline : char := 10%N.
Definition creturn : char := 13%N.

Definition is_empty (s : str) : bool := match s with [] => true | _ => false end.
(** Truthiness of a string: [if s:]. *)
Definition truthy (s : str) : bool := negb (is_empty s).

Fixpoint str_eqb (a b : str) : bool :=
  match a, b with
  | [], [] => true
  | x :: a', y :: b' => N.eqb x y && str_eqb a' b'
  | _, _ => false
  end.

(** [x in (a, b, ...)] and [x in {a, b, ...}] on strings. *)
Definition mem (x : str) (l : list str) : bool := existsb (str_eqb x) l.

Fixpoint startswith (s p : str) : bool :=
  match p with
  | [] => true
  | c :: p' =>
      match s with
      | [] => false
      | d :: s' => N.eqb d c && startswith s' p'
      end
  end.

Definition endswith (s p : str) : bool := startswith (rev s) (rev p).

(** [p in s] for strings: substring test. *)
Fixpoint contains (s p : str) : bool :=
  startswith s p || match s with [] => false | _ :: s' => contains s' p end.

(** [s.count(c)] for a one-character [c]. *)
Definition count_char (c : char) (s : str) : nat := count_occ N.eq_dec s c.

(** [str.isspace] on one code point (the Unicode White_Space set that
    CPython uses for [strip()] without arguments). *)
Definition isspace (c : char) : bool :=
  ((9 <=? c) && (c <=? 13) || (28 <=? c) && (c <=? 32) || (c =? 133)
   || (c =? 160) || (c =? 5760) || (8192 <=? c) && (c <=? 8202)
   || (c =? 8232) || (c =? 8233) || (c =? 8239) || (c =? 8287)
   || (c =? 12288))%N.

Fixpoint dropwhile (f : char -> bool) (s : str) : str :=
  match s with
  | [] => []
  | c :: s' => if f c then dropwhile f s' else s
  end.

Definition lstrip_by (f : char -> bool) (s : str) : str := dropwhile f s.
Definition rstrip_by (f : char -> bool) (s : str) : str := rev (dropwhile f (rev s)).
Definition strip_by (f : char -> bool) (s : str) : str := rstrip_by f (lstrip_by f s).

(** [s.strip()], [s.strip(chars)], [s.lstrip(chars)], [s.rstrip(chars)]. *)
Definition strip (s : str) : str := strip_by isspace s.
Definition in_chars (chars : str) (c : char) : bool := existsb (N.eqb c) chars.
Definition strip_chars (s chars : str) : str := strip_by (in_chars chars) s.
Definition lstrip_chars (s chars : str) : str := lstrip_by (in_chars chars) s.
Definition rstrip_chars (s chars : str) : str := rstrip_by (in_chars chars) s.

(** [s.split(c)] for a one-character separator: never the empty list. *)
Fixpoint split (c : char) (s : str) : list str :=
  match s with
  | [] => [[]]
  | x :: s' =>
      if N.eqb x c then [] :: split c s'
      else match split c s' with
           | [] => [[x]]
           | w :: ws => (x :: w) :: ws
           end
  end.

(** [sep.join(parts)]. *)
Fixpoint join (sep : str) (parts : list str) : str :=
  match parts with
  | [] => []
  | p :: ps =>
      match ps with
      | [] => p
      | _ :: _ => p ++ sep ++ join sep ps
      end
  end.

(** [s.lower()]; only the ASCII letters are mapped, every other code
    point is left as it is. *)
Definition lower_char (c : char) : char :=
  if ((65 <=? c) && (c <=? 90))%N then (c + 32)%N else c.
Definition lower (s : str) : str := map lower_char s.

(** [s.rfind(c)] for a one-character [c]: the last index, or -1. *)
Fixpoint rfind_from (c : char) (s : str) (i acc : Z) : Z :=
  match s with
  | [] => acc
  | x :: s' => rfind_from c s' (i + 1)%Z (if N.eqb x c then i else acc)
  end.
Definition rfind (c : char) (s : str) : Z := rfind_from c s 0%Z (-1)%Z.

(** Slices [s[:n]], [s[n:]] and [s[a:b]]; a negative bound counts from
    the end, as in Python. *)
Definition index_of (s : str) (n : Z) : nat :=
  if (0 <=? n)%Z then Z.to_nat n else length s - Z.to_nat (- n).
Definition slice_to (s : str) (n : Z) : str := firstn (index_of s n) s.
Definition slice_from (s : str) (n : Z) : str := skipn (index_of s n) s.
Definition slice (s : str) (a b : Z) : str :=
  skipn (index_of s a) (firstn (index_of s b) s).

(** Order of [str] values (by code point), used by [sorted]. *)
Fixpoint str_leb (a b : str) : bool :=
  match a, b with
  | [], _ => true
  | _ :: _, [] => false
  | x :: a', y :: b' =>
      if N.ltb x y then true else if N.eqb x y then str_leb a' b' else false
  end.

(** [sorted(l, key=...)] and [list.sort]: a stable sort; [leb x y] is
    [key(x) <= key(y)]. *)
Fixpoint insert_sorted (A : Type) (leb : A -> A -> bool) (x : A) (l : list A) : list A :=
  match l with
  | [] => [x]
  | y :: t => if leb x y then x :: l else y :: insert_sorted leb x t
  end.

Fixpoint sorted (A : Type) (leb : A -> A -> bool) (l : list A) : list A :=
  match l with
  | [] => []
  | x :: t => insert_sorted leb x (sorted leb t)
  end.

(** [sorted(set(l))] on strings: the distinct elements in order. *)
Fixpoint dedup (l : list str) : list str :=
  match l with
  | [] => []
  | x :: t => if mem x t then dedup t else x :: dedup t
  end.
Definition sorted_set (l : list str) : list str := sorted str_leb (dedup l).

(** [str(n)] / [f"{n}"] and [f"{n:,}"] for integers. *)
Definition str_of_int (n : Z) : str := py (NilEmpty.string_of_int (Z.to_int n)).

Fixpoint group3 (rev_digits : str) (k : nat) : str :=
  match rev_digits with
  | [] => []
  | d :: rest =>
      match rest with
      | [] => [d]
      | _ :: _ =>
          if Nat.eqb k 2 then d :: 44%N :: group3 rest 0
          else d :: group3 rest (S k)
      end
  end.

Definition format_commas (n : Z) : str :=
  let digits := str_of_int (Z.abs n) in
  (if (n <? 0)%Z then [45%N] else []) ++ rev (group3 (rev digits) 0).

(** Lines of an open file: [for line in f]; each line keeps its
    terminator.  Binary files end lines at LF only; text files are read
    with universal newlines (CR LF and a lone CR become LF). *)
Fixpoint iter_lines_from (cur : str) (s : str) : list str :=
  match s with
  | [] => match cur with [] => [] | _ :: _ => [rev cur] end
  | c :: s' =>
      if N.eqb c newline then rev (c :: cur) :: iter_lines_from [] s'
      else iter_lines_from (c :: cur) s'
  end.
Definition iter_lines (s : str) : list str := iter_lines_from [] s.

Fixpoint universal_newlines (s : str) : str :=
  match s with
  | [] => []
  | c :: s' =>
      if N.eqb c creturn then
        match s' with
        | d :: s'' =>
            if N.eqb d newline then newline :: universal_newlines s''
            else newline :: universal_newlines s'
        | [] => [newline]
        end
      else c :: universal_newlines s'
  end.

End Py.

Import Py.

(** A Python [dict] with string keys: insertion-ordered, assignment to an
    existing key keeps its position. *)
Module Dict.

Definition dict (V : Type) := list (str * V).

Fixpoint get (V : Type) (d : dict V) (k : str) : option V :=
  match d with
  | [] => None
  | (k', v) :: d' => if str_eqb k' k then Some v else get d' k
  end.

Fixpoint set (V : Type) (d : dict V) (k : str) (v : V) : dict V :=
  match d with
  | [] => [(k, v)]
  | (k', v') :: d' =>
      if str_eqb k' k then (k', v) :: d' else (k', v') :: set d' k v
  end.

Definition values (V : Type) (d : dict V) : list V := map snd d.

End Dict.

(* ------------------------------------------------------------------ *)
(** ** [os.path] on a POSIX system *)

Module OsPath.

Definition sep : char := 47%N.
Definition extsep : char := 46%N.
Definition curdir : str := py ".".
Definition pardir : str := py "..".

(** [os.path.join(a, b)]. *)
Definition join2 (a b : str) : str :=
  if startswith b [sep] then b
  else if is_empty a || endswith a [sep] then a ++ b
  else a ++ [sep] ++ b.

(** [os.path.join(a, *ps)]. *)
Definition join_all (a : str) (ps : list str) : str := fold_left join2 ps a.

(** [os.path.basename(p)]: [p[p.rfind(sep) + 1:]]. *)
Definition basename (p : str) : str := slice_from p (rfind sep p + 1).

(** [os.path.dirname(p)]. *)
Definition dirname (p : str) : str :=
  let head := slice_to p (rfind sep p + 1) in
  if truthy head && negb (forallb (N.eqb sep) head)
  then rstrip_chars head [sep] else head.

(** The extension part of [os.path.splitext(p)]: from the last dot, when
    that dot is in the last component and is not one of its leading
    dots. *)
Definition splitext_ext (p : str) : str :=
  let sepIndex := rfind sep p in
  let dotIndex := rfind extsep p in
  if (dotIndex >? sepIndex)%Z
     && existsb (fun c => negb (N.eqb c extsep)) (slice p (sepIndex + 1) dotIndex)
  then slice_from p dotIndex
  else [].

(** The non-empty components of a path: [[x for x in p.split(sep) if x]]. *)
Definition components (p : str) : list str := filter truthy (split sep p).

(** Length of [os.path.commonprefix([a, b])] on two component lists. *)
Fixpoint common_prefix_len (a b : list str) : nat :=
  match a, b with
  | x :: a', y :: b' => if str_eqb x y then S (common_prefix_len a' b') else 0
  | _, _ => 0
  end.

(** [os.path.relpath(path, start)].  Both arguments are absolute and
    normalised where the program calls it ([start] is the result of
    [os.path.abspath], [path] extends it with directory-entry names), so
    the inner [abspath] calls return their argument. *)
Definition relpath (path start : str) : str :=
  let start_list := components start in
  let path_list := components path in
  let i := common_prefix_len start_list path_list in
  let rel_list := repeat pardir (length start_list - i) ++ skipn i path_list in
  match rel_list with
  | [] => curdir
  | p :: ps => join_all p ps
  end.

End OsPath.

(* ------------------------------------------------------------------ *)
(** ** The syntax tree that [ast.parse] returns

    Only the node kinds and fields that the program inspects are kept;
    every other statement or expression is an [OtherStmt] / [OtherExpr]. *)

Module Ast.

Inductive constant : Type :=
| CStr (s : str)        (* [isinstance(value, str)] *)
| COther.

Inductive expr : Type :=
| Name (id : str)
| Constant (value : constant)
| List_ (elts : list expr)
| Tuple (elts : list expr)
| OtherExpr (tag : nat).

(** [ast.arg]. *)
Record ast_arg : Type := mk_arg {
  arg : str;
  annotation : option expr
}.

(** [ast.arguments]. *)
Record arguments : Type := mk_arguments {
  posonlyargs : list ast_arg;
  args : list ast_arg;
  vararg : option ast_arg;
  kwonlyargs : list ast_arg;
  kw_defaults : list (option expr);
  kwarg : option ast_arg;
  defaults : list expr
}.

Inductive stmt : Type :=
| FunctionDef (name : str) (a : arguments) (body : list stmt)
              (decorator_list : list expr) (returns : option expr)
| AsyncFunctionDef (name : str) (a : arguments) (body : list stmt)
                   (decorator_list : list expr) (returns : option expr)
| ClassDef (name : str) (bases : list expr) (body : list stmt)
| Import (names : list str)                 (* [alias.name] of each alias *)
| ImportFrom (module : option str)
| Assign (targets : list expr) (value : expr)
| Expr (value : expr)
| OtherStmt.

(** [ast.Module]; [ast.iter_child_nodes] of a module yields its body. *)
Inductive module_ : Type :=
| Module_ (body : list stmt).

(** A function definition of either kind:
    [isinstance(node, (ast.FunctionDef, ast.AsyncFunctionDef))]. *)
Record funcdef : Type := mk_funcdef {
  fd_is_async : bool;
  fd_name : str;
  fd_args : arguments;
  fd_body : list stmt;
  fd_decorator_list : list expr;
  fd_returns : option expr
}.

Definition as_funcdef (node : stmt) : option funcdef :=
  match node with
  | FunctionDef n a b d r => Some (mk_funcdef false n a b d r)
  | AsyncFunctionDef n a b d r => Some (mk_funcdef true n a b d r)
  | _ => None
  end.

End Ast.

Import Ast.

(* ------------------------------------------------------------------ *)
(** ** The file system under the project root

    A directory holds its plain files and its sub-directories by name,
    in the order in which [os.scandir] lists them.  A file carries what
    the program can observe of it: the size reported by [os.stat], its
    text, and the outcome of [ast.parse] on that text. *)

(** The exceptions of [ast.parse].  A malformed source raises
    [SyntaxError]; a source with a NUL byte raises [ValueError] (up to
    Python 3.11), and a source nested too deeply for the parser raises
    [RecursionError]. *)
Inductive parse_error : Type :=
| SyntaxError
| ValueError
| RecursionError.

Inductive parse_result : Type :=
| Parsed (tree : module_)
| Fails (error : parse_error).

Record file : Type := mk_file {
  f_name : str;
  f_stat : option Z;          (* [st_size]; [None]: [os.stat] raises [OSError] *)
  f_text : option str;        (* the content; [None]: [open] raises [OSError] *)
  f_ast : parse_result        (* what [ast.parse] does with the content *)
}.

Inductive dir : Type :=
| Dir (files : list file) (subdirs : list (str * dir)).

(* ------------------------------------------------------------------ *)
(** ** Constants and data model *)

Definition SKIP_DIRS : list str :=
  map py [".git"; "__pycache__"; "node_modules"; ".venv"; "venv";
          ".tox"; ".eggs"; "dist"; "build"; ".mypy_cache"; ".pytest_cache";
          ".ruff_cache"; "egg-info"; ".idea"; ".vscode"]%string.

Definition SKIP_FILES : list str :=
  map py ["package-lock.json"; "yarn.lock"; "poetry.lock"; "Pipfile.lock";
          "pnpm-lock.yaml"; "uv.lock"]%string.

Definition CHARS_PER_TOKEN : Z := 4.

(** The size above which a file is skipped as a large binary. *)
Definition LARGE_FILE : Z := 1000000.

(** The importance is a Python float; the model computes it in exact
    rational arithmetic, with the decimal constants of the source.  A
    score is a sum of at most six terms, none above 0.3. *)
Record FileEntry : Type := mk_FileEntry {
  path : str;
  rel_path : str;
  size : Z;
  lines : Z;
  description : str;
  language : str;
  is_entrypoint : bool;
  importance : Q
}.

Record FunctionSig : Type := mk_FunctionSig {
  fs_name : str;
  fs_params : str;
  fs_returns : str;
  fs_docstring : str;
  fs_is_async : bool;
  fs_decorators : list str;
  fs_class_name : str
}.

Record ClassSig : Type := mk_ClassSig {
  cs_name : str;
  cs_bases : list str;
  cs_docstring : str;
  cs_methods : list FunctionSig;
  cs_init_params : str
}.

Record ModuleAPI : Type := mk_ModuleAPI {
  api_path : str;
  api_docstring : str;
  api_functions : list FunctionSig;
  api_classes : list ClassSig;
  api_imports : list str;
  api_exports : list str
}.

(* ------------------------------------------------------------------ *)
(** ** File discovery *)

Definition ext_map : Dict.dict str :=
  map (fun kv => (py (fst kv), py (snd kv)))
    [(".py", "Python"); (".js", "JavaScript"); (".ts", "TypeScript");
     (".jsx", "React"); (".tsx", "React/TS"); (".rs", "Rust");
     (".go", "Go"); (".rb", "Ruby"); (".java", "Java");
     (".c", "C"); (".cpp", "C++"); (".h", "C/C++ Header");
     (".sh", "Shell"); (".bash", "Bash"); (".zsh", "Zsh");
     (".sql", "SQL"); (".html", "HTML"); (".css", "CSS");
     (".yaml", "YAML"); (".yml", "YAML"); (".toml", "TOML");
     (".json", "JSON"); (".md", "Markdown"); (".rst", "reStructuredText");
     (".dockerfile", "Dockerfile"); (".tf", "Terraform")]%string.

Definition _detect_language (filepath : str) : str :=
  let name := lower (OsPath.basename filepath) in
  if str_eqb name (py "dockerfile") then py "Dockerfile"
  else if str_eqb name (py "makefile") then py "Makefile"
  else
    let ext := OsPath.splitext_ext name in
    match Dict.get ext_map ext with
    | Some lang => lang
    | None => []
    end.

Definition _is_entrypoint (filepath content : str) : bool :=
  let name := lower (OsPath.basename filepath) in
  if mem name (map py ["main.py"; "app.py"; "cli.py"; "server.py"; "manage.py";
                       "index.js"; "index.ts"; "main.go"; "main.rs"]%string)
  then true
  else if endswith name (py ".py") && truthy content
          && contains content (py "__name__") && contains content (py "__main__")
  then true
  else false.

(** The character set of the [strip] calls of [_get_description]: the
    double quote, the single quote and the space. *)
Definition quote_chars : str := [dquote; 39%N; 32%N].

(** The inner loop of [_get_description]: after an opening line that
    holds only quotes, the first non-blank line that follows. *)
Fixpoint description_after_quotes (rest : list str) : str :=
  match rest with
  | [] => []
  | next_line :: rest' =>
      let next_line := strip next_line in
      if truthy next_line then firstn 120 (strip_chars next_line quote_chars)
      else description_after_quotes rest'
  end.

(** The outer loop of [_get_description] over the lines of the file. *)
Fixpoint description_of_lines (ls : list str) : str :=
  match ls with
  | [] => []
  | line :: rest =>
      let line := strip line in
      if is_empty line || startswith line (py "#!") then description_of_lines rest
      else if startswith line [dquote; dquote; dquote] || startswith line (py "'''") then
        let doc := strip_chars line quote_chars in
        if truthy doc then firstn 120 doc
        else description_after_quotes rest
      else if startswith line (py "#") then firstn 120 (lstrip_chars line (py "# "))
      else if startswith line (py "//") then firstn 120 (lstrip_chars line (py "/ "))
      else []
  end.

(** [_get_description(filepath)], on the file found at that path. *)
Definition _get_description (f : file) : str :=
  match f_text f with
  | None => []
  | Some t => description_of_lines (iter_lines (universal_newlines t))
  end.

Definition _is_test_file (filepath : str) : bool :=
  let basename := OsPath.basename filepath in
  let dirname := OsPath.basename (OsPath.dirname filepath) in
  let test_patterns :=
    [startswith basename (py "test_");
     endswith basename (py "_test.py");
     endswith basename (py "_test.js");
     endswith basename (py ".test.js");
     endswith basename (py ".test.ts");
     endswith basename (py ".spec.js");
     endswith basename (py ".spec.ts");
     str_eqb basename (py "test.py");
     str_eqb basename (py "tests.py")] in
  let test_dirs := map py ["test"; "tests"; "__tests__"; "spec"; "specs"]%string in
  existsb (fun b => b) test_patterns || mem dirname test_dirs.

(** [sum(1 for _ in f)] on the file opened in binary mode. *)
Definition count_lines (f : file) : Z :=
  match f_text f with
  | None => 0
  | Some t => Z.of_nat (length (iter_lines t))
  end.

(** [Path(filepath).read_text(...)], with the [OSError] fallback. *)
Definition read_content (f : file) : str :=
  match f_text f with
  | None => []
  | Some t => universal_newlines t
  end.

(** The filter on directory names: [dirnames[:] = [...]]. *)
Definition keep_dir (d : str) : bool :=
  negb (mem d SKIP_DIRS) && negb (startswith d (py ".")).

(** The body of the loop over the file names of one directory: the
    entry appended for [f], or [None] where the loop [continue]s. *)
Definition visit_file (root : str) (exclude_tests : bool) (dirpath : str) (f : file)
  : option FileEntry :=
  let fname := f_name f in
  if mem fname SKIP_FILES || startswith fname (py ".") then None
  else
    let filepath := OsPath.join2 dirpath fname in
    if exclude_tests && _is_test_file filepath then None
    else
      let rel := OsPath.relpath filepath root in
      match f_stat f with
      | None => None
      | Some sz =>
          if (sz >? LARGE_FILE)%Z then None
          else
            let lang := _detect_language filepath in
            let desc := if truthy lang then _get_description f else [] in
            let content := if endswith filepath (py ".py") then read_content f else [] in
            Some (mk_FileEntry filepath rel sz (count_lines f) desc lang
                    (_is_entrypoint filepath content) 0)
      end.

Definition file_leb (f g : file) : bool := str_leb (f_name f) (f_name g).

Fixpoint keep_some (A : Type) (l : list (option A)) : list A :=
  match l with
  | [] => []
  | Some x :: t => x :: keep_some t
  | None :: t => keep_some t
  end.

(** The depth test of the walk: [dirpath[len(root):].count(os.sep)]. *)
Definition depth_of (root dirpath : str) : Z :=
  Z.of_nat (count_char OsPath.sep (slice_from dirpath (Z.of_nat (length root)))).

(** One step of [os.walk] (top-down) with the body of the loop of
    [discover_files]: the entries of [dirpath], then those of the kept
    sub-directories, in order.  A directory beyond [max_depth] yields
    nothing and is not descended into. *)
Fixpoint walk (root : str) (max_depth : Z) (exclude_tests : bool)
         (dirpath : str) (d : dir) {struct d} : list FileEntry :=
  match d with
  | Dir files subdirs =>
      if (depth_of root dirpath >? max_depth)%Z then []
      else
        keep_some (map (visit_file root exclude_tests dirpath) (sorted file_leb files))
        ++ (fix descend (subs : list (str * dir)) : list FileEntry :=
              match subs with
              | [] => []
              | (name, sub) :: rest =>
                  (if keep_dir name
                   then walk root max_depth exclude_tests (OsPath.join2 dirpath name) sub
                   else [])
                  ++ descend rest
              end) subdirs
  end.

(** [discover_files(root, max_depth, exclude_tests)]; [root] is the
    absolute path that [os.path.abspath] returned and [tree] what the
    file system holds under it. *)
Definition discover_files (root : str) (tree : dir) (max_depth : Z) (exclude_tests : bool)
  : list FileEntry :=
  walk root max_depth exclude_tests root tree.

(** [open(filepath)]: the file that the tree holds at that path, every
    path being formed as [os.walk] forms it. *)
Fixpoint all_files (dirpath : str) (d : dir) {struct d} : list (str * file) :=
  match d with
  | Dir files subdirs =>
      map (fun f => (OsPath.join2 dirpath (f_name f), f)) files
      ++ (fix descend (subs : list (str * dir)) : list (str * file) :=
            match subs with
            | [] => []
            | (name, sub) :: rest =>
                all_files (OsPath.join2 dirpath name) sub ++ descend rest
            end) subdirs
  end.

Definition open_ (root : str) (tree : dir) (filepath : str) : option file :=
  option_map snd (find (fun pf => str_eqb (fst pf) filepath) (all_files root tree)).

(* ------------------------------------------------------------------ *)
(** ** Python API extraction *)

Section Extraction.

(** [ast.unparse]; [None] where it raises [AttributeError] or
    [ValueError], the two exceptions the program catches around it. *)
Variable unparse : expr -> option str.

(** The [: type] part of a parameter, dropped when it cannot be rendered. *)
Definition annotation_text (a : ast_arg) : str :=
  match annotation a with
  | None => []
  | Some e =>
      match unparse e with
      | Some t => py ": " ++ t
      | None => []
      end
  end.

(** One iteration of the loop over [args.args]: the part appended for
    the parameter at index [i], or [None] where the loop [continue]s. *)
Definition positional_part (defaults_offset : Z) (defaults : list expr)
           (i : Z) (a : ast_arg) : option str :=
  if mem (arg a) [py "self"; py "cls"] then None
  else
    let s := arg a ++ annotation_text a in
    let default_idx := (i - defaults_offset)%Z in
    if ((default_idx >=? 0) && (default_idx <? Z.of_nat (length defaults)))%Z then
      match nth_error defaults (Z.to_nat default_idx) with
      | Some d =>
          match unparse d with
          | Some t => Some (s ++ py " = " ++ t)
          | None => Some (s ++ py " = ...")
          end
      | None => Some s
      end
    else Some s.

Fixpoint positional_parts (defaults_offset : Z) (defaults : list expr)
         (i : Z) (l : list ast_arg) : list str :=
  match l with
  | [] => []
  | a :: t =>
      match positional_part defaults_offset defaults i a with
      | Some s => s :: positional_parts defaults_offset defaults (i + 1)%Z t
      | None => positional_parts defaults_offset defaults (i + 1)%Z t
      end
  end.

Definition star_part (stars : str) (v : option ast_arg) : list str :=
  match v with
  | Some a => [stars ++ arg a]
  | None => []
  end.

Definition kwonly_part (a : ast_arg) : str := arg a ++ annotation_text a.

Definition _format_params (a : arguments) : str :=
  let defaults_offset := (Z.of_nat (length (args a)) - Z.of_nat (length (defaults a)))%Z in
  let parts :=
    positional_parts defaults_offset (defaults a) 0%Z (args a)
    ++ star_part (py "*") (vararg a)
    ++ map kwonly_part (kwonlyargs a)
    ++ star_part (py "**") (kwarg a) in
  join (py ", ") parts.

(** [_first_docstring_line(node)], on the body of the node. *)
Definition _first_docstring_line (body : list stmt) : str :=
  match body with
  | Expr (Constant (CStr v)) :: _ =>
      let doc := strip v in
      let first_line := strip (hd [] (split newline doc)) in
      firstn 120 first_line
  | _ => []
  end.

Definition exports_of_value (value : expr) : list str :=
  let strings :=
    flat_map (fun elt => match elt with Constant (CStr s) => [s] | _ => [] end) in
  match value with
  | List_ elts => strings elts
  | Tuple elts => strings elts
  | _ => []
  end.

Definition exports_of_stmt (node : stmt) : list str :=
  match node with
  | Assign targets value =>
      flat_map (fun target =>
                  match target with
                  | Name id => if str_eqb id (py "__all__") then exports_of_value value else []
                  | _ => []
                  end) targets
  | _ => []
  end.

(** [name.split('.')[0]]. *)
Definition top_package (name : str) : str := hd [] (split OsPath.extsep name).

Definition imports_of_stmt (node : stmt) : list str :=
  match node with
  | Import names => map top_package names
  | ImportFrom (Some m) =>
      if truthy m && negb (startswith m (py ".")) then [top_package m] else []
  | _ => []
  end.

Definition render_optional (e : option expr) : str :=
  match e with
  | Some r => match unparse r with Some t => t | None => [] end
  | None => []
  end.

Definition render_each (l : list expr) : list str :=
  flat_map (fun e => match unparse e with Some t => [t] | None => [] end) l.

(** The body of the loop over module-level functions. *)
Definition function_of_stmt (include_private : bool) (node : stmt) : option FunctionSig :=
  match as_funcdef node with
  | Some fd =>
      if negb include_private && startswith (fd_name fd) (py "_") then None
      else Some (mk_FunctionSig (fd_name fd) (_format_params (fd_args fd))
                   (render_optional (fd_returns fd))
                   (_first_docstring_line (fd_body fd))
                   (fd_is_async fd) (render_each (fd_decorator_list fd)) [])
  | None => None
  end.

(** One iteration of the loop over the body of a class. *)
Definition class_member (include_private : bool) (class_name : str)
           (cls : ClassSig) (child : stmt) : ClassSig :=
  match as_funcdef child with
  | Some fd =>
      if str_eqb (fd_name fd) (py "__init__") then
        mk_ClassSig (cs_name cls) (cs_bases cls) (cs_docstring cls) (cs_methods cls)
          (_format_params (fd_args fd))
      else if negb include_private && startswith (fd_name fd) (py "_") then cls
      else
        mk_ClassSig (cs_name cls) (cs_bases cls) (cs_docstring cls)
          (cs_methods cls ++
             [mk_FunctionSig (fd_name fd) (_format_params (fd_args fd))
                (render_optional (fd_returns fd))
                (_first_docstring_line (fd_body fd))
                (fd_is_async fd) [] class_name])
          (cs_init_params cls)
  | None => cls
  end.

(** The body of the loop over module-level classes. *)
Definition class_of_stmt (include_private : bool) (node : stmt) : option ClassSig :=
  match node with
  | ClassDef name bases body =>
      if negb include_private && startswith name (py "_") then None
      else
        let cls := mk_ClassSig name (render_each bases) (_first_docstring_line body) [] [] in
        Some (fold_left (class_member include_private name) body cls)
  | _ => None
  end.

(** [extract_python_api] after a successful parse. *)
Definition extract_module (rel : str) (m : module_) (include_private : bool) : ModuleAPI :=
  match m with
  | Module_ body =>
      mk_ModuleAPI rel (_first_docstring_line body)
        (keep_some (map (function_of_stmt include_private) body))
        (keep_some (map (class_of_stmt include_private) body))
        (sorted_set (flat_map imports_of_stmt body))
        (flat_map exports_of_stmt body)
  end.

(** [extract_python_api(filepath, include_private)].  The call returns
    [Some (Some api)], or [Some None] when the file cannot be read
    ([OSError]) or [ast.parse] raises [SyntaxError]: the two exceptions
    of its [except] clause.  Any other exception of [ast.parse] leaves
    the function, and the call is [None]. *)
Definition extract_python_api (root : str) (tree : dir) (filepath : str)
           (include_private : bool) : option (option ModuleAPI) :=
  match open_ root tree filepath with
  | None => Some None
  | Some f =>
      match f_text f with
      | None => Some None
      | Some _ =>
          match f_ast f with
          | Parsed m =>
              Some (Some (extract_module (OsPath.basename filepath) m include_private))
          | Fails SyntaxError => Some None
          | Fails _ => None
          end
      end
  end.

End Extraction.

(* ------------------------------------------------------------------ *)
(** ** Importance scoring *)

(** The change log: the standard output of the [git log] call, [None]
    when the call times out or cannot be started. *)
Definition churn_source := option str.

Definition count_line (churn : Dict.dict Z) (line : str) : Dict.dict Z :=
  let line := strip line in
  if truthy line then
    Dict.set churn line (match Dict.get churn line with Some n => n | None => 0 end + 1)%Z
  else churn.

Definition churn_of (git : churn_source) : Dict.dict Z :=
  match git with
  | None => []
  | Some stdout =>
      if truthy stdout then fold_left count_line (split newline stdout) [] else []
  end.

(** [max(l)] on a non-empty list of integers. *)
Definition max_of (l : list Z) : Z :=
  match l with
  | [] => 0%Z
  | x :: t => fold_left Z.max t x
  end.

(** [min(1.0, score)]. *)
Definition min_one (score : Q) : Q := if Qle_bool 1 score then 1 else score.

(** The body of the loop of [_score_importance]. *)
Definition score_entry (max_lines : Z) (churn : Dict.dict Z) (max_churn : Z)
           (entry : FileEntry) : Q :=
  let score := 0 in
  let score := if is_entrypoint entry then score + (3 # 10) else score in
  let score :=
    if mem (language entry) (map py ["Python"; "JavaScript"; "TypeScript"; "Rust"; "Go"]%string)
    then score + (2 # 10)
    else if mem (language entry) (map py ["Makefile"; "Dockerfile"; "Shell"]%string)
    then score + (1 # 10)
    else score in
  let score := score + (inject_Z (lines entry) / inject_Z max_lines) * (2 # 10) in
  let score :=
    match Dict.get churn (rel_path entry) with
    | Some n => score + (inject_Z n / inject_Z max_churn) * (2 # 10)
    | None => score
    end in
  let depth := count_char OsPath.sep (rel_path entry) in
  let score := if Nat.eqb depth 0 then score + (1 # 10) else score in
  let score := if truthy (description entry) then score + (5 # 100) else score in
  min_one score.

Definition set_importance (e : FileEntry) (q : Q) : FileEntry :=
  mk_FileEntry (path e) (rel_path e) (size e) (lines e) (description e)
    (language e) (is_entrypoint e) q.

(** [max(e.lines for e in entries) or 1]. *)
Definition max_lines_of (entries : list FileEntry) : Z :=
  let m := max_of (map lines entries) in
  if (m =? 0)%Z then 1%Z else m.

(** [max(churn.values()) if churn else 1]. *)
Definition max_churn_of (churn : Dict.dict Z) : Z :=
  match churn with
  | [] => 1%Z
  | _ :: _ => max_of (Dict.values churn)
  end.

(** [_score_importance(entries, root)]: the entries with their
    [importance] assigned (the source updates them in place). *)
Definition _score_importance (entries : list FileEntry) (git : churn_source)
  : list FileEntry :=
  match entries with
  | [] => []
  | _ :: _ =>
      let max_lines := max_lines_of entries in
      let churn := churn_of git in
      let max_churn := max_churn_of churn in
      map (fun entry => set_importance entry (score_entry max_lines churn max_churn entry))
        entries
  end.

(* ------------------------------------------------------------------ *)
(** ** Output formatters *)

(** The glyphs of the renderers, by code point. *)
Definition BOX_LAST : str := [9492; 9472; 9472; 32]%N.      (* U+2514 U+2500 U+2500, space *)
Definition BOX_MID : str := [9500; 9472; 9472; 32]%N.       (* U+251C U+2500 U+2500, space *)
Definition BOX_DOWN : str := [9474; 32; 32; 32]%N.          (* U+2502, three spaces *)
Definition STAR : char := 9733%N.                           (* U+2605 *)
Definition EM_DASH : char := 8212%N.                        (* U+2014 *)
Definition ARROW : char := 8594%N.                          (* U+2192 *)

(** The nested [dict] that [_format_tree] builds: a name maps to a
    [FileEntry] or to the [dict] of a directory. *)
Inductive tnode : Type :=
| TFile (entry : FileEntry)
| TDir (items : list (str * tnode)).

(** Insertion of one entry below [node], along the directory names
    [parts]; [None] is the [TypeError] of indexing into a [FileEntry]
    that stands where a directory is expected. *)
Fixpoint tree_insert (node : Dict.dict tnode) (parts : list str) (leaf : str)
         (entry : FileEntry) : option (Dict.dict tnode) :=
  match parts with
  | [] => Some (Dict.set node leaf (TFile entry))
  | part :: parts' =>
      match Dict.get node part with
      | None =>
          match tree_insert [] parts' leaf entry with
          | Some sub => Some (Dict.set node part (TDir sub))
          | None => None
          end
      | Some (TDir sub) =>
          match tree_insert sub parts' leaf entry with
          | Some sub' => Some (Dict.set node part (TDir sub'))
          | None => None
          end
      | Some (TFile _) => None
      end
  end.

Definition entry_path_leb (a b : FileEntry) : bool := str_leb (rel_path a) (rel_path b).

Definition tree_add (max_depth : Z) (tree : option (Dict.dict tnode)) (entry : FileEntry)
  : option (Dict.dict tnode) :=
  match tree with
  | None => None
  | Some node =>
      let parts := split OsPath.sep (rel_path entry) in
      if (Z.of_nat (length parts) >? max_depth + 1)%Z then Some node
      else tree_insert node (removelast parts) (last parts []) entry
  end.

Definition tree_line (prefix connector name : str) (val : FileEntry) : str :=
  let desc := if truthy (description val)
              then [32; 32; EM_DASH; 32]%N ++ description val else [] in
  let star := if is_entrypoint val then [STAR; 32%N] else [] in
  prefix ++ connector ++ star ++ name ++ desc.

(** [_render(node, prefix)]: the lines of one directory of the tree. *)
Fixpoint _render (node : tnode) (prefix : str) {struct node} : list str :=
  match node with
  | TFile _ => []
  | TDir items =>
      (fix each (items : list (str * tnode)) : list str :=
         match items with
         | [] => []
         | (name, val) :: rest =>
             let is_last := match rest with [] => true | _ :: _ => false end in
             let connector := if is_last then BOX_LAST else BOX_MID in
             let extension := if is_last then py "    " else BOX_DOWN in
             match val with
             | TFile e => [tree_line prefix connector name e]
             | TDir _ =>
                 (prefix ++ connector ++ name ++ py "/") :: _render val (prefix ++ extension)
             end ++ each rest
         end) items
  end.

Definition _format_tree (entries : list FileEntry) (max_depth : Z) : option str :=
  match fold_left (tree_add max_depth) (sorted entry_path_leb entries) (Some []) with
  | None => None
  | Some tree => Some (join [newline] (_render (TDir tree) []))
  end.

Definition format_function (indent : str) (func : FunctionSig) : str :=
  let async_prefix := if fs_is_async func then py "async " else [] in
  let ret := if truthy (fs_returns func)
             then [32; ARROW; 32]%N ++ fs_returns func else [] in
  let doc := if truthy (fs_docstring func)
             then py "  # " ++ fs_docstring func else [] in
  indent ++ async_prefix ++ py "def " ++ fs_name func ++ py "(" ++ fs_params func
    ++ py ")" ++ ret ++ doc.

Definition format_class (cls : ClassSig) : list str :=
  let bases_str := match cs_bases cls with
                   | [] => []
                   | _ :: _ => py "(" ++ join (py ", ") (cs_bases cls) ++ py ")"
                   end in
  let doc := if truthy (cs_docstring cls)
             then py "  # " ++ cs_docstring cls else [] in
  [py "  class " ++ cs_name cls ++ bases_str ++ doc]
  ++ (if truthy (cs_init_params cls)
      then [py "    __init__(" ++ cs_init_params cls ++ py ")"] else [])
  ++ map (format_function (py "    ")) (cs_methods cls).

(** Truthiness of a list. *)
Definition nonempty (A : Type) (l : list A) : bool :=
  match l with [] => false | _ :: _ => true end.

(** [api.functions or api.classes]. *)
Definition has_api (api : ModuleAPI) : bool :=
  nonempty (api_functions api) || nonempty (api_classes api).

Definition format_module (api : ModuleAPI) : list str :=
  if negb (has_api api) then []
  else
    [[newline] ++ py "### " ++ api_path api]
    ++ (if truthy (api_docstring api) then [py "*" ++ api_docstring api ++ py "*"] else [])
    ++ (match api_exports api with
        | [] => []
        | _ :: _ => [py "Exports: " ++ join (py ", ") (api_exports api)]
        end)
    ++ map (format_function (py "  ")) (api_functions api)
    ++ flat_map format_class (api_classes api).

Definition _format_api (apis : list ModuleAPI) : str :=
  join [newline] (flat_map format_module apis).

Definition stdlib : list str :=
  map py ["os"; "sys"; "re"; "json"; "csv"; "ast"; "math"; "hashlib";
          "pathlib"; "datetime"; "collections"; "typing"; "dataclasses";
          "argparse"; "textwrap"; "subprocess"; "unittest"; "functools";
          "itertools"; "io"; "abc"; "enum"; "copy"; "shutil"; "glob";
          "tempfile"; "logging"; "warnings"; "http"; "urllib"; "socket";
          "ssl"; "email"; "html"; "xml"; "sqlite3"; "threading";
          "multiprocessing"; "asyncio"; "concurrent"; "contextlib";
          "inspect"; "dis"; "importlib"; "pkgutil"; "struct"; "time"]%string.

(** [all_imports[imp] += 1] on the [defaultdict(int)]. *)
Definition count_import (all_imports : Dict.dict Z) (imp : str) : Dict.dict Z :=
  if mem imp stdlib then all_imports
  else Dict.set all_imports imp
         (match Dict.get all_imports imp with Some n => n | None => 0 end + 1)%Z.

Definition import_counts (apis : list ModuleAPI) : Dict.dict Z :=
  fold_left (fun all_imports api => fold_left count_import (api_imports api) all_imports)
    apis [].

Definition dep_leb (a b : str * Z) : bool := (- snd a <=? - snd b)%Z.

Definition _format_deps (apis : list ModuleAPI) : str :=
  let all_imports := import_counts apis in
  match all_imports with
  | [] => py "No third-party dependencies detected."
  | _ :: _ =>
      let sorted_deps := sorted dep_leb all_imports in
      join [newline]
        (map (fun dc =>
                py "  " ++ fst dc ++ py " (used by " ++ str_of_int (snd dc) ++ py " module"
                ++ (if (snd dc >? 1)%Z then py "s" else []) ++ py ")")
           sorted_deps)
  end.

(** [key=lambda e: -e.importance]. *)
Definition importance_leb (a b : FileEntry) : bool :=
  Qle_bool (- importance a) (- importance b).

Definition TRUNCATION_MARKER : str :=
  [newline; newline] ++ py "... (truncated to fit token budget)".

(** The token-budget step at the end of [generate_map]. *)
Definition trim_to_budget (sections : list str) (output : str) (token_budget : option Z) : str :=
  match token_budget with
  | None => output
  | Some budget =>
      if (budget =? 0)%Z then output
      else
        let est_tokens := (Z.of_nat (length output) / CHARS_PER_TOKEN)%Z in
        if (est_tokens >? budget)%Z then
          if existsb (fun section => startswith section (py "## Public API")) sections then
            let budget_chars := (budget * CHARS_PER_TOKEN)%Z in
            let output := join [newline] sections in
            if (Z.of_nat (length output) >? budget_chars)%Z
            then slice_to output budget_chars ++ TRUNCATION_MARKER
            else output
          else output
        else output
  end.

(** A loop that appends to a list and whose body may raise: what the
    iterations append, in order, or [None] when one of them raises. *)
Fixpoint gather (A B : Type) (body : A -> option (list B)) (l : list A) : option (list B) :=
  match l with
  | [] => Some []
  | x :: rest =>
      match body x with
      | None => None
      | Some found =>
          match gather body rest with
          | None => None
          | Some more => Some (found ++ more)
          end
      end
  end.

Section Renderers.

Variable unparse : expr -> option str.

(** One iteration of the loop of [generate_map] that extracts the
    Python APIs. *)
Definition map_api_of (root : str) (tree : dir) (include_private : bool)
           (entry : FileEntry) : option (list ModuleAPI) :=
  if endswith (rel_path entry) (py ".py") then
    match extract_python_api unparse root tree (path entry) include_private with
    | None => None
    | Some (Some api) =>
        Some (if has_api api
              then [mk_ModuleAPI (rel_path entry) (api_docstring api) (api_functions api)
                      (api_classes api) (api_imports api) (api_exports api)]
              else [])
    | Some None => Some []
    end
  else Some [].

(** The loop of [generate_map] that extracts the Python APIs; [None]
    when [extract_python_api] raises on one of the entries. *)
Definition map_apis (root : str) (tree : dir) (include_private : bool)
           (entries : list FileEntry) : option (list ModuleAPI) :=
  gather (map_api_of root tree include_private) entries.

Definition key_file_line (h : FileEntry) : str :=
  let desc := if truthy (description h) then [32; EM_DASH; 32]%N ++ description h else [] in
  let star := if is_entrypoint h then [32%N; STAR] else [] in
  py "- **" ++ rel_path h ++ py "**" ++ star ++ py " (" ++ str_of_int (lines h)
    ++ py " lines)" ++ desc.

(** The sections of the narrative output, for the scored and sorted
    entries; [None] when [_format_tree] raises. *)
Definition map_sections (root : str) (max_depth : Z) (entries : list FileEntry)
           (apis : list ModuleAPI) : option (list str) :=
  let project_name := OsPath.basename root in
  let total_lines := fold_left Z.add (map lines entries) 0%Z in
  let languages := sorted_set (filter truthy (map language entries)) in
  let entrypoints := map rel_path (filter is_entrypoint entries) in
  match _format_tree entries max_depth with
  | None => None
  | Some tree_text =>
      let api_text := _format_api apis in
      let deps_text := _format_deps apis in
      let hot := firstn 10 (sorted importance_leb entries) in
      Some
        ([py "# Codebase Map: " ++ project_name ++ [newline];
          py "Files: " ++ str_of_int (Z.of_nat (length entries)) ++ py " | Lines: "
            ++ format_commas total_lines ++ py " | Languages: " ++ join (py ", ") languages]
         ++ (match entrypoints with
             | [] => []
             | _ :: _ => [py "Entrypoints: " ++ join (py ", ") entrypoints]
             end)
         ++ [[]]
         ++ [py "## Structure" ++ [newline]; py "```"; tree_text; py "```" ++ [newline]]
         ++ (if truthy (strip api_text)
             then [py "## Public API" ++ [newline]; py "```python"; api_text;
                   py "```" ++ [newline]]
             else [])
         ++ (if truthy (strip deps_text)
             then [py "## Dependencies" ++ [newline]; deps_text; []]
             else [])
         ++ (match hot with
             | [] => []
             | _ :: _ => [py "## Key Files" ++ [newline]] ++ map key_file_line hot ++ [[]]
             end))
  end.

(** [generate_map(root, max_depth, include_private, token_budget,
    exclude_tests)]; [git] is the change log that the scoring reads.
    [None] when the run raises: in the extraction loop or in
    [_format_tree]. *)
Definition generate_map (root : str) (tree : dir) (git : churn_source) (max_depth : Z)
           (include_private : bool) (token_budget : option Z) (exclude_tests : bool)
  : option str :=
  let entries := discover_files root tree max_depth exclude_tests in
  match entries with
  | [] => Some (py "No files found.")
  | _ :: _ =>
      let entries := _score_importance entries git in
      let entries := sorted importance_leb entries in
      match map_apis root tree include_private entries with
      | None => None
      | Some apis =>
          match map_sections root max_depth entries apis with
          | None => None
          | Some sections =>
              let output := join [newline] sections in
              Some (trim_to_budget sections output token_budget)
          end
      end
  end.

(** The object that [generate_json] hands to [json.dumps]. *)
Record JsonFile : Type := mk_JsonFile {
  jf_path : str;
  jf_lines : Z;
  jf_language : str;
  jf_description : str;
  jf_importance : Q;
  jf_entrypoint : bool
}.

Record JsonFunction : Type := mk_JsonFunction {
  jfn_name : str;
  jfn_params : str;
  jfn_returns : str;
  jfn_docstring : str;
  jfn_async : bool
}.

Record JsonClass : Type := mk_JsonClass {
  jc_name : str;
  jc_bases : list str;
  jc_docstring : str;
  jc_init_params : str;
  jc_methods : list JsonFunction
}.

Record JsonModule : Type := mk_JsonModule {
  jm_module : str;
  jm_docstring : str;
  jm_exports : list str;
  jm_imports : list str;
  jm_functions : list JsonFunction;
  jm_classes : list JsonClass
}.

Record JsonMap : Type := mk_JsonMap {
  j_project : str;
  j_files : Z;
  j_total_lines : Z;
  j_languages : list str;
  j_entrypoints : list str;
  j_file_tree : list JsonFile;
  j_api : list JsonModule
}.

(** [round(x, 3)] on the exact score: nearest multiple of 1/1000, ties
    to the even one. *)
Definition round_half_even (q : Q) : Z :=
  let n := Qnum q in
  let d := Zpos (Qden q) in
  let f := (n / d)%Z in
  let r2 := (2 * (n - f * d))%Z in
  if (r2 <? d)%Z then f
  else if (r2 >? d)%Z then (f + 1)%Z
  else if Z.even f then f else (f + 1)%Z.

Definition round3 (q : Q) : Q := inject_Z (round_half_even (q * inject_Z 1000)) / inject_Z 1000.

Definition json_file (e : FileEntry) : JsonFile :=
  mk_JsonFile (rel_path e) (lines e) (language e) (description e)
    (round3 (importance e)) (is_entrypoint e).

Definition json_function (f : FunctionSig) : JsonFunction :=
  mk_JsonFunction (fs_name f) (fs_params f) (fs_returns f) (fs_docstring f) (fs_is_async f).

Definition json_class (c : ClassSig) : JsonClass :=
  mk_JsonClass (cs_name c) (cs_bases c) (cs_docstring c) (cs_init_params c)
    (map json_function (cs_methods c)).

Definition json_module (a : ModuleAPI) : JsonModule :=
  mk_JsonModule (api_path a) (api_docstring a) (api_exports a) (api_imports a)
    (map json_function (api_functions a)) (map json_class (api_classes a)).

(** One iteration of the loop of [generate_json] that extracts the
    Python APIs. *)
Definition json_api_of (root : str) (tree : dir) (include_private : bool)
           (entry : FileEntry) : option (list ModuleAPI) :=
  if endswith (rel_path entry) (py ".py") then
    match extract_python_api unparse root tree (path entry) include_private with
    | None => None
    | Some (Some api) =>
        Some [mk_ModuleAPI (rel_path entry) (api_docstring api) (api_functions api)
                (api_classes api) (api_imports api) (api_exports api)]
    | Some None => Some []
    end
  else Some [].

(** The loop of [generate_json] that extracts the Python APIs; [None]
    when [extract_python_api] raises on one of the entries. *)
Definition json_apis (root : str) (tree : dir) (include_private : bool)
           (entries : list FileEntry) : option (list ModuleAPI) :=
  gather (json_api_of root tree include_private) entries.

(** The [api] array: [for a in apis if a.functions or a.classes]. *)
Definition json_api_array (apis : list ModuleAPI) : list JsonModule :=
  map json_module (filter has_api apis).

(** [generate_json(root, max_depth, include_private, exclude_tests)],
    up to the serialisation of the object; [None] when the extraction
    loop raises. *)
Definition generate_json (root : str) (tree : dir) (git : churn_source) (max_depth : Z)
           (include_private : bool) (exclude_tests : bool) : option JsonMap :=
  let entries := discover_files root tree max_depth exclude_tests in
  let entries := _score_importance entries git in
  let entries := sorted importance_leb entries in
  match json_apis root tree include_private entries with
  | None => None
  | Some apis =>
      let project_name := OsPath.basename root in
      Some (mk_JsonMap project_name
              (Z.of_nat (length entries))
              (fold_left Z.add (map lines entries) 0%Z)
              (sorted_set (filter truthy (map language entries)))
              (map rel_path (filter is_entrypoint entries))
              (map json_file entries)
              (json_api_array apis))
  end.

End Renderers.

(* ------------------------------------------------------------------ *)
(** ** Vocabulary of the specification *)

(** Two records that agree on every field but the entrypoint flag, which
    the first one carries. *)
Definition same_but_entrypoint (e1 e2 : FileEntry) : Prop :=
  path e1 = path e2 /\ rel_path e1 = rel_path e2 /\ size e1 = size e2
  /\ lines e1 = lines e2 /\ description e1 = description e2
  /\ language e1 = language e2 /\ importance e1 = importance e2
  /\ is_entrypoint e1 = true /\ is_entrypoint e2 = false.

(** A line count is a count: never negative. *)
Definition lines_counted (e : FileEntry) : Prop := (0 <= lines e)%Z.

Definition unit_ratio (r : Q) : Prop := 0 <= r /\ r <= 1.

Definition in_unit_interval (e : FileEntry) : Prop := unit_ratio (importance e).



Section ParameterSpec.

Variable unparse : expr -> option str.

(** A parameter with the default value that belongs to it, if any. *)
Definition param : Type := (ast_arg * option expr)%type.

(** Python attaches the defaults to the last parameters. *)
Definition with_defaults (params : list ast_arg) (defaults : list expr) : list param :=
  combine params (repeat None (length params - length defaults) ++ map Some defaults).

(** The rendering [name[: type][ = default]] of one parameter. *)
Definition render_param (p : param) : str :=
  arg (fst p) ++ annotation_text unparse (fst p)
  ++ match snd p with
     | Some d => py " = " ++ match unparse d with Some t => t | None => py "..." end
     | None => []
     end.

Definition named_self_or_cls (p : param) : bool :=
  mem (arg (fst p)) [py "self"; py "cls"].

(** The tail that every reading shares: the variadic parameter, the
    keyword-only parameters and the keyword collector. *)
Definition params_tail (a : arguments) : list str :=
  star_part (py "*") (vararg a)
  ++ map (kwonly_part unparse) (kwonlyargs a)
  ++ star_part (py "**") (kwarg a).

(** The parameter list as the specification words it: every positional
    parameter is kept, but for the first parameter of a method when it
    is the implicit [self] / [cls]. *)
Definition positional_as_claimed (is_method : bool) (a : arguments) : list param :=
  let every := with_defaults (posonlyargs a ++ args a) (defaults a) in
  if is_method then
    match every with
    | p :: rest => if named_self_or_cls p then rest else every
    | [] => []
    end
  else every.

Definition params_as_claimed (is_method : bool) (a : arguments) : str :=
  join (py ", ") (map render_param (positional_as_claimed is_method a) ++ params_tail a).

(** The parameter list by name: every positional parameter that is not
    called [self] or [cls], wherever it stands and whatever the function
    is. *)
Definition params_by_name (a : arguments) : str :=
  join (py ", ")
    (map render_param
       (filter (fun p => negb (named_self_or_cls p))
          (with_defaults (posonlyargs a ++ args a) (defaults a)))
     ++ params_tail a).

End ParameterSpec.

(** [file_at tree ds f]: the tree holds the file [f] in the directory
    reached from its root through the sub-directories [ds]. *)
Inductive file_at : dir -> list str -> file -> Prop :=
| file_here (files : list file) (subdirs : list (str * dir)) (f : file) :
    In f files -> file_at (Dir files subdirs) [] f
| file_below (files : list file) (subdirs : list (str * dir))
             (name : str) (sub : dir) (ds : list str) (f : file) :
    In (name, sub) subdirs -> file_at sub ds f ->
    file_at (Dir files subdirs) (name :: ds) f.

(** A directory-entry name: not empty, and free of the separator. *)
Definition entry_name (n : str) : Prop := n <> [] /\ ~ In OsPath.sep n.

(** What every file system guarantees of a tree: proper entry names,
    and no two entries of one directory under the same name. *)
Inductive well_formed : dir -> Prop :=
| wf_Dir (files : list file) (subdirs : list (str * dir)) :
    Forall entry_name (map f_name files) ->
    NoDup (map f_name files) ->
    Forall entry_name (map fst subdirs) ->
    NoDup (map fst subdirs) ->
    Forall well_formed (map snd subdirs) ->
    well_formed (Dir files subdirs).

(** The paths that [os.walk] forms for a directory and for a file. *)
Definition dir_path (root : str) (ds : list str) : str := OsPath.join_all root ds.
Definition file_path (root : str) (ds : list str) (f : file) : str :=
  OsPath.join2 (dir_path root ds) (f_name f).

(** What [os.path.join] puts between a path and an entry name. *)
Definition glue (a : str) : str :=
  if is_empty a || endswith a [OsPath.sep] then [] else [OsPath.sep].

(** The relative path of a file: its directories and its name, joined
    by the separator. *)
Definition relative_path (ds : list str) (f : file) : str :=
  join [OsPath.sep] (ds ++ [f_name f]).

Definition hidden (n : str) : Prop := startswith n (py ".") = true.
Definition lock_file (n : str) : Prop := mem n SKIP_FILES = true.
Definition excluded_dir (n : str) : Prop := mem n SKIP_DIRS = true \/ hidden n.
Definition too_large (f : file) : Prop :=
  exists sz, f_stat f = Some sz /\ (sz > LARGE_FILE)%Z.

(** The four reasons of the specification for which a file is left out. *)
Definition filtered_out (ds : list str) (f : file) : Prop :=
  hidden (f_name f) \/ lock_file (f_name f) \/ Exists excluded_dir ds \/ too_large f.

(** A file that no rule of the collector other than the depth rule
    excludes. *)
Definition passes_filters (root : str) (exclude_tests : bool) (ds : list str) (f : file) : Prop :=
  Forall (fun d => keep_dir d = true) ds
  /\ mem (f_name f) SKIP_FILES = false
  /\ startswith (f_name f) (py ".") = false
  /\ (exclude_tests && _is_test_file (file_path root ds f) = false)
  /\ exists sz, f_stat f = Some sz /\ (sz <= LARGE_FILE)%Z.

(** The file that a discovered entry records appears at [path]. *)
Definition appears (p : str) (entries : list FileEntry) : Prop := In p (map path entries).

(** The two halves of one step of [walk]: the entries of the files of a
    directory, and those below one of its sub-directories. *)
Definition visit_files (root : str) (exclude_tests : bool) (dirpath : str)
           (files : list file) : list FileEntry :=
  keep_some (map (visit_file root exclude_tests dirpath) (sorted file_leb files)).

Definition visit_subdir (root : str) (max_depth : Z) (exclude_tests : bool)
           (dirpath : str) (nd : str * dir) : list FileEntry :=
  if keep_dir (fst nd)
  then walk root max_depth exclude_tests (OsPath.join2 dirpath (fst nd)) (snd nd)
  else [].

(** A root that does not end in the separator: every absolute path but
    the root of the file system itself. *)
Definition proper_root (root : str) : Prop :=
  is_empty root = false /\ endswith root [OsPath.sep] = false.

(** The number of separators of a relative path. *)
Definition separators (p : str) : Z := Z.of_nat (count_char OsPath.sep p).

(* ------------------------------------------------------------------ *)
(** ** A small project, for the worked examples *)

Module Demo.

(** A renderer for the expressions of the examples: names only. *)
Definition unparse (e : expr) : option str :=
  match e with
  | Name id => Some id
  | _ => None
  end.

Definition no_arguments : arguments := mk_arguments [] [] None [] [] None [].

(** [def run(self, x: int, y=d, *rest, k: str, **kw)]. *)
Definition run_arguments : arguments :=
  mk_arguments []
    [mk_arg (py "self") None; mk_arg (py "x") (Some (Name (py "int")));
     mk_arg (py "y") None]
    (Some (mk_arg (py "rest") None))
    [mk_arg (py "k") (Some (Name (py "str")))]
    [None]
    (Some (mk_arg (py "kw") None))
    [Name (py "d")].

(** [def f(self, x)], at module level. *)
Definition self_x_arguments : arguments :=
  mk_arguments [] [mk_arg (py "self") None; mk_arg (py "x") None] None [] [] None [].

(** [def m(x, self)], in a class. *)
Definition x_self_arguments : arguments :=
  mk_arguments [] [mk_arg (py "x") None; mk_arg (py "self") None] None [] [] None [].

(** [main.py]: a docstring, two imports, one plain and one
    underscore-prefixed function, one class. *)
Definition main_body : list stmt :=
  [Expr (Constant (CStr (py "Main module.")));
   Import [py "os.path"; py "requests"];
   FunctionDef (py "run") run_arguments [Expr (Constant (CStr (py "Run it.")))] []
     (Some (Name (py "bool")));
   AsyncFunctionDef (py "_helper") no_arguments [] [] None;
   ClassDef (py "Thing") [Name (py "Base")]
     [FunctionDef (py "__init__") self_x_arguments [] [] None;
      FunctionDef (py "go") no_arguments [] [] None]].
Definition main_module : module_ := Module_ main_body.

(** [consts.py]: an export list and an import, no function, no class. *)
Definition consts_module : module_ :=
  Module_
    [Import [py "numpy"];
     Assign [Name (py "__all__")] (List_ [Constant (CStr (py "LIMIT"))]);
     Assign [Name (py "LIMIT")] (OtherExpr 0)].

(** The files of the project; of a text only the first lines are
    written out, the syntax tree stands for the whole of it. *)
Definition main_text : str := py "# Main file" ++ [newline] ++ py "import os.path, requests".
Definition main_py : file :=
  mk_file (py "main.py") (Some 40%Z) (Some main_text) (Parsed main_module).
Definition consts_py : file :=
  mk_file (py "consts.py") (Some 30%Z) (Some (py "LIMIT = 3" ++ [newline]))
    (Parsed consts_module).
Definition broken_py : file :=
  mk_file (py "broken.py") (Some 12%Z) (Some (py "def broken(:" ++ [newline]))
    (Fails SyntaxError).
Definition notes_xyz : file :=
  mk_file (py "notes.xyz") (Some 6%Z) (Some (py "# note")) (Parsed (Module_ [])).
Definition hidden_file : file :=
  mk_file (py ".env") (Some 6%Z) (Some (py "# key")) (Parsed (Module_ [])).
Definition lock : file :=
  mk_file (py "yarn.lock") (Some 6%Z) (Some (py "# lock")) (Parsed (Module_ [])).
Definition big_file : file :=
  mk_file (py "dump.sql") (Some 2000000%Z) (Some (py "-- dump"))
    (Parsed (Module_ [Expr (OtherExpr 0)])).
Definition index_js : file :=
  mk_file (py "index.js") (Some 9%Z) (Some (py "// entry" ++ [newline]))
    (Fails SyntaxError).
Definition cached : file :=
  mk_file (py "main.pyc") (Some 9%Z) None (Fails SyntaxError).

Definition root : str := py "/home/p".

Definition tree : dir :=
  Dir [main_py; consts_py; broken_py; notes_xyz; hidden_file; lock; big_file]
      [(py "web", Dir [index_js] []);
       (py "__pycache__", Dir [cached] [])].

(** The entries that [discover_files] returns for the project. *)
Definition main_entry : FileEntry :=
  mk_FileEntry (py "/home/p/main.py") (py "main.py") 40 2 (py "Main file") (py "Python") true 0.
Definition consts_entry : FileEntry :=
  mk_FileEntry (py "/home/p/consts.py") (py "consts.py") 30 1 [] (py "Python") false 0.
Definition broken_entry : FileEntry :=
  mk_FileEntry (py "/home/p/broken.py") (py "broken.py") 12 1 [] (py "Python") false 0.
Definition notes_entry : FileEntry :=
  mk_FileEntry (py "/home/p/notes.xyz") (py "notes.xyz") 6 1 [] [] false 0.
Definition index_entry : FileEntry :=
  mk_FileEntry (py "/home/p/web/index.js") (py "web/index.js") 9 1 (py "entry")
    (py "JavaScript") true 0.

(** A record with the entrypoint flag of [main_entry] cleared. *)
Definition main_unflagged : FileEntry :=
  mk_FileEntry (py "/home/p/main.py") (py "main.py") 40 2 (py "Main file") (py "Python") false 0.

(** The two records side by side, as one run scores them. *)
Definition flag_pair : list FileEntry := [main_entry; main_unflagged].

(** A change log that names [main.py] twice and [web/index.js] once. *)
Definition git_log : churn_source :=
  Some (py "main.py" ++ [newline] ++ py "web/index.js" ++ [newline] ++ py "main.py"
        ++ [newline]).

(** A project without Python code: one text file. *)
Definition notes_only : dir := Dir [notes_xyz] [].

(** The root of the file system, holding [usr/x]. *)
Definition fs_root : str := py "/".
Definition usr_tree : dir :=
  Dir [] [(py "usr", Dir [mk_file (py "x") (Some 1%Z) (Some (py "x"))
                            (Parsed (Module_ [Expr (Name (py "x"))]))] [])].

(** A project with a Python file that holds a NUL byte: [ast.parse]
    raises [ValueError] on it. *)
Definition nul_py : file :=
  mk_file (py "nul.py") (Some 6%Z) (Some (py "x = 1" ++ [0%N])) (Fails ValueError).
Definition nul_tree : dir := Dir [main_py; nul_py] [].
Definition nul_entry : FileEntry :=
  mk_FileEntry (py "/home/p/nul.py") (py "nul.py") 6 1 [] (py "Python") false 0.

End Demo.

(* ------------------------------------------------------------------ *)
(** ** Vocabulary of the further properties *)

(** The names of the function definitions and of the class definitions
    among the statements of a body, in source order. *)
Definition function_names (body : list stmt) : list str :=
  flat_map (fun node => match as_funcdef node with
                        | Some fd => [fd_name fd]
                        | None => []
                        end) body.

Definition class_names (body : list stmt) : list str :=
  flat_map (fun node => match node with
                        | ClassDef name _ _ => [name]
                        | _ => []
                        end) body.

(** The visibility convention: a name is listed when private names are
    asked for or when it does not start with an underscore. *)
Definition visible (include_private : bool) (name : str) : bool :=
  include_private || negb (startswith name (py "_")).

(** A method is listed when it is not the constructor and is visible. *)
Definition listed_method (include_private : bool) (name : str) : bool :=
  negb (str_eqb name (py "__init__")) && visible include_private name.

(** How often a path is named by the lines of a change log, and how
    often a package is imported by the modules of a run. *)
Definition log_count (p : str) (log_lines : list str) : Z :=
  Z.of_nat (length (filter (fun line => str_eqb (strip line) p) log_lines)).

Definition import_uses (d : str) (apis : list ModuleAPI) : Z :=
  Z.of_nat (length (filter (fun a => mem d (api_imports a)) apis)).

(** A counter that is absent until the first count. *)
Definition counted (n : Z) : option Z := if (n =? 0)%Z then None else Some n.

(** The two language sets of the scoring: source code and build files. *)
Definition source_language (e : FileEntry) : bool :=
  mem (language e) (map py ["Python"; "JavaScript"; "TypeScript"; "Rust"; "Go"]%string).

Definition build_language (e : FileEntry) : bool :=
  mem (language e) (map py ["Makefile"; "Dockerfile"; "Shell"]%string).

(** A file directly in the project root. *)
Definition at_root (e : FileEntry) : bool := Nat.eqb (count_char OsPath.sep (rel_path e)) 0.

(** A file of the nested dictionary that [_format_tree] builds, by the
    keys that lead to it. *)
Inductive has_file : Dict.dict tnode -> list str -> Prop :=
| has_file_here (node : Dict.dict tnode) (name : str) (e : FileEntry) :
    Dict.get node name = Some (TFile e) -> has_file node [name]
| has_file_below (node sub : Dict.dict tnode) (name : str) (rest : list str) :
    Dict.get node name = Some (TDir sub) -> has_file sub rest ->
    has_file node (name :: rest).

(** [p] names a directory above [q]: a proper prefix of its parts. *)
Definition directory_of (p q : list str) : Prop :=
  exists rest, rest <> [] /\ q = p ++ rest.

(** The parts of the relative path of an entry. *)
Definition parts_of (e : FileEntry) : list str := split OsPath.sep (rel_path e).

(** No entry stands where another entry needs a directory. *)
Definition files_are_leaves (entries : list FileEntry) : Prop :=
  forall e e', In e entries -> In e' entries -> ~ directory_of (parts_of e) (parts_of e').




(** One line of the dependency digest: the package and the number of
    modules that use it. *)
Definition dep_line (dep : str) (count : Z) : str :=
  py "  " ++ dep ++ py " (used by " ++ str_of_int count ++ py " module"
  ++ (if (count >? 1)%Z then py "s" else []) ++ py ")".

(** Every import of every module is a standard-library module of the
    list of [_format_deps]. *)
Definition standard_imports (apis : list ModuleAPI) : Prop :=
  Forall (fun a => Forall (fun i => mem i stdlib = true) (api_imports a)) apis.

(* ================================================================== *)
(** * Properties of the specification *)

(* ------------------------------------------------------------------ *)
(** ** Importance scoring *)

Section Scoring.

Lemma fold_max_ge_init (l : list Z) (x : Z) : (x <= fold_left Z.max l x)%Z.
Proof.
  revert x; induction l as [|y l IH]; intros x; simpl; [lia|].
  specialize (IH (Z.max x y)); lia.
Qed.

Lemma fold_max_ge_in (l : list Z) (x y : Z) : In y l -> (y <= fold_left Z.max l x)%Z.
Proof.
  revert x; induction l as [|z l IH]; intros x Hin; simpl in *; [contradiction|].
  destruct Hin as [->|Hin].
  - pose proof (fold_max_ge_init l (Z.max x y)); lia.
  - now apply IH.
Qed.

Lemma max_of_ge (l : list Z) (y : Z) : In y l -> (y <= max_of l)%Z.
Proof.
  destruct l as [|x l]; simpl; [contradiction|].
  intros [->|Hin]; [apply fold_max_ge_init | now apply fold_max_ge_in].
Qed.

(** The ratio of a count to the maximum of its run lies in [0,1]. *)
Lemma ratio_bounds (a b : Z) :
  (0 <= a <= b)%Z -> (0 < b)%Z -> unit_ratio (inject_Z a / inject_Z b).
Proof.
  intros [Ha Hab] Hb.
  assert (Hb' : 0 < inject_Z b) by (rewrite (Zlt_Qlt 0 b) in Hb; exact Hb).
  split.
  - apply Qle_shift_div_l; [exact Hb'|].
    rewrite Qmult_0_l. rewrite (Zle_Qle 0 a) in Ha; exact Ha.
  - apply Qle_shift_div_r; [exact Hb'|].
    rewrite Qmult_1_l. rewrite (Zle_Qle a b) in Hab; exact Hab.
Qed.

Lemma dict_get_in (V : Type) (d : Dict.dict V) (k : str) (v : V) :
  Dict.get d k = Some v -> In v (Dict.values d).
Proof.
  induction d as [|[k' v'] d IH]; simpl; [discriminate|].
  destruct (str_eqb k' k); [intros [= ->]; now left | intro H; right; auto].
Qed.

Lemma dict_set_values (V : Type) (P : V -> Prop) (d : Dict.dict V) (k : str) (v : V) :
  Forall P (Dict.values d) -> P v -> Forall P (Dict.values (Dict.set d k v)).
Proof.
  induction d as [|[k' v'] d IH]; simpl; intros Hd Hv.
  - constructor; [exact Hv | constructor].
  - inversion Hd; subst. destruct (str_eqb k' k); simpl; constructor; auto.
Qed.

(** Every path of the change log has been counted at least once. *)
Lemma count_line_positive (churn : Dict.dict Z) (line : str) :
  Forall (fun n => (1 <= n)%Z) (Dict.values churn) ->
  Forall (fun n => (1 <= n)%Z) (Dict.values (count_line churn line)).
Proof.
  intro H. unfold count_line. destruct (truthy (strip line)); [|exact H].
  apply dict_set_values; [exact H|].
  destruct (Dict.get churn (strip line)) as [n|] eqn:E; [|lia].
  apply dict_get_in in E. rewrite Forall_forall in H. specialize (H _ E). lia.
Qed.

Lemma churn_of_positive (git : churn_source) :
  Forall (fun n => (1 <= n)%Z) (Dict.values (churn_of git)).
Proof.
  destruct git as [stdout|]; simpl; [|constructor].
  destruct (truthy stdout); [|constructor].
  generalize (split newline stdout).
  assert (H0 : Forall (fun n => (1 <= n)%Z) (Dict.values (@nil (str * Z)))) by constructor.
  revert H0. generalize (@nil (str * Z)) as acc.
  intros acc H0 l; revert acc H0.
  induction l as [|x l IH]; intros acc H0; simpl; [exact H0|].
  apply IH, count_line_positive, H0.
Qed.

Lemma score_importance_map (entries : list FileEntry) (git : churn_source) :
  _score_importance entries git =
  map (fun entry => set_importance entry
         (score_entry (max_lines_of entries) (churn_of git) (max_churn_of (churn_of git)) entry))
      entries.
Proof. destruct entries; reflexivity. Qed.

Lemma lines_ratio_bounds (entries : list FileEntry) (e : FileEntry) :
  Forall lines_counted entries -> In e entries ->
  unit_ratio (inject_Z (lines e) / inject_Z (max_lines_of entries)).
Proof.
  intros Hnn Hin.
  assert (H0 : (0 <= lines e)%Z) by (rewrite Forall_forall in Hnn; now apply Hnn).
  assert (Hm : (lines e <= max_of (map lines entries))%Z)
    by (apply max_of_ge, in_map, Hin).
  unfold max_lines_of.
  destruct (Z.eqb_spec (max_of (map lines entries)) 0) as [E|E];
    apply ratio_bounds; lia.
Qed.

Lemma churn_ratio_bounds (churn : Dict.dict Z) (k : str) (n : Z) :
  Forall (fun n => (1 <= n)%Z) (Dict.values churn) ->
  Dict.get churn k = Some n ->
  unit_ratio (inject_Z n / inject_Z (max_churn_of churn)).
Proof.
  intros Hpos Hget.
  pose proof (dict_get_in _ _ Hget) as Hin.
  assert (H1 : (1 <= n)%Z) by (rewrite Forall_forall in Hpos; now apply Hpos).
  assert (Hm : (n <= max_of (Dict.values churn))%Z) by (apply max_of_ge, Hin).
  unfold max_churn_of. destruct churn as [|kv churn]; [simpl in Hin; contradiction|].
  apply ratio_bounds; lia.
Qed.

Lemma min_one_cases (s : Q) :
  (1 <= s /\ min_one s = 1) \/ (s < 1 /\ min_one s = s).
Proof.
  unfold min_one. destruct (Qle_bool 1 s) eqn:E.
  - left. split; [now apply Qle_bool_iff | reflexivity].
  - right. split; [|reflexivity].
    apply Qnot_le_lt. intro H. apply Qle_bool_iff in H. congruence.
Qed.

(** Case analysis on the additive terms of a score, then linear
    arithmetic on the two clamped sums. *)
Ltac score_cases e :=
  destruct (mem (language e) _);
  try destruct (mem (language e) _);
  destruct (Nat.eqb _ 0);
  destruct (truthy (description e));
  repeat match goal with
         | |- context [min_one ?s] =>
             destruct (min_one_cases s) as [[? ->]|[? ->]]
         end.

Lemma score_entry_bounded (max_lines : Z) (churn : Dict.dict Z) (max_churn : Z)
      (entry : FileEntry) :
  unit_ratio (inject_Z (lines entry) / inject_Z max_lines) ->
  (forall n, Dict.get churn (rel_path entry) = Some n ->
             unit_ratio (inject_Z n / inject_Z max_churn)) ->
  unit_ratio (score_entry max_lines churn max_churn entry).
Proof.
  intros [Hl0 Hl1] Hc. unfold score_entry, unit_ratio.
  set (r1 := inject_Z (lines entry) / inject_Z max_lines) in *.
  destruct (Dict.get churn (rel_path entry)) as [n|].
  - destruct (Hc n eq_refl) as [Hc0 Hc1].
    set (r2 := inject_Z n / inject_Z max_churn) in *.
    destruct (is_entrypoint entry); score_cases entry; split; lra.
  - destruct (is_entrypoint entry); score_cases entry; split; lra.
Qed.

Lemma score_entry_flag (max_lines : Z) (churn : Dict.dict Z) (max_churn : Z)
      (e1 e2 : FileEntry) :
  same_but_entrypoint e1 e2 ->
  unit_ratio (inject_Z (lines e2) / inject_Z max_lines) ->
  (forall n, Dict.get churn (rel_path e2) = Some n ->
             unit_ratio (inject_Z n / inject_Z max_churn)) ->
  score_entry max_lines churn max_churn e2 < score_entry max_lines churn max_churn e1.
Proof.
  intros (_ & Hrel & _ & Hlines & Hdesc & Hlang & _ & Hep1 & Hep2) [Hl0 Hl1] Hc.
  unfold score_entry. rewrite Hrel, Hlines, Hdesc, Hlang, Hep1, Hep2.
  set (r1 := inject_Z (lines e2) / inject_Z max_lines) in *.
  destruct (Dict.get churn (rel_path e2)) as [n|].
  - destruct (Hc n eq_refl) as [Hc0 Hc1].
    set (r2 := inject_Z n / inject_Z max_churn) in *.
    score_cases e2; lra.
  - score_cases e2; lra.
Qed.

(** C8.  After the scoring stage the importance of every entry lies in
    the closed interval [0,1], whatever the entries (with line counts
    that are counts) and whatever the change log. *)
Theorem importance_in_unit_interval (entries : list FileEntry) (git : churn_source) :
  Forall lines_counted entries ->
  Forall in_unit_interval (_score_importance entries git).
Proof.
  intro Hnn. rewrite score_importance_map.
  apply Forall_forall. intros s Hs.
  apply in_map_iff in Hs. destruct Hs as (e & <- & Hin).
  unfold in_unit_interval; simpl.
  apply score_entry_bounded.
  - now apply lines_ratio_bounds.
  - intros n Hn. eapply churn_ratio_bounds; [apply churn_of_positive | exact Hn].
Qed.

(** C2.  Of two records of one run that differ in the entrypoint flag
    only, the flagged one is scored strictly higher. *)
Theorem entrypoint_scores_strictly_higher
        (entries : list FileEntry) (git : churn_source) (i j : nat) (e1 e2 : FileEntry) :
  Forall lines_counted entries ->
  nth_error entries i = Some e1 ->
  nth_error entries j = Some e2 ->
  same_but_entrypoint e1 e2 ->
  exists s1 s2,
    nth_error (_score_importance entries git) i = Some s1
    /\ nth_error (_score_importance entries git) j = Some s2
    /\ importance s2 < importance s1.
Proof.
  intros Hnn H1 H2 Hsame. rewrite score_importance_map.
  eexists; eexists. split; [|split].
  - apply map_nth_error; exact H1.
  - apply map_nth_error; exact H2.
  - simpl. apply score_entry_flag; [exact Hsame | |].
    + apply lines_ratio_bounds; [exact Hnn | eapply nth_error_In; exact H2].
    + intros n Hn. eapply churn_ratio_bounds; [apply churn_of_positive | exact Hn].
Qed.

End Scoring.

(* ------------------------------------------------------------------ *)
(** ** API extraction *)

Section ExtractionProperties.

Local Open Scope nat_scope.

Variable unparse : expr -> option str.







(** The default that the index arithmetic of [_format_params] selects
    for the parameter at index [k]. *)
Lemma positional_part_render (offset : Z) (defaults : list expr) (k : nat) (a : ast_arg)
      (d : option expr) :
  nth_error (repeat None (Z.to_nat offset) ++ map Some defaults) k = Some d ->
  (0 <= offset)%Z ->
  positional_part unparse offset defaults (Z.of_nat k) a
  = if named_self_or_cls (a, d) then None else Some (render_param unparse (a, d)).
Proof.
  intros Hnth Hoff. unfold positional_part, named_self_or_cls, render_param.
  cbn [fst snd].
  destruct (mem (arg a) [py "self"; py "cls"]); [reflexivity|].
  destruct (Nat.lt_ge_cases k (Z.to_nat offset)) as [Hlt|Hge].
  - rewrite nth_error_app1 in Hnth by (rewrite repeat_length; exact Hlt).
    apply nth_error_In, repeat_spec in Hnth. subst d.
    replace ((Z.of_nat k - offset >=? 0)%Z) with false by lia.
    cbn [andb]. now rewrite app_nil_r.
  - rewrite nth_error_app2 in Hnth by (rewrite repeat_length; exact Hge).
    rewrite repeat_length in Hnth.
    assert (Hlen : k - Z.to_nat offset < length defaults).
    { rewrite <- (length_map Some defaults). apply nth_error_Some. congruence. }
    replace ((Z.of_nat k - offset >=? 0)%Z) with true by lia.
    replace ((Z.of_nat k - offset <? Z.of_nat (length defaults))%Z) with true by lia.
    cbn [andb]. replace (Z.to_nat (Z.of_nat k - offset)) with (k - Z.to_nat offset) by lia.
    rewrite nth_error_map in Hnth.
    destruct (nth_error defaults (k - Z.to_nat offset)) as [x|]; [|discriminate].
    injection Hnth as <-.
    destruct (unparse x); now rewrite <- !app_assoc.
Qed.

Lemma skipn_nth_error (A : Type) (l : list A) (k : nat) (d : A) :
  nth_error l k = Some d -> skipn k l = d :: skipn (S k) l.
Proof.
  revert l. induction k as [|k IHk]; intros [|x l] Hd; simpl in *; try discriminate.
  - now injection Hd as ->.
  - now apply IHk.
Qed.

Lemma positional_parts_render (offset : Z) (defaults : list expr) (l : list ast_arg) (k : nat) :
  (0 <= offset)%Z ->
  k + length l <= Z.to_nat offset + length defaults ->
  positional_parts unparse offset defaults (Z.of_nat k) l
  = map (render_param unparse)
      (filter (fun p => negb (named_self_or_cls p))
         (combine l (skipn k (repeat None (Z.to_nat offset) ++ map Some defaults)))).
Proof.
  intros Hoff. revert k.
  induction l as [|a l IH]; intros k Hk; [reflexivity|].
  cbn [length] in Hk.
  set (D := repeat None (Z.to_nat offset) ++ map Some defaults) in *.
  assert (HD : length D = Z.to_nat offset + length defaults)
    by (unfold D; rewrite length_app, repeat_length, length_map; reflexivity).
  destruct (nth_error D k) as [d|] eqn:Hd;
    [|apply nth_error_None in Hd; lia].
  rewrite (skipn_nth_error _ _ Hd).
  cbn [positional_parts combine filter].
  rewrite (positional_part_render _ _ _ Hd Hoff).
  replace (Z.of_nat k + 1)%Z with (Z.of_nat (S k)) by lia.
  rewrite IH by lia.
  destruct (named_self_or_cls (a, d)); reflexivity.
Qed.

(** C6, as the code has it.  Without positional-only parameters, the
    rendered list holds, in source order, every positional parameter
    that is not called [self] or [cls] (in a module-level function as in
    a method, at the first position as at any other) as
    [name[: type][ = default]], then [*name] for the variadic parameter,
    [name[: type]] for each keyword-only parameter, and [**name] for the
    keyword collector. *)
Theorem format_params_by_name (a : arguments) :
  posonlyargs a = [] ->
  length (defaults a) <= length (args a) ->
  _format_params unparse a = params_by_name unparse a.
Proof.
  intros Hpos Hlen. unfold _format_params, params_by_name, params_tail, with_defaults.
  rewrite Hpos. cbn [app]. f_equal. f_equal.
  rewrite <- Nat2Z.inj_sub by exact Hlen.
  change 0%Z with (Z.of_nat 0).
  rewrite positional_parts_render by lia.
  rewrite Nat2Z.id. reflexivity.
Qed.

End ExtractionProperties.

(* ------------------------------------------------------------------ *)
(** ** Paths *)

Section Paths.

Local Open Scope nat_scope.

Lemma str_eqb_refl (a : str) : str_eqb a a = true.
Proof. induction a as [|x a IH]; simpl; [reflexivity|]. now rewrite N.eqb_refl. Qed.

Lemma str_eqb_eq (a b : str) : str_eqb a b = true <-> a = b.
Proof.
  split; [|intros ->; apply str_eqb_refl].
  revert b. induction a as [|x a IH]; intros [|y b]; simpl; try discriminate; auto.
  intro H. apply andb_true_iff in H. destruct H as [Hx Hab].
  apply N.eqb_eq in Hx. f_equal; auto.
Qed.

Lemma entry_name_not_rooted (n : str) :
  entry_name n -> startswith n [OsPath.sep] = false.
Proof.
  intros [Hne Hsep]. destruct n as [|c n]; [congruence|]. simpl.
  destruct (N.eqb_spec c OsPath.sep) as [->|]; [|reflexivity].
  exfalso. apply Hsep. now left.
Qed.

Lemma entry_name_open_end (a n : str) :
  entry_name n -> endswith (a ++ n) [OsPath.sep] = false.
Proof.
  intros [Hne Hsep]. unfold endswith.
  destruct (exists_last Hne) as (n' & c & ->).
  rewrite app_assoc, rev_app_distr. simpl.
  destruct (N.eqb_spec c OsPath.sep) as [->|]; [|reflexivity].
  exfalso. apply Hsep, in_or_app. right. now left.
Qed.

Lemma join2_entry (a n : str) :
  entry_name n -> OsPath.join2 a n = a ++ glue a ++ n.
Proof.
  intro Hn. unfold OsPath.join2, glue.
  rewrite (entry_name_not_rooted Hn).
  now destruct (is_empty a || endswith a [OsPath.sep]).
Qed.

Lemma glue_after_entry (a n : str) : entry_name n -> glue (a ++ n) = [OsPath.sep].
Proof.
  intro Hn. unfold glue. rewrite (entry_name_open_end a Hn).
  destruct Hn as [Hne _]. destruct a, n; simpl; congruence.
Qed.

Lemma join_all_entries (a n : str) (ns : list str) :
  Forall entry_name (n :: ns) ->
  OsPath.join_all a (n :: ns) = a ++ glue a ++ join [OsPath.sep] (n :: ns).
Proof.
  unfold OsPath.join_all. revert a n.
  induction ns as [|m ns IH]; intros a n Hall; inversion Hall as [|? ? Hn Hns]; subst.
  - simpl. now apply join2_entry.
  - change (fold_left OsPath.join2 (n :: m :: ns) a)
      with (fold_left OsPath.join2 (m :: ns) (OsPath.join2 a n)).
    rewrite (IH _ _ Hns), (join2_entry a Hn).
    rewrite (app_assoc a (glue a) n), (glue_after_entry _ Hn).
    change (join [OsPath.sep] (n :: m :: ns))
      with (n ++ [OsPath.sep] ++ join [OsPath.sep] (m :: ns)).
    now rewrite <- !app_assoc.
Qed.

Lemma file_path_entries (root : str) (ds : list str) (f : file) :
  Forall entry_name ds -> entry_name (f_name f) ->
  file_path root ds f = root ++ glue root ++ relative_path ds f.
Proof.
  intros Hds Hf. unfold file_path, dir_path, relative_path.
  assert (E : OsPath.join2 (OsPath.join_all root ds) (f_name f)
              = OsPath.join_all root (ds ++ [f_name f]))
    by (unfold OsPath.join_all; now rewrite fold_left_app).
  rewrite E.
  destruct ds as [|d ds]; simpl app.
  - apply join_all_entries. now constructor.
  - apply join_all_entries. inversion Hds; subst. constructor; [assumption|].
    apply Forall_app. split; [assumption | now constructor].
Qed.

(** Splitting at the separator undoes joining entry names. *)
Lemma split_entry (n : str) : ~ In OsPath.sep n -> split OsPath.sep n = [n].
Proof.
  induction n as [|c n IH]; intro Hsep; cbn [split]; [reflexivity|].
  destruct (N.eqb_spec c OsPath.sep) as [->|]; [exfalso; apply Hsep; now left|].
  rewrite IH; [reflexivity|]. intro H. apply Hsep. now right.
Qed.

Lemma split_not_nil (c : char) (s : str) : split c s <> [].
Proof.
  destruct s as [|x s]; cbn [split]; [discriminate|].
  destruct (N.eqb x c); [discriminate|].
  destruct (split c s); discriminate.
Qed.

Lemma split_app_sep (a b : str) :
  split OsPath.sep (a ++ OsPath.sep :: b) = split OsPath.sep a ++ split OsPath.sep b.
Proof.
  induction a as [|c a IH]; cbn [split app].
  - now rewrite N.eqb_refl.
  - destruct (N.eqb c OsPath.sep); rewrite IH; [reflexivity|].
    destruct (split OsPath.sep a) eqn:E; [now apply split_not_nil in E | reflexivity].
Qed.

Lemma split_join (n : str) (ns : list str) :
  Forall entry_name (n :: ns) -> split OsPath.sep (join [OsPath.sep] (n :: ns)) = n :: ns.
Proof.
  revert n. induction ns as [|m ns IH]; intros n Hall;
    inversion Hall as [|? ? [_ Hn] Hns]; subst.
  - simpl. now apply split_entry.
  - change (join [OsPath.sep] (n :: m :: ns))
      with (n ++ OsPath.sep :: join [OsPath.sep] (m :: ns)).
    rewrite split_app_sep, (@split_entry n Hn), (IH _ Hns). reflexivity.
Qed.

Lemma relative_path_inj (ds ds' : list str) (f f' : file) :
  Forall entry_name ds -> entry_name (f_name f) ->
  Forall entry_name ds' -> entry_name (f_name f') ->
  relative_path ds f = relative_path ds' f' -> ds = ds' /\ f_name f = f_name f'.
Proof.
  intros Hds Hf Hds' Hf' E. unfold relative_path in E.
  assert (Hall : forall l n, Forall entry_name l -> entry_name n ->
                   exists x xs, l ++ [n] = x :: xs /\ Forall entry_name (x :: xs)).
  { intros l n Hl Hn. destruct l as [|x l]; simpl.
    - exists n, []. split; [reflexivity | now constructor].
    - exists x, (l ++ [n]). split; [reflexivity|].
      inversion Hl; subst. constructor; [assumption|].
      apply Forall_app. split; [assumption | now constructor]. }
  destruct (Hall _ _ Hds Hf) as (x & xs & E1 & H1).
  destruct (Hall _ _ Hds' Hf') as (y & ys & E2 & H2).
  rewrite E1, E2 in E. apply (f_equal (split OsPath.sep)) in E.
  rewrite (split_join H1), (split_join H2), <- E1, <- E2 in E.
  now apply app_inj_tail in E.
Qed.

Lemma file_path_inj (root : str) (ds ds' : list str) (f f' : file) :
  Forall entry_name ds -> entry_name (f_name f) ->
  Forall entry_name ds' -> entry_name (f_name f') ->
  file_path root ds f = file_path root ds' f' -> ds = ds' /\ f_name f = f_name f'.
Proof.
  intros Hds Hf Hds' Hf' E.
  rewrite (@file_path_entries root ds f Hds Hf), (@file_path_entries root ds' f' Hds' Hf') in E.
  apply app_inv_head, app_inv_head in E.
  now apply relative_path_inj.
Qed.

Lemma count_sep_join (n : str) (ns : list str) :
  Forall entry_name (n :: ns) ->
  count_char OsPath.sep (join [OsPath.sep] (n :: ns)) = length ns.
Proof.
  unfold count_char. revert n.
  induction ns as [|m ns IH]; intros n Hall;
    inversion Hall as [|? ? [_ Hn] Hns]; subst.
  - simpl. now apply count_occ_not_In.
  - change (join [OsPath.sep] (n :: m :: ns))
      with (n ++ OsPath.sep :: join [OsPath.sep] (m :: ns)).
    rewrite count_occ_app, (proj1 (count_occ_not_In _ _ _) Hn).
    rewrite count_occ_cons_eq by reflexivity.
    cbn [length Nat.add]. f_equal. exact (IH _ Hns).
Qed.

End Paths.

(* ------------------------------------------------------------------ *)
(** ** The walk of [discover_files] *)

Section Discovery.

Local Open Scope nat_scope.

Variables (root : str) (max_depth : Z) (exclude_tests : bool).

(** Induction on a tree, with the hypothesis on every sub-directory. *)
Lemma dir_induction (P : dir -> Prop) :
  (forall files subdirs, Forall P (map snd subdirs) -> P (Dir files subdirs)) ->
  forall d, P d.
Proof.
  intro H. fix IH 1. intros [files subdirs]. apply H.
  induction subdirs as [|[name sub] rest IHrest]; simpl; constructor.
  - apply IH.
  - exact IHrest.
Qed.

Lemma walk_Dir (dirpath : str) (files : list file) (subdirs : list (str * dir)) :
  walk root max_depth exclude_tests dirpath (Dir files subdirs)
  = if (depth_of root dirpath >? max_depth)%Z then []
    else visit_files root exclude_tests dirpath files
         ++ flat_map (visit_subdir root max_depth exclude_tests dirpath) subdirs.
Proof.
  cbn [walk]. destruct (depth_of root dirpath >? max_depth)%Z; [reflexivity|].
  unfold visit_files. f_equal.
  induction subdirs as [|[name sub] rest IH]; [reflexivity|].
  cbn [flat_map]. rewrite <- IH. reflexivity.
Qed.

Lemma in_keep_some (A : Type) (l : list (option A)) (x : A) :
  In x (keep_some l) <-> In (Some x) l.
Proof.
  induction l as [|[y|] l IH]; simpl; [tauto| |].
  - rewrite IH. split; intros [H|H]; auto; left; congruence.
  - rewrite IH. split; [auto | intros [H|H]; [discriminate | exact H]].
Qed.

Lemma in_insert_sorted (A : Type) (leb : A -> A -> bool) (x y : A) (l : list A) :
  In y (insert_sorted leb x l) <-> y = x \/ In y l.
Proof.
  induction l as [|z l IH]; simpl; [intuition congruence|].
  destruct (leb x z); simpl; [intuition congruence|].
  rewrite IH. intuition congruence.
Qed.

(** Sorting keeps the elements. *)
Lemma in_sorted (A : Type) (leb : A -> A -> bool) (y : A) (l : list A) :
  In y (sorted leb l) <-> In y l.
Proof.
  induction l as [|x l IH]; simpl; [tauto|].
  rewrite in_insert_sorted, IH. intuition congruence.
Qed.

Lemma in_visit_files (dirpath : str) (files : list file) (e : FileEntry) :
  In e (visit_files root exclude_tests dirpath files)
  <-> exists f, In f files /\ visit_file root exclude_tests dirpath f = Some e.
Proof.
  unfold visit_files. rewrite in_keep_some, in_map_iff.
  split; intros (f & H1 & H2); exists f.
  - apply in_sorted in H2. auto.
  - split; [exact H2 | now apply in_sorted].
Qed.

(** Every discovered entry records a file of the tree: one that lies
    below kept directories only, within the depth limit, and for which
    the loop body reached its [append]. *)
Lemma walk_provenance (d : dir) :
  forall (dirpath : str) (e : FileEntry),
    In e (walk root max_depth exclude_tests dirpath d) ->
    exists ds f,
      file_at d ds f
      /\ Forall (fun n => keep_dir n = true) ds
      /\ (depth_of root (dir_path dirpath ds) <= max_depth)%Z
      /\ visit_file root exclude_tests (dir_path dirpath ds) f = Some e.
Proof.
  induction d as [files subdirs IH] using dir_induction.
  intros dirpath e. rewrite walk_Dir.
  destruct (depth_of root dirpath >? max_depth)%Z eqn:Hdepth; [contradiction|].
  rewrite in_app_iff, in_visit_files, in_flat_map.
  intros [(f & Hf & Hvisit) | ([name sub] & Hsub & Hin)].
  - exists [], f. repeat split; auto using file_here. cbn. lia.
  - unfold visit_subdir in Hin. cbn [fst snd] in Hin.
    destruct (keep_dir name) eqn:Hkeep; [|contradiction].
    rewrite Forall_forall in IH.
    destruct (IH sub (in_map snd _ _ Hsub) _ _ Hin) as (ds & f & Hat & Hds & Hd & Hvisit).
    exists (name :: ds), f. repeat split; auto.
    eapply file_below; eauto.
Qed.

(** Conversely, a file that the loop body appends is discovered as soon
    as every directory on the way to it is kept and within the limit. *)
Lemma walk_complete (d : dir) (ds : list str) (f : file) :
  file_at d ds f ->
  forall (dirpath : str) (e : FileEntry),
    Forall (fun n => keep_dir n = true) ds ->
    (forall k, k <= length ds ->
               (depth_of root (dir_path dirpath (firstn k ds)) <= max_depth)%Z) ->
    visit_file root exclude_tests (dir_path dirpath ds) f = Some e ->
    In e (walk root max_depth exclude_tests dirpath d).
Proof.
  induction 1 as [files subdirs f Hf | files subdirs name sub ds f Hsub Hat IH];
    intros dirpath e Hkeep Hdepth Hvisit; rewrite walk_Dir.
  - specialize (Hdepth 0 (Nat.le_0_l _)). cbn in Hdepth.
    replace (depth_of root dirpath >? max_depth)%Z with false by lia.
    apply in_or_app. left. apply in_visit_files. eauto.
  - pose proof (Hdepth 0 (Nat.le_0_l _)) as H0. cbn in H0.
    replace (depth_of root dirpath >? max_depth)%Z with false by lia.
    apply in_or_app. right. apply in_flat_map. exists (name, sub). split; [exact Hsub|].
    inversion Hkeep as [|? ? Hname Hrest]; subst.
    unfold visit_subdir. cbn [fst snd]. rewrite Hname.
    apply IH; auto.
    intros k Hk. apply (Hdepth (S k)). cbn [length]. lia.
Qed.

(** What the loop body of [discover_files] guarantees of an entry. *)
Lemma visit_file_Some (dirpath : str) (f : file) (e : FileEntry) :
  visit_file root exclude_tests dirpath f = Some e ->
  mem (f_name f) SKIP_FILES = false
  /\ startswith (f_name f) (py ".") = false
  /\ (exists sz, f_stat f = Some sz /\ (sz <= LARGE_FILE)%Z /\ size e = sz)
  /\ path e = OsPath.join2 dirpath (f_name f)
  /\ rel_path e = OsPath.relpath (OsPath.join2 dirpath (f_name f)) root
  /\ lines e = count_lines f
  /\ language e = _detect_language (OsPath.join2 dirpath (f_name f))
  /\ description e = (if truthy (language e) then _get_description f else []).
Proof.
  unfold visit_file.
  destruct (mem (f_name f) SKIP_FILES); [discriminate|].
  destruct (startswith (f_name f) (py ".")); [discriminate|]. cbn [orb].
  destruct (exclude_tests && _is_test_file _); [discriminate|].
  destruct (f_stat f) as [sz|]; [|discriminate].
  destruct (Z.gtb_spec sz LARGE_FILE); [discriminate|].
  intros [= <-]. cbn. repeat split; eauto.
Qed.

Lemma file_at_entry_names (d : dir) (ds : list str) (f : file) :
  well_formed d -> file_at d ds f -> Forall entry_name ds /\ entry_name (f_name f).
Proof.
  intros Hwf Hat. induction Hat as [files subdirs f Hf | files subdirs name sub ds f Hsub Hat IH];
    inversion Hwf as [? ? Hfiles _ Hnames _ Hsubs]; subst.
  - split; [constructor|].
    rewrite Forall_forall in Hfiles. apply Hfiles, in_map, Hf.
  - rewrite Forall_forall in Hnames, Hsubs.
    destruct IH as [IHds IHf]; [apply Hsubs, (in_map snd _ _ Hsub)|].
    split; [constructor|]; auto.
    apply Hnames, (in_map fst _ _ Hsub).
Qed.

Lemma NoDup_map_eq (A B : Type) (g : A -> B) (l : list A) (x y : A) :
  NoDup (map g l) -> In x l -> In y l -> g x = g y -> x = y.
Proof.
  induction l as [|z l IH]; simpl; [contradiction|].
  intros Hnd Hx Hy E. inversion Hnd as [|? ? Hz Hl]; subst.
  destruct Hx as [->|Hx], Hy as [->|Hy]; auto.
  - exfalso. apply Hz. rewrite E. now apply in_map.
  - exfalso. apply Hz. rewrite <- E. now apply in_map.
Qed.

(** In a well-formed tree a place holds one file only. *)
Lemma file_at_unique (d : dir) (ds : list str) (f f' : file) :
  well_formed d -> file_at d ds f -> file_at d ds f' -> f_name f = f_name f' -> f = f'.
Proof.
  intros Hwf Hat. revert f' Hwf.
  induction Hat as [files subdirs f Hf | files subdirs name sub ds f Hsub Hat IH];
    intros f' Hwf Hat' E; inversion Hwf as [? ? _ Hnd _ Hnd' Hsubs]; subst;
    inversion Hat'; subst.
  - eapply NoDup_map_eq; eauto.
  - assert (Heq : (name, sub) = (name, sub0))
      by (eapply (@NoDup_map_eq _ _ fst); eauto).
    injection Heq as <-.
    rewrite Forall_forall in Hsubs.
    apply IH; auto. apply Hsubs, (in_map snd _ _ Hsub).
Qed.

Lemma keep_dir_not_excluded (n : str) : keep_dir n = true -> ~ excluded_dir n.
Proof.
  unfold keep_dir, excluded_dir, hidden. intro H.
  apply andb_true_iff in H. destruct H as [H1 H2].
  apply negb_true_iff in H1, H2. intros [H|H]; congruence.
Qed.

(** The collector only produces line counts that are counts. *)
Lemma discovered_lines_counted (tree : dir) :
  Forall lines_counted (discover_files root tree max_depth exclude_tests).
Proof.
  apply Forall_forall. intros e Hin. apply walk_provenance in Hin.
  destruct Hin as (ds & f & _ & _ & _ & Hvisit).
  apply visit_file_Some in Hvisit.
  destruct Hvisit as (_ & _ & _ & _ & _ & Hlines & _).
  unfold lines_counted. rewrite Hlines. unfold count_lines.
  destruct (f_text f); lia.
Qed.

(** C9.  A discovered file without a language tag has the empty
    description, whatever its content. *)
Theorem no_language_no_description (tree : dir) (e : FileEntry) :
  In e (discover_files root tree max_depth exclude_tests) ->
  language e = [] ->
  description e = [].
Proof.
  intros Hin Hlang. unfold discover_files in Hin.
  apply walk_provenance in Hin.
  destruct Hin as (ds & f & _ & _ & _ & Hvisit).
  apply visit_file_Some in Hvisit.
  destruct Hvisit as (_ & _ & _ & _ & _ & _ & _ & Hdesc).
  rewrite Hdesc, Hlang. reflexivity.
Qed.

(** C4.  A hidden file, a lock file, a file below an excluded or hidden
    directory and a file above the size threshold never appear in the
    discovered file set. *)
Theorem filtered_files_never_appear (tree : dir) (ds : list str) (f : file) :
  well_formed tree ->
  file_at tree ds f ->
  filtered_out ds f ->
  ~ appears (file_path root ds f) (discover_files root tree max_depth exclude_tests).
Proof.
  intros Hwf Hat Hout Happ.
  unfold appears in Happ. apply in_map_iff in Happ.
  destruct Happ as (e & Hpath & Hin).
  apply walk_provenance in Hin.
  destruct Hin as (ds' & f' & Hat' & Hkeep & _ & Hvisit).
  apply visit_file_Some in Hvisit.
  destruct Hvisit as (Hlock & Hhidden & (sz & Hstat & Hsz & _) & Hpath' & _).
  destruct (file_at_entry_names Hwf Hat) as [Hds Hf].
  destruct (file_at_entry_names Hwf Hat') as [Hds' Hf'].
  assert (E : file_path root ds' f' = file_path root ds f)
    by (rewrite <- Hpath, Hpath'; reflexivity).
  apply file_path_inj in E; auto. destruct E as [-> Hname].
  assert (f' = f) by (eapply file_at_unique; eauto). subst f'.
  destruct Hout as [H | [H | [H | (sz' & Hstat' & Hbig)]]].
  - unfold hidden in H. congruence.
  - unfold lock_file in H. congruence.
  - apply Exists_exists in H. destruct H as (n & Hn & Hex).
    rewrite Forall_forall in Hkeep.
    exact (keep_dir_not_excluded (Hkeep n Hn) Hex).
  - rewrite Hstat in Hstat'. injection Hstat' as <-. lia.
Qed.

Lemma truthy_entry_names (l : list str) : Forall entry_name l -> filter truthy l = l.
Proof.
  induction 1 as [|n l [Hne _] _ IH]; simpl; [reflexivity|].
  destruct n; [congruence|]. simpl. now rewrite IH.
Qed.

Lemma components_join (n : str) (ns : list str) :
  Forall entry_name (n :: ns) -> OsPath.components (join [OsPath.sep] (n :: ns)) = n :: ns.
Proof.
  intro H. unfold OsPath.components. rewrite (split_join H). now apply truthy_entry_names.
Qed.

Lemma rev_ends_with_sep (a : str) :
  endswith a [OsPath.sep] = true -> exists r, a = r ++ [OsPath.sep].
Proof.
  unfold endswith. intro H. destruct (rev a) as [|c t] eqn:E; [discriminate|].
  cbn in H. apply andb_true_iff in H. destruct H as [H _]. apply N.eqb_eq in H. subst c.
  exists (rev t). rewrite <- (rev_involutive a), E. reflexivity.
Qed.

(** The components of a path below [a] are those of [a], then the
    entry names that were joined to it. *)
Lemma components_below (a n : str) (ns : list str) :
  Forall entry_name (n :: ns) ->
  OsPath.components (a ++ glue a ++ join [OsPath.sep] (n :: ns))
  = OsPath.components a ++ n :: ns.
Proof.
  intro H. unfold glue.
  destruct a as [|c a]; [cbn [is_empty orb app]; now apply components_join|].
  cbn [is_empty orb].
  destruct (endswith (c :: a) [OsPath.sep]) eqn:E.
  - apply rev_ends_with_sep in E. destruct E as (r & ->).
    cbn [app]. rewrite <- app_assoc. cbn [app].
    unfold OsPath.components.
    rewrite !split_app_sep, !filter_app, (split_join H), (truthy_entry_names H).
    cbn. now rewrite app_nil_r.
  - cbn [app]. change (c :: a ++ OsPath.sep :: join [OsPath.sep] (n :: ns))
      with ((c :: a) ++ OsPath.sep :: join [OsPath.sep] (n :: ns)).
    unfold OsPath.components.
    rewrite split_app_sep, filter_app, (split_join H), (truthy_entry_names H).
    reflexivity.
Qed.

Lemma common_prefix_len_app (r l : list str) :
  OsPath.common_prefix_len r (r ++ l) = length r.
Proof.
  induction r as [|x r IH]; [reflexivity|].
  cbn. now rewrite str_eqb_refl, IH.
Qed.

(** The relative path that [discover_files] records is the chain of
    directory names and the file name, whatever the root. *)
Lemma relpath_file_path (ds : list str) (f : file) :
  Forall entry_name ds -> entry_name (f_name f) ->
  OsPath.relpath (file_path root ds f) root = relative_path ds f.
Proof.
  intros Hds Hf.
  rewrite (@file_path_entries root ds f Hds Hf). unfold relative_path.
  assert (Hall : exists x xs, ds ++ [f_name f] = x :: xs /\ Forall entry_name (x :: xs)).
  { destruct ds as [|x l]; cbn [app].
    - exists (f_name f), []. split; [reflexivity | now constructor].
    - exists x, (l ++ [f_name f]). split; [reflexivity|].
      inversion Hds; subst. constructor; [assumption|].
      apply Forall_app. split; [assumption | now constructor]. }
  destruct Hall as (x & xs & -> & Hx).
  unfold OsPath.relpath.
  rewrite (components_below root Hx), common_prefix_len_app, Nat.sub_diag.
  cbn [repeat app].
  rewrite skipn_app, skipn_all, Nat.sub_diag. cbn [skipn app].
  destruct xs as [|y ys]; [reflexivity|].
  inversion Hx as [|? ? Hx1 Hxs]; subst.
  rewrite (join_all_entries x Hxs).
  rewrite <- (app_nil_l x) at 2. rewrite (glue_after_entry [] Hx1).
  reflexivity.
Qed.

Lemma separators_relative_path (ds : list str) (f : file) :
  Forall entry_name ds -> entry_name (f_name f) ->
  separators (relative_path ds f) = Z.of_nat (length ds).
Proof.
  intros Hds Hf. unfold separators, relative_path. f_equal.
  destruct ds as [|x l]; cbn [app].
  - apply (@count_sep_join (f_name f) []). now constructor.
  - rewrite count_sep_join, length_app; [cbn; lia|].
    inversion Hds; subst. constructor; [assumption|].
    apply Forall_app. split; [assumption | now constructor].
Qed.

(** Below a proper root the depth that the walk computes is the number
    of directories between the root and the directory visited. *)
Lemma depth_of_dir_path (ds : list str) :
  proper_root root -> Forall entry_name ds ->
  depth_of root (dir_path root ds) = Z.of_nat (length ds).
Proof.
  intros [Hne Hend] Hds. unfold depth_of, dir_path, slice_from, index_of.
  rewrite (proj2 (Z.leb_le 0 (Z.of_nat (length root)))) by lia.
  rewrite Nat2Z.id. f_equal.
  destruct ds as [|x l]; cbn [OsPath.join_all fold_left].
  - rewrite skipn_all. reflexivity.
  - change (fold_left OsPath.join2 l (OsPath.join2 root x))
      with (OsPath.join_all root (x :: l)).
    rewrite (join_all_entries root Hds).
    rewrite skipn_app, skipn_all, Nat.sub_diag. cbn [skipn app].
    unfold glue. rewrite Hne, Hend. cbn [orb app].
    unfold count_char. rewrite count_occ_cons_eq by reflexivity.
    cbn [length]. f_equal. exact (count_sep_join Hds).
Qed.

Lemma Forall_firstn (A : Type) (P : A -> Prop) (k : nat) (l : list A) :
  Forall P l -> Forall P (firstn k l).
Proof.
  intro H. revert k. induction H as [|x l Hx Hl IH]; intros [|k]; cbn; constructor; auto.
Qed.

Lemma visit_file_passes (ds : list str) (f : file) :
  passes_filters root exclude_tests ds f ->
  exists e, visit_file root exclude_tests (dir_path root ds) f = Some e.
Proof.
  intros (_ & Hlock & Hhidden & Htest & sz & Hstat & Hsz).
  unfold visit_file. rewrite Hlock, Hhidden. cbn [orb].
  unfold file_path in Htest. rewrite Htest, Hstat.
  replace (sz >? LARGE_FILE)%Z with false by lia.
  eexists. reflexivity.
Qed.

(** X22.  The depth rule below a proper root: no discovered file lies
    deeper than [max_depth] separators, and a file at exactly that depth
    that no other rule excludes is discovered. *)
Lemma depth_limit_below_proper_root (tree : dir) :
  proper_root root -> well_formed tree ->
  (forall e, In e (discover_files root tree max_depth exclude_tests) ->
             (separators (rel_path e) <= max_depth)%Z)
  /\ (forall ds f, file_at tree ds f ->
                   passes_filters root exclude_tests ds f ->
                   separators (relative_path ds f) = max_depth ->
                   exists e, In e (discover_files root tree max_depth exclude_tests)
                             /\ path e = file_path root ds f
                             /\ rel_path e = relative_path ds f).
Proof.
  intros Hroot Hwf. split.
  - intros e Hin. apply walk_provenance in Hin.
    destruct Hin as (ds & f & Hat & _ & Hdepth & Hvisit).
    destruct (file_at_entry_names Hwf Hat) as [Hds Hf].
    apply visit_file_Some in Hvisit.
    destruct Hvisit as (_ & _ & _ & _ & Hrel & _).
    change (OsPath.join2 (dir_path root ds) (f_name f)) with (file_path root ds f) in Hrel.
    rewrite Hrel, (@relpath_file_path ds f Hds Hf), (@separators_relative_path ds f Hds Hf).
    now rewrite (@depth_of_dir_path ds Hroot Hds) in Hdepth.
  - intros ds f Hat Hpass Hsep.
    destruct (file_at_entry_names Hwf Hat) as [Hds Hf].
    rewrite (@separators_relative_path ds f Hds Hf) in Hsep.
    destruct (@visit_file_passes ds f Hpass) as (e & Hvisit).
    exists e. split; [|split].
    + eapply walk_complete; eauto; [apply Hpass|].
      intros k Hk. rewrite depth_of_dir_path; auto.
      * rewrite length_firstn. lia.
      * now apply Forall_firstn.
    + apply visit_file_Some in Hvisit. now destruct Hvisit as (_ & _ & _ & -> & _).
    + apply visit_file_Some in Hvisit. destruct Hvisit as (_ & _ & _ & _ & -> & _).
      exact (@relpath_file_path ds f Hds Hf).
Qed.

End Discovery.

(* ------------------------------------------------------------------ *)
(** ** Opening a file by its path *)

Section Opening.

Variable root : str.

Lemma all_files_Dir (dirpath : str) (files : list file) (subdirs : list (str * dir)) :
  all_files dirpath (Dir files subdirs)
  = map (fun f => (OsPath.join2 dirpath (f_name f), f)) files
    ++ flat_map (fun nd => all_files (OsPath.join2 dirpath (fst nd)) (snd nd)) subdirs.
Proof.
  cbn [all_files]. f_equal.
  induction subdirs as [|[name sub] rest IH]; [reflexivity|].
  cbn [flat_map fst snd]. now rewrite <- IH.
Qed.

Lemma all_files_provenance (d : dir) :
  forall (dirpath p : str) (g : file),
    In (p, g) (all_files dirpath d) ->
    exists ds, file_at d ds g /\ p = OsPath.join2 (dir_path dirpath ds) (f_name g).
Proof.
  induction d as [files subdirs IH] using dir_induction.
  intros dirpath p g. rewrite all_files_Dir, in_app_iff, in_map_iff, in_flat_map.
  intros [(f & [= <- <-] & Hf) | ([name sub] & Hsub & Hin)].
  - exists []. split; [now constructor | reflexivity].
  - rewrite Forall_forall in IH. cbn [fst snd] in Hin.
    destruct (IH sub (in_map snd _ _ Hsub) _ _ _ Hin) as (ds & Hat & ->).
    exists (name :: ds). split; [eapply file_below; eauto | reflexivity].
Qed.

Lemma all_files_complete (d : dir) (ds : list str) (f : file) :
  file_at d ds f ->
  forall dirpath,
    In (OsPath.join2 (dir_path dirpath ds) (f_name f), f) (all_files dirpath d).
Proof.
  induction 1 as [files subdirs f Hf | files subdirs name sub ds f Hsub Hat IH];
    intro dirpath; rewrite all_files_Dir, in_app_iff.
  - left. apply in_map_iff. exists f. split; [reflexivity | exact Hf].
  - right. apply in_flat_map. exists (name, sub). split; [exact Hsub | apply IH].
Qed.

(** In a well-formed tree a path opens the file that lies there. *)
Lemma open_file_at (tree : dir) (ds : list str) (f : file) :
  well_formed tree -> file_at tree ds f ->
  open_ root tree (file_path root ds f) = Some f.
Proof.
  intros Hwf Hat. unfold open_.
  destruct (find (fun pf => str_eqb (fst pf) (file_path root ds f)) (all_files root tree))
    as [[p g]|] eqn:E.
  - apply find_some in E. destruct E as [Hin Hp]. cbn [fst] in Hp.
    apply str_eqb_eq in Hp. subst p.
    apply all_files_provenance in Hin. destruct Hin as (ds' & Hat' & Hpath).
    destruct (file_at_entry_names Hwf Hat) as [Hds Hf].
    destruct (file_at_entry_names Hwf Hat') as [Hds' Hf'].
    apply file_path_inj in Hpath; auto. destruct Hpath as [-> Hname].
    cbn [option_map snd]. f_equal. eapply file_at_unique; eauto.
  - exfalso. pose proof (all_files_complete Hat root) as Hin.
    apply (find_none _ _ E) in Hin. cbn [fst] in Hin.
    unfold file_path in Hin. now rewrite str_eqb_refl in Hin.
Qed.

(** Every discovered entry opens the file it was made of. *)
Lemma discovered_entry_opens (tree : dir) (max_depth : Z) (exclude_tests : bool)
      (e : FileEntry) :
  well_formed tree ->
  In e (discover_files root tree max_depth exclude_tests) ->
  exists ds f, file_at tree ds f
               /\ path e = file_path root ds f
               /\ open_ root tree (path e) = Some f.
Proof.
  intros Hwf Hin. apply walk_provenance in Hin.
  destruct Hin as (ds & f & Hat & _ & _ & Hvisit).
  apply visit_file_Some in Hvisit.
  destruct Hvisit as (_ & _ & _ & Hpath & _).
  exists ds, f. split; [exact Hat|]. split; [exact Hpath|].
  rewrite Hpath. now apply open_file_at.
Qed.

End Opening.

(* ------------------------------------------------------------------ *)
(** ** Loops that may raise *)

Section Loops.

Variables (A B : Type) (body : A -> option (list B)).

Lemma gather_app (l1 l2 : list A) :
  gather body (l1 ++ l2)
  = match gather body l1, gather body l2 with
    | Some a, Some b => Some (a ++ b)
    | _, _ => None
    end.
Proof.
  induction l1 as [|x l1 IH]; cbn [app gather].
  - now destruct (gather body l2).
  - destruct (body x) as [found|]; [|reflexivity]. rewrite IH.
    destruct (gather body l1); [|reflexivity].
    destruct (gather body l2); [|reflexivity].
    now rewrite app_assoc.
Qed.

(** An iteration that appends nothing can be left out. *)
Lemma gather_skip (l1 l2 : list A) (x : A) :
  body x = Some [] -> gather body (l1 ++ x :: l2) = gather body (l1 ++ l2).
Proof.
  intro Hx. rewrite !gather_app. cbn [gather]. rewrite Hx.
  now destruct (gather body l2).
Qed.

Lemma in_gather (l : list A) (r : list B) (b : B) :
  gather body l = Some r ->
  In b r <-> exists x found, In x l /\ body x = Some found /\ In b found.
Proof.
  revert r. induction l as [|x l IH]; intros r H; cbn [gather] in H.
  - injection H as <-. split; [intros [] | intros (? & ? & [] & _)].
  - destruct (body x) as [found|] eqn:Hx; [|discriminate].
    destruct (gather body l) as [more|]; [|discriminate].
    injection H as <-. rewrite in_app_iff, (IH more eq_refl). split.
    + intros [Hb|(y & v & Hy & Hv & Hb)].
      * exists x, found. split; [now left | auto].
      * exists y, v. split; [now right | auto].
    + intros (y & v & [<-|Hy] & Hv & Hb).
      * left. congruence.
      * right. exists y, v. auto.
Qed.


End Loops.

(* ------------------------------------------------------------------ *)
(** ** The two renderers *)

Section Pipeline.

Local Open Scope nat_scope.

Variable unparse : expr -> option str.
Variables (root : str) (tree : dir) (git : churn_source).
Variables (max_depth : Z) (include_private exclude_tests : bool).


Lemma ranked_entries_keep (e : FileEntry) :
  In e (discover_files root tree max_depth exclude_tests) ->
  exists s, In s (sorted importance_leb
                    (_score_importance (discover_files root tree max_depth exclude_tests) git))
            /\ path s = path e /\ rel_path s = rel_path e.
Proof.
  intro Hin. eexists. rewrite in_sorted, score_importance_map, in_map_iff.
  split; [exists e; split; [reflexivity | exact Hin] | split; reflexivity].
Qed.


Lemma in_json_apis (entries : list FileEntry) (apis : list ModuleAPI) (a : ModuleAPI) :
  json_apis unparse root tree include_private entries = Some apis ->
  In a apis ->
  exists e api, In e entries
                /\ endswith (rel_path e) (py ".py") = true
                /\ extract_python_api unparse root tree (path e) include_private
                   = Some (Some api)
                /\ a = mk_ModuleAPI (rel_path e) (api_docstring api) (api_functions api)
                         (api_classes api) (api_imports api) (api_exports api).
Proof.
  intros Hapis Ha. apply (proj1 (@in_gather _ _ _ _ _ a Hapis)) in Ha.
  destruct Ha as (e & found & Hin & Hfound & Ha). unfold json_api_of in Hfound.
  destruct (endswith (rel_path e) (py ".py")) eqn:Hpy;
    [|injection Hfound as <-; destruct Ha].
  destruct (extract_python_api unparse root tree (path e) include_private) as [[api|]|] eqn:E;
    [|injection Hfound as <-; destruct Ha|discriminate].
  injection Hfound as <-. destruct Ha as [<-|[]]. exists e, api. auto.
Qed.

Lemma has_api_fields (a : ModuleAPI) (rel : str) :
  has_api (mk_ModuleAPI rel (api_docstring a) (api_functions a) (api_classes a)
             (api_imports a) (api_exports a)) = has_api a.
Proof. reflexivity. Qed.

(** C10.  A parseable file without module-level functions and classes
    leaves no trace in the API section, in the [api] array or in the
    dependency digest: all of them are what the other files alone give. *)
Theorem apiless_module_is_omitted (entries : list FileEntry) (e : FileEntry) (api : ModuleAPI) :
  In e entries ->
  extract_python_api unparse root tree (path e) include_private = Some (Some api) ->
  api_functions api = [] ->
  api_classes api = [] ->
  exists before after,
    entries = before ++ e :: after
    /\ map_apis unparse root tree include_private entries
       = map_apis unparse root tree include_private (before ++ after)
    /\ option_map _format_api (map_apis unparse root tree include_private entries)
       = option_map _format_api
           (map_apis unparse root tree include_private (before ++ after))
    /\ option_map import_counts (map_apis unparse root tree include_private entries)
       = option_map import_counts
           (map_apis unparse root tree include_private (before ++ after))
    /\ option_map _format_deps (map_apis unparse root tree include_private entries)
       = option_map _format_deps
           (map_apis unparse root tree include_private (before ++ after))
    /\ option_map json_api_array (json_apis unparse root tree include_private entries)
       = option_map json_api_array
           (json_apis unparse root tree include_private (before ++ after)).
Proof.
  intros Hin Hext Hfun Hcls.
  destruct (in_split _ _ Hin) as (before & after & ->).
  exists before, after.
  assert (Hno : has_api api = false) by (unfold has_api; now rewrite Hfun, Hcls).
  assert (Hmap : map_apis unparse root tree include_private (before ++ e :: after)
                 = map_apis unparse root tree include_private (before ++ after)).
  { unfold map_apis. apply gather_skip. unfold map_api_of.
    rewrite Hext, Hno. now destruct (endswith (rel_path e) (py ".py")). }
  split; [reflexivity|]. split; [exact Hmap|].
  rewrite Hmap. repeat (split; [reflexivity|]).
  unfold json_apis. rewrite !gather_app. cbn [gather].
  destruct (gather (json_api_of unparse root tree include_private) before) as [b|];
    [|reflexivity].
  destruct (gather (json_api_of unparse root tree include_private) after) as [a|];
    [|now destruct (json_api_of unparse root tree include_private e)].
  unfold json_api_of. rewrite Hext.
  destruct (endswith (rel_path e) (py ".py")); cbn [option_map]; [|reflexivity].
  unfold json_api_array. rewrite !filter_app. cbn [filter app].
  rewrite has_api_fields, Hno. reflexivity.
Qed.

End Pipeline.

(* ------------------------------------------------------------------ *)
(** ** The token budget *)

Section Budget.

Local Open Scope Z_scope.

Lemma length_slice_to (s : str) (n : Z) : 0 <= n -> Z.of_nat (length (slice_to s n)) <= n.
Proof.
  intro Hn. unfold slice_to, index_of.
  rewrite (proj2 (Z.leb_le 0 n) Hn), length_firstn. lia.
Qed.

(** With a positive budget and a Public API section among the sections,
    the output stays within four characters per token, plus the marker. *)
Lemma trim_to_budget_bound (sections : list str) (budget : Z) :
  0 < budget ->
  existsb (fun section => startswith section (py "## Public API")) sections = true ->
  Z.of_nat (length (trim_to_budget sections (join [newline] sections) (Some budget)))
  <= 4 * budget + Z.of_nat (length TRUNCATION_MARKER).
Proof.
  intros Hpos Hapi. unfold trim_to_budget, CHARS_PER_TOKEN. rewrite Hapi.
  set (output := join [newline] sections).
  destruct (Z.eqb_spec budget 0) as [|_]; [lia|].
  destruct (Z.gtb_spec (Z.of_nat (length output) / 4) budget) as [Hest|Hest].
  - destruct (Z.gtb_spec (Z.of_nat (length output)) (budget * 4)) as [Hlen|Hlen].
    + rewrite length_app, Nat2Z.inj_add.
      pose proof (@length_slice_to output (budget * 4)). lia.
    + lia.
  - assert (Hmark : Z.of_nat (length TRUNCATION_MARKER) = 37) by reflexivity.
    pose proof (Z.mul_succ_div_gt (Z.of_nat (length output)) 4). lia.
Qed.

End Budget.

(* ------------------------------------------------------------------ *)
(** ** The properties at work on the example project *)

Section Examples.

Local Open Scope nat_scope.

(** Membership in a list that is computed first. *)
Ltac in_computed := vm_compute; repeat (try (left; reflexivity); right).

(** Well-formedness of a concrete tree, rule by rule. *)
Ltac concrete_tree :=
  repeat first
    [ apply wf_Dir; cbn [map f_name fst snd]
    | apply Forall_nil
    | apply Forall_cons
    | apply NoDup_nil
    | apply NoDup_cons
    | split; [discriminate | cbn [In]; intuition discriminate]
    | cbn [In]; intuition discriminate ].

Lemma demo_discovery :
  discover_files Demo.root Demo.tree 10 false
  = [Demo.broken_entry; Demo.consts_entry; Demo.main_entry; Demo.notes_entry;
     Demo.index_entry].
Proof. vm_compute. reflexivity. Qed.

Lemma demo_well_formed : well_formed Demo.tree.
Proof. vm_compute. concrete_tree. Qed.

Lemma demo_lines_counted :
  Forall lines_counted (discover_files Demo.root Demo.tree 10 false).
Proof. rewrite demo_discovery. repeat constructor; discriminate. Qed.

(** The scores of the example project lie in [0,1]. *)
Lemma importance_in_unit_interval_witness :
  Forall lines_counted (discover_files Demo.root Demo.tree 10 false)
  /\ Forall in_unit_interval
       (_score_importance (discover_files Demo.root Demo.tree 10 false) Demo.git_log).
Proof.
  split; [exact demo_lines_counted|].
  exact (@importance_in_unit_interval _ Demo.git_log demo_lines_counted).
Defined.

(** [main.py] scores higher with its entrypoint flag than without. *)
Lemma entrypoint_scores_strictly_higher_witness :
  Forall lines_counted Demo.flag_pair
  /\ nth_error Demo.flag_pair 0 = Some Demo.main_entry
  /\ nth_error Demo.flag_pair 1 = Some Demo.main_unflagged
  /\ same_but_entrypoint Demo.main_entry Demo.main_unflagged
  /\ exists s1 s2,
       nth_error (_score_importance Demo.flag_pair Demo.git_log) 0 = Some s1
       /\ nth_error (_score_importance Demo.flag_pair Demo.git_log) 1 = Some s2
       /\ (importance s2 < importance s1)%Q.
Proof.
  assert (Hlines : Forall lines_counted Demo.flag_pair)
    by (repeat constructor; discriminate).
  assert (Hsame : same_but_entrypoint Demo.main_entry Demo.main_unflagged)
    by (repeat split; reflexivity).
  repeat split; try assumption; try reflexivity.
  exact (@entrypoint_scores_strictly_higher Demo.flag_pair Demo.git_log 0 1
           Demo.main_entry Demo.main_unflagged Hlines eq_refl eq_refl Hsame).
Defined.


(** The parameters of [run] of the example. *)
Lemma format_params_by_name_witness :
  posonlyargs Demo.run_arguments = []
  /\ length (defaults Demo.run_arguments) <= length (args Demo.run_arguments)
  /\ _format_params Demo.unparse Demo.run_arguments
     = py "x: int, y = d, *rest, k: str, **kw".
Proof.
  split; [reflexivity|]. split; [cbn; lia|].
  rewrite (@format_params_by_name Demo.unparse Demo.run_arguments eq_refl);
    [reflexivity | cbn; lia].
Defined.

(** C6 as stated fails.  At module level [def f(self, x)] is rendered
    as [x], where the specification keeps [self, x]; in a method
    [def m(x, self)] is rendered as [x], where the specification drops a
    first parameter only and keeps [x, self]. *)
Lemma params_claim_fails_on_self :
  (_format_params Demo.unparse Demo.self_x_arguments = py "x"
   /\ params_as_claimed Demo.unparse false Demo.self_x_arguments = py "self, x"
   /\ _format_params Demo.unparse Demo.self_x_arguments
      <> params_as_claimed Demo.unparse false Demo.self_x_arguments)
  /\ (_format_params Demo.unparse Demo.x_self_arguments = py "x"
      /\ params_as_claimed Demo.unparse true Demo.x_self_arguments = py "x, self"
      /\ _format_params Demo.unparse Demo.x_self_arguments
         <> params_as_claimed Demo.unparse true Demo.x_self_arguments).
Proof.
  split; (split; [reflexivity|]; split; [reflexivity|]; vm_compute; discriminate).
Qed.

(** Positional-only parameters are not read at all: [def f(a, /, b)] is
    rendered as [b]. *)
Lemma positional_only_not_rendered :
  _format_params Demo.unparse
    (mk_arguments [mk_arg (py "a") None] [mk_arg (py "b") None] None [] [] None [])
  = py "b".
Proof. reflexivity. Qed.

(** [notes.xyz] starts with a comment and is listed without it. *)
Lemma no_language_no_description_witness :
  In Demo.notes_entry (discover_files Demo.root Demo.tree 10 false)
  /\ language Demo.notes_entry = []
  /\ _get_description Demo.notes_xyz = py "note"
  /\ description Demo.notes_entry = [].
Proof.
  assert (Hin : In Demo.notes_entry (discover_files Demo.root Demo.tree 10 false))
    by in_computed.
  split; [exact Hin|]. split; [reflexivity|]. split; [reflexivity|].
  exact (@no_language_no_description Demo.root 10%Z false Demo.tree Demo.notes_entry
           Hin eq_refl).
Defined.

(** The four files of the example that the rules exclude. *)
Lemma filtered_files_never_appear_witness :
  well_formed Demo.tree
  /\ (file_at Demo.tree [] Demo.hidden_file /\ hidden (f_name Demo.hidden_file))
  /\ (file_at Demo.tree [] Demo.lock /\ lock_file (f_name Demo.lock))
  /\ (file_at Demo.tree [py "__pycache__"] Demo.cached
      /\ Exists excluded_dir [py "__pycache__"])
  /\ (file_at Demo.tree [] Demo.big_file /\ too_large Demo.big_file)
  /\ ~ appears (py "/home/p/.env") (discover_files Demo.root Demo.tree 10 false)
  /\ ~ appears (py "/home/p/yarn.lock") (discover_files Demo.root Demo.tree 10 false)
  /\ ~ appears (py "/home/p/__pycache__/main.pyc")
       (discover_files Demo.root Demo.tree 10 false)
  /\ ~ appears (py "/home/p/dump.sql") (discover_files Demo.root Demo.tree 10 false).
Proof.
  assert (H1 : file_at Demo.tree [] Demo.hidden_file) by (constructor; in_computed).
  assert (H2 : file_at Demo.tree [] Demo.lock) by (constructor; in_computed).
  assert (H3 : file_at Demo.tree [py "__pycache__"] Demo.cached).
  { apply file_below with (sub := Dir [Demo.cached] []); [in_computed|].
    constructor. now left. }
  assert (H4 : file_at Demo.tree [] Demo.big_file) by (constructor; in_computed).
  assert (E3 : Exists excluded_dir [py "__pycache__"]) by (left; left; reflexivity).
  assert (E4 : too_large Demo.big_file) by (exists 2000000%Z; split; reflexivity).
  split; [exact demo_well_formed|].
  split; [split; [exact H1 | reflexivity]|].
  split; [split; [exact H2 | reflexivity]|].
  split; [split; [exact H3 | exact E3]|].
  split; [split; [exact H4 | exact E4]|].
  split; [|split; [|split]].
  - exact (@filtered_files_never_appear Demo.root 10%Z false _ _ _ demo_well_formed H1
             (or_introl eq_refl)).
  - exact (@filtered_files_never_appear Demo.root 10%Z false _ _ _ demo_well_formed H2
             (or_intror (or_introl eq_refl))).
  - exact (@filtered_files_never_appear Demo.root 10%Z false _ _ _ demo_well_formed H3
             (or_intror (or_intror (or_introl E3)))).
  - exact (@filtered_files_never_appear Demo.root 10%Z false _ _ _ demo_well_formed H4
             (or_intror (or_intror (or_intror E4)))).
Defined.

(** [consts.py] of the example: an import and an export list only. *)
Lemma apiless_module_is_omitted_witness :
  In Demo.consts_entry (discover_files Demo.root Demo.tree 10 false)
  /\ extract_python_api Demo.unparse Demo.root Demo.tree (path Demo.consts_entry) false
     = Some (Some (extract_module Demo.unparse (py "consts.py") Demo.consts_module false))
  /\ api_imports (extract_module Demo.unparse (py "consts.py") Demo.consts_module false)
     = [py "numpy"]
  /\ exists before after,
       discover_files Demo.root Demo.tree 10 false = before ++ Demo.consts_entry :: after
       /\ option_map import_counts
            (map_apis Demo.unparse Demo.root Demo.tree false
               (discover_files Demo.root Demo.tree 10 false))
          = option_map import_counts
              (map_apis Demo.unparse Demo.root Demo.tree false (before ++ after))
       /\ option_map json_api_array
            (json_apis Demo.unparse Demo.root Demo.tree false
               (discover_files Demo.root Demo.tree 10 false))
          = option_map json_api_array
              (json_apis Demo.unparse Demo.root Demo.tree false (before ++ after)).
Proof.
  assert (Hin : In Demo.consts_entry (discover_files Demo.root Demo.tree 10 false))
    by in_computed.
  split; [exact Hin|]. split; [reflexivity|]. split; [reflexivity|].
  destruct (@apiless_module_is_omitted Demo.unparse Demo.root Demo.tree false
              (discover_files Demo.root Demo.tree 10 false) Demo.consts_entry
              (extract_module Demo.unparse (py "consts.py") Demo.consts_module false)
              Hin eq_refl eq_refl eq_refl)
    as (before & after & Hsplit & _ & _ & Hcounts & _ & Hjson).
  exists before, after. auto.
Defined.

(** C1 on the code: a project without Python code is never trimmed.
    With a budget of 5 tokens the output of the one-file project keeps
    its 187 characters, more than 4 * 5 plus the marker. *)
Lemma budget_ignored_without_api_section :
  exists out,
    generate_map Demo.unparse Demo.root Demo.notes_only None 10 false (Some 5%Z) false
    = Some out
    /\ (Z.of_nat (length out) / CHARS_PER_TOKEN > 5)%Z
    /\ (Z.of_nat (length out) > 4 * 5 + Z.of_nat (length TRUNCATION_MARKER))%Z.
Proof.
  eexists. split; [vm_compute; reflexivity|]. split; reflexivity.
Qed.

(** C7 on the code: a parse failure other than [SyntaxError] is fatal.
    [nul.py] holds a NUL byte, [ast.parse] raises [ValueError] on it,
    [extract_python_api] does not catch that, and both renderers raise
    where the specification lists the file without an API. *)
Lemma parse_error_aborts_the_run :
  In Demo.nul_entry (discover_files Demo.root Demo.nul_tree 10 false)
  /\ open_ Demo.root Demo.nul_tree (path Demo.nul_entry) = Some Demo.nul_py
  /\ f_ast Demo.nul_py = Fails ValueError
  /\ extract_python_api Demo.unparse Demo.root Demo.nul_tree (path Demo.nul_entry) false
     = None
  /\ generate_json Demo.unparse Demo.root Demo.nul_tree None 10 false false = None
  /\ generate_map Demo.unparse Demo.root Demo.nul_tree None 10 false None false = None.
Proof.
  split; [in_computed|]. split; [reflexivity|]. split; [reflexivity|].
  split; [reflexivity|]. split; vm_compute; reflexivity.
Qed.

(** C3 on the code: below the root of the file system the depth test is
    one level late.  With a maximum depth of 0, [usr/x] is discovered. *)
Lemma depth_limit_late_at_filesystem_root :
  exists e,
    In e (discover_files Demo.fs_root Demo.usr_tree 0 false)
    /\ rel_path e = py "usr/x"
    /\ (separators (rel_path e) > 0)%Z.
Proof.
  eexists. split; [vm_compute; left; reflexivity|]. split; reflexivity.
Qed.

End Examples.

(* ================================================================== *)
(** * Further properties of the code *)

Unset Implicit Arguments.

(* ------------------------------------------------------------------ *)
(** ** Sorting *)

Section SortingFacts.

Variable A : Type.
Variable leb : A -> A -> bool.

Lemma insert_sorted_perm (x : A) (l : list A) :
  Permutation (insert_sorted leb x l) (x :: l).
Proof.
  induction l as [|y l IH]; cbn [insert_sorted]; [apply Permutation_refl|].
  destruct (leb x y); [apply Permutation_refl|].
  eapply Permutation_trans; [apply perm_skip, IH | apply perm_swap].
Qed.

(** [sorted] rearranges its argument. *)
Lemma sorted_perm (l : list A) : Permutation (sorted leb l) l.
Proof.
  induction l as [|x l IH]; cbn [sorted]; [apply Permutation_refl|].
  eapply Permutation_trans; [apply insert_sorted_perm | apply perm_skip, IH].
Qed.

Hypothesis leb_total : forall x y, leb x y = true \/ leb y x = true.

Lemma insert_sorted_Sorted (x : A) (l : list A) :
  Sorted (fun a b => leb a b = true) l ->
  Sorted (fun a b => leb a b = true) (insert_sorted leb x l).
Proof.
  induction 1 as [|y l Hl IH Hy]; cbn [insert_sorted].
  - repeat constructor.
  - destruct (leb x y) eqn:E.
    + constructor; [constructor; assumption | constructor; exact E].
    + constructor; [exact IH|].
      assert (Hyx : leb y x = true) by (destruct (leb_total x y); congruence).
      destruct Hy as [|z l' Hz]; cbn [insert_sorted].
      * constructor. exact Hyx.
      * destruct (leb x z); constructor; assumption.
Qed.

(** For a total order, [sorted] returns a sorted list. *)
Lemma sorted_Sorted (l : list A) : Sorted (fun a b => leb a b = true) (sorted leb l).
Proof.
  induction l as [|x l IH]; cbn [sorted]; [constructor|].
  apply insert_sorted_Sorted, IH.
Qed.

End SortingFacts.

(* ------------------------------------------------------------------ *)
(** ** Strings *)

Section StringFacts.

Local Open Scope nat_scope.

Lemma str_leb_total (a b : str) : str_leb a b = true \/ str_leb b a = true.
Proof.
  revert b. induction a as [|x a IH]; intros [|y b]; cbn [str_leb]; auto.
  destruct (N.ltb_spec x y) as [Hxy|Hxy]; [now left|].
  destruct (N.ltb_spec y x) as [Hyx|Hyx]; [now right|].
  assert (x = y) by lia. subst y. rewrite N.eqb_refl. apply IH.
Qed.

Lemma in_firstn (A : Type) (n : nat) (l : list A) (x : A) : In x (firstn n l) -> In x l.
Proof.
  intro H. rewrite <- (firstn_skipn n l). apply in_or_app. now left.
Qed.

Lemma in_dropwhile (f : char -> bool) (s : str) (x : char) :
  In x (dropwhile f s) -> In x s.
Proof.
  induction s as [|c s IH]; cbn [dropwhile]; [tauto|].
  destruct (f c); [intro H; right; auto | tauto].
Qed.

(** Stripping only removes characters. *)
Lemma in_strip_by (f : char -> bool) (s : str) (x : char) :
  In x (strip_by f s) -> In x s.
Proof.
  unfold strip_by, rstrip_by, lstrip_by. intro H.
  apply in_rev, in_dropwhile, in_rev in H. now apply in_dropwhile in H.
Qed.

(** No part of a split holds the separator. *)
Lemma split_parts_free (c : char) (s w : str) : In w (split c s) -> ~ In c w.
Proof.
  revert w. induction s as [|x s IH]; cbn [split]; intros w Hw.
  - destruct Hw as [<-|[]]. tauto.
  - destruct (N.eqb_spec x c) as [->|Hx].
    + destruct Hw as [<-|Hw]; [tauto | now apply IH].
    + destruct (split c s) as [|v vs] eqn:E.
      * destruct Hw as [<-|[]]. intros [H|[]]. congruence.
      * destruct Hw as [<-|Hw].
        -- intros [H|H]; [congruence|]. apply (IH v); [now left | exact H].
        -- apply IH. now right.
Qed.

Lemma hd_split_free (c : char) (s : str) : ~ In c (hd [] (split c s)).
Proof.
  destruct (split c s) as [|w ws] eqn:E; [cbn; tauto|].
  apply (@split_parts_free c s). rewrite E. now left.
Qed.

Lemma dedup_NoDup (l : list str) : NoDup (dedup l).
Proof.
  induction l as [|x l IH]; cbn [dedup]; [constructor|].
  destruct (mem x l) eqn:E; [exact IH|].
  constructor; [|exact IH].
  intro H. assert (Hin : In x l).
  { clear - H. induction l as [|y l IH]; cbn [dedup] in H; [exact H|].
    destruct (mem y l) eqn:E; [right; auto|].
    destruct H as [->|H]; [now left | right; auto]. }
  unfold mem in E. assert (existsb (str_eqb x) l = true); [|congruence].
  apply existsb_exists. exists x. split; [exact Hin | apply str_eqb_refl].
Qed.

Lemma in_dedup (l : list str) (x : str) : In x (dedup l) -> In x l.
Proof.
  induction l as [|y l IH]; cbn [dedup]; [tauto|].
  destruct (mem y l); [right; auto|].
  intros [->|H]; [now left | right; auto].
Qed.

End StringFacts.

(* ------------------------------------------------------------------ *)
(** ** Descriptions and documentation lines *)

Section Summaries.

Local Open Scope nat_scope.

Lemma description_after_quotes_short (rest : list str) :
  length (description_after_quotes rest) <= 120.
Proof.
  induction rest as [|l rest IH]; cbn [description_after_quotes]; [cbn; lia|].
  destruct (truthy (strip l)); [apply firstn_le_length | exact IH].
Qed.

Lemma description_of_lines_short (ls : list str) :
  length (description_of_lines ls) <= 120.
Proof.
  induction ls as [|l ls IH]; cbn [description_of_lines]; [cbn; lia|].
  destruct (is_empty (strip l) || startswith (strip l) (py "#!")); [exact IH|].
  destruct (startswith (strip l) [dquote; dquote; dquote] || startswith (strip l) (py "'''")).
  - destruct (truthy (strip_chars (strip l) quote_chars));
      [apply firstn_le_length | apply description_after_quotes_short].
  - destruct (startswith (strip l) (py "#")); [apply firstn_le_length|].
    destruct (startswith (strip l) (py "//")); [apply firstn_le_length | cbn; lia].
Qed.

(** X1.  Whatever a file holds, and also when it cannot be read, its
    one-line description has at most 120 characters. *)
Theorem description_at_most_120 (f : file) : length (_get_description f) <= 120.
Proof.
  unfold _get_description. destruct (f_text f) as [t|]; [|cbn; lia].
  apply description_of_lines_short.
Qed.

(** X2.  The documentation line of a module, function or class has at
    most 120 characters and no line break. *)
Theorem docstring_line_short_and_single (body : list stmt) :
  length (_first_docstring_line body) <= 120
  /\ ~ In newline (_first_docstring_line body).
Proof.
  unfold _first_docstring_line.
  destruct body as [|[ | | | | | |[ |[v|]| | | ]| ] body];
    try (split; [cbn; lia | cbn; tauto]).
  split; [apply firstn_le_length|].
  intro H. apply in_firstn, in_strip_by in H.
  exact (hd_split_free _ _ H).
Qed.

End Summaries.

(* ------------------------------------------------------------------ *)
(** ** What the extraction lists *)

Section Listing.

Local Open Scope nat_scope.

Variable unparse : expr -> option str.
Variable include_private : bool.

Lemma function_of_stmt_name (node : stmt) :
  match function_of_stmt unparse include_private node with
  | Some s => [fs_name s]
  | None => []
  end
  = filter (visible include_private)
      (match as_funcdef node with Some fd => [fd_name fd] | None => [] end).
Proof.
  unfold function_of_stmt, visible.
  destruct (as_funcdef node) as [fd|]; [|reflexivity].
  cbn [filter]. destruct include_private; cbn [negb andb orb]; [reflexivity|].
  now destruct (startswith (fd_name fd) (py "_")).
Qed.

Lemma function_names_listed (body : list stmt) :
  map fs_name (keep_some (map (function_of_stmt unparse include_private) body))
  = filter (visible include_private) (function_names body).
Proof.
  unfold function_names.
  induction body as [|node body IH]; [reflexivity|].
  cbn [map keep_some flat_map]. rewrite filter_app, <- IH, <- function_of_stmt_name.
  now destruct (function_of_stmt unparse include_private node).
Qed.

(** The loop over the body of a class: what it keeps of the class
    record, and the methods it appends. *)
Lemma class_member_fold (name : str) (body : list stmt) (cls : ClassSig) :
  let cls' := fold_left (class_member unparse include_private name) body cls in
  cs_name cls' = cs_name cls
  /\ map fs_name (cs_methods cls')
     = map fs_name (cs_methods cls)
       ++ filter (listed_method include_private) (function_names body)
  /\ (Forall (fun m => fs_class_name m = name) (cs_methods cls) ->
      Forall (fun m => fs_class_name m = name) (cs_methods cls')).
Proof.
  revert cls. induction body as [|child body IH]; intro cls; cbn zeta.
  - cbn. rewrite app_nil_r. auto.
  - cbn [fold_left]. destruct (IH (class_member unparse include_private name cls child))
      as (IHn & IHm & IHt).
    rewrite IHn, IHm. clear IHn IHm.
    unfold function_names. cbn [flat_map]. rewrite filter_app.
    unfold class_member, listed_method, visible in *.
    destruct (as_funcdef child) as [fd|]; [|cbn; auto].
    cbn [filter]. destruct (str_eqb (fd_name fd) (py "__init__")); cbn [negb andb];
      [cbn; auto|].
    destruct include_private; cbn [negb andb orb] in *.
    + cbn [cs_name cs_methods]. rewrite map_app, <- app_assoc. cbn.
      repeat split; auto. intro H. apply IHt, Forall_app. split; [exact H|].
      repeat constructor.
    + destruct (startswith (fd_name fd) (py "_")); cbn [negb]; [cbn; auto|].
      cbn [cs_name cs_methods]. rewrite map_app, <- app_assoc. cbn.
      repeat split; auto. intro H. apply IHt, Forall_app. split; [exact H|].
      repeat constructor.
Qed.

Lemma class_of_stmt_name (node : stmt) :
  match class_of_stmt unparse include_private node with
  | Some c => [cs_name c]
  | None => []
  end
  = filter (visible include_private)
      (match node with ClassDef name _ _ => [name] | _ => [] end).
Proof.
  destruct node as [| |name bases body| | | | |]; try reflexivity.
  assert (Hv : visible include_private name
               = negb (negb include_private && startswith name (py "_")))
    by (unfold visible; destruct include_private, (startswith name (py "_")); reflexivity).
  unfold class_of_stmt. cbn [filter]. rewrite Hv.
  destruct (negb include_private && startswith name (py "_")); cbn [negb]; [reflexivity|].
  now rewrite (proj1 (class_member_fold name body _)).
Qed.

Lemma class_names_listed (body : list stmt) :
  map cs_name (keep_some (map (class_of_stmt unparse include_private) body))
  = filter (visible include_private) (class_names body).
Proof.
  unfold class_names.
  induction body as [|node body IH]; [reflexivity|].
  cbn [map keep_some flat_map]. rewrite filter_app, <- IH, <- class_of_stmt_name.
  now destruct (class_of_stmt unparse include_private node).
Qed.

Variables (root : str) (tree : dir) (filepath : str).

(** What [extract_python_api] returns is extracted from the syntax tree
    of the file at the path. *)
Lemma extract_python_api_Some (api : ModuleAPI) :
  extract_python_api unparse root tree filepath include_private = Some (Some api) ->
  exists f body,
    open_ root tree filepath = Some f
    /\ f_ast f = Parsed (Module_ body)
    /\ api = extract_module unparse (OsPath.basename filepath) (Module_ body) include_private.
Proof.
  unfold extract_python_api.
  destruct (open_ root tree filepath) as [f|]; [|discriminate].
  destruct (f_text f); [|discriminate].
  destruct (f_ast f) as [[body]|[| |]] eqn:Hast; try discriminate.
  intros [= <-]. exists f, body. split; [reflexivity|]. split; [exact Hast | reflexivity].
Qed.

(** X3.  The functions and classes of a module API are the module-level
    definitions of the file that the visibility convention lets through,
    in source order: all of them with the include-private option, those
    without a leading underscore by default. *)
Theorem api_lists_visible_definitions (api : ModuleAPI) (f : file) (body : list stmt) :
  extract_python_api unparse root tree filepath include_private = Some (Some api) ->
  open_ root tree filepath = Some f ->
  f_ast f = Parsed (Module_ body) ->
  map fs_name (api_functions api) = filter (visible include_private) (function_names body)
  /\ map cs_name (api_classes api) = filter (visible include_private) (class_names body).
Proof.
  intros Hext Hopen Hast.
  apply extract_python_api_Some in Hext. destruct Hext as (f' & body' & Hopen' & Hast' & ->).
  rewrite Hopen in Hopen'. injection Hopen' as <-.
  rewrite Hast in Hast'. injection Hast' as <-.
  cbn [extract_module api_functions api_classes].
  split; [apply function_names_listed | apply class_names_listed].
Qed.

(** X4.  Every class of a module API comes from a class definition of
    the file; its methods are the function definitions of the class
    body other than [__init__] that the visibility convention lets
    through, in source order, and each carries the name of the class. *)
Theorem class_methods_listed (api : ModuleAPI) (cls : ClassSig) :
  extract_python_api unparse root tree filepath include_private = Some (Some api) ->
  In cls (api_classes api) ->
  exists bases cbody f body,
    open_ root tree filepath = Some f
    /\ f_ast f = Parsed (Module_ body)
    /\ In (ClassDef (cs_name cls) bases cbody) body
    /\ map fs_name (cs_methods cls)
       = filter (listed_method include_private) (function_names cbody)
    /\ Forall (fun m => fs_class_name m = cs_name cls) (cs_methods cls).
Proof.
  intros Hext Hin.
  apply extract_python_api_Some in Hext. destruct Hext as (f & body & Hopen & Hast & ->).
  cbn [extract_module api_classes] in Hin.
  apply in_keep_some, in_map_iff in Hin. destruct Hin as (node & Hcls & Hnode).
  destruct node as [| |name bases cbody| | | | |]; try discriminate.
  unfold class_of_stmt in Hcls.
  destruct (negb include_private && startswith name (py "_")); [discriminate|].
  injection Hcls as <-.
  destruct (class_member_fold name cbody
              (mk_ClassSig name (render_each unparse bases) (_first_docstring_line cbody) [] []))
    as (Hn & Hm & Ht).
  cbn [cs_name cs_methods map app] in Hn, Hm, Ht.
  exists bases, cbody, f, body. rewrite Hn.
  repeat split; auto.
Qed.

Lemma top_package_free (name : str) : ~ In OsPath.extsep (top_package name).
Proof. apply hd_split_free. Qed.

Lemma imports_of_stmt_free (node : stmt) :
  Forall (fun i => ~ In OsPath.extsep i) (imports_of_stmt node).
Proof.
  destruct node as [| | |names|[m|]| | |]; try constructor.
  - cbn [imports_of_stmt]. apply Forall_forall. intros i Hi.
    apply in_map_iff in Hi. destruct Hi as (n & <- & _). apply top_package_free.
  - cbn [imports_of_stmt]. destruct (truthy m && negb (startswith m (py ".")));
      repeat constructor. apply top_package_free.
Qed.

(** X5.  The imports of a module API are sorted, pairwise distinct, and
    reduced to their top-level package: none holds a dot. *)
Theorem api_imports_sorted_distinct (api : ModuleAPI) :
  extract_python_api unparse root tree filepath include_private = Some (Some api) ->
  Sorted (fun a b => str_leb a b = true) (api_imports api)
  /\ NoDup (api_imports api)
  /\ Forall (fun i => ~ In OsPath.extsep i) (api_imports api).
Proof.
  intro Hext.
  apply extract_python_api_Some in Hext. destruct Hext as (f & body & _ & _ & ->).
  cbn [extract_module api_imports]. unfold sorted_set. split; [|split].
  - apply sorted_Sorted, str_leb_total.
  - eapply Permutation_NoDup; [apply Permutation_sym, sorted_perm | apply dedup_NoDup].
  - apply Forall_forall. intros i Hi.
    apply (Permutation_in _ (sorted_perm _ str_leb _)), in_dedup, in_flat_map in Hi.
    destruct Hi as (node & _ & Hi).
    pose proof (imports_of_stmt_free node) as Hfree.
    rewrite Forall_forall in Hfree. now apply Hfree.
Qed.

End Listing.

(* ------------------------------------------------------------------ *)
(** ** The discovered file set *)

Section FileSet.

Local Open Scope nat_scope.

Variables (root : str) (max_depth : Z) (exclude_tests : bool).

Lemma dir_path_app (a : str) (pre ds : list str) :
  dir_path (dir_path a pre) ds = dir_path a (pre ++ ds).
Proof. unfold dir_path, OsPath.join_all. now rewrite fold_left_app. Qed.

Lemma dir_path_snoc (a : str) (pre : list str) (name : str) :
  OsPath.join2 (dir_path a pre) name = dir_path a (pre ++ [name]).
Proof. unfold dir_path, OsPath.join_all. now rewrite fold_left_app. Qed.

(** The entry that the loop body makes of a file of the directory
    reached through [pre]. *)
Lemma visit_file_located (pre : list str) (f : file) (e : FileEntry) :
  Forall entry_name pre -> entry_name (f_name f) ->
  visit_file root exclude_tests (dir_path root pre) f = Some e ->
  path e = file_path root pre f /\ rel_path e = relative_path pre f.
Proof.
  intros Hpre Hf Hvisit. apply visit_file_Some in Hvisit.
  destruct Hvisit as (_ & _ & _ & Hp & Hr & _).
  split; [exact Hp|].
  rewrite Hr. exact (@relpath_file_path root pre f Hpre Hf).
Qed.

(** Every entry found below the directory reached through [pre] records
    a file of that directory's tree, under its path and relative path. *)
Lemma walk_located (d : dir) (pre : list str) (e : FileEntry) :
  well_formed d -> Forall entry_name pre ->
  In e (walk root max_depth exclude_tests (dir_path root pre) d) ->
  exists ds f,
    file_at d ds f /\ Forall entry_name ds /\ entry_name (f_name f)
    /\ path e = file_path root (pre ++ ds) f
    /\ rel_path e = relative_path (pre ++ ds) f.
Proof.
  intros Hwf Hpre Hin. apply walk_provenance in Hin.
  destruct Hin as (ds & f & Hat & _ & _ & Hvisit).
  destruct (file_at_entry_names Hwf Hat) as [Hds Hf].
  rewrite dir_path_app in Hvisit.
  apply visit_file_located in Hvisit; auto; [|apply Forall_app; auto].
  exists ds, f. tauto.
Qed.

Lemma visit_files_distinct (pre : list str) (l : list file) :
  Forall entry_name pre ->
  Forall entry_name (map f_name l) -> NoDup (map f_name l) ->
  NoDup (map rel_path (keep_some (map (visit_file root exclude_tests (dir_path root pre)) l))).
Proof.
  intros Hpre. induction l as [|f l IH]; intros Hnames Hnd; [constructor|].
  cbn [map] in *. inversion Hnames as [|? ? Hf Hl]; subst.
  inversion Hnd as [|? ? Hnotin Hnd']; subst.
  cbn [keep_some].
  destruct (visit_file root exclude_tests (dir_path root pre) f) as [e|] eqn:E;
    [|now apply IH].
  cbn [map]. constructor; [|now apply IH].
  destruct (visit_file_located pre f e Hpre Hf E) as [_ Hrel].
  intro Hin. apply in_map_iff in Hin. destruct Hin as (e' & Hrel' & Hin).
  apply in_keep_some, in_map_iff in Hin. destruct Hin as (f' & E' & Hf').
  assert (Hname' : entry_name (f_name f')).
  { rewrite Forall_forall in Hl. apply Hl. now apply in_map. }
  destruct (visit_file_located pre f' e' Hpre Hname' E') as [_ Hrel''].
  rewrite Hrel, Hrel'' in Hrel'.
  apply relative_path_inj in Hrel'; auto. destruct Hrel' as [_ Hsame].
  apply Hnotin. rewrite <- Hsame. now apply in_map.
Qed.

Lemma app_cons_not_self (A : Type) (l : list A) (x : A) (t : list A) : l <> l ++ x :: t.
Proof.
  intro H. apply (f_equal (@length A)) in H. rewrite length_app in H. cbn in H. lia.
Qed.

(** The entries found below the sub-directories of the directory
    reached through [pre]. *)
Lemma visit_subdirs_located (pre : list str) (subdirs : list (str * dir)) (e : FileEntry) :
  Forall entry_name pre ->
  Forall entry_name (map fst subdirs) ->
  Forall well_formed (map snd subdirs) ->
  In e (flat_map (visit_subdir root max_depth exclude_tests (dir_path root pre)) subdirs) ->
  exists name ds f,
    In name (map fst subdirs) /\ Forall entry_name (name :: ds) /\ entry_name (f_name f)
    /\ rel_path e = relative_path (pre ++ name :: ds) f.
Proof.
  intros Hpre Hnames Hwf Hin.
  apply in_flat_map in Hin. destruct Hin as ([name sub] & Hsub & He).
  unfold visit_subdir in He. cbn [fst snd] in He.
  destruct (keep_dir name); [|contradiction].
  assert (Hname : entry_name name).
  { rewrite Forall_forall in Hnames. apply Hnames. now apply (in_map fst) in Hsub. }
  assert (Hsubwf : well_formed sub).
  { rewrite Forall_forall in Hwf. apply Hwf. now apply (in_map snd) in Hsub. }
  rewrite dir_path_snoc in He.
  apply walk_located in He; auto;
    [|apply Forall_app; split; [exact Hpre | now constructor]].
  destruct He as (ds & f & _ & Hds & Hf & _ & Hr).
  exists name, ds, f. rewrite <- app_assoc in Hr.
  split; [now apply (in_map fst) in Hsub|]. split; [now constructor|].
  split; [exact Hf | exact Hr].
Qed.

Lemma visit_subdirs_distinct (pre : list str) (subdirs : list (str * dir)) :
  Forall entry_name pre ->
  Forall entry_name (map fst subdirs) ->
  NoDup (map fst subdirs) ->
  Forall well_formed (map snd subdirs) ->
  Forall (fun d => well_formed d -> forall pre, Forall entry_name pre ->
            NoDup (map rel_path (walk root max_depth exclude_tests (dir_path root pre) d)))
    (map snd subdirs) ->
  NoDup (map rel_path
           (flat_map (visit_subdir root max_depth exclude_tests (dir_path root pre)) subdirs)).
Proof.
  intro Hpre.
  induction subdirs as [|[name sub] rest IHrest]; intros Hnames Hnd Hwf IH; [constructor|].
  cbn [map fst snd] in *.
  inversion Hnames as [|? ? Hname Hrestn]; subst.
  inversion Hnd as [|? ? Hnotin Hrestnd]; subst.
  inversion Hwf as [|? ? Hsub Hrestwf]; subst.
  inversion IH as [|? ? IHsub IHrest']; subst.
  cbn [flat_map]. rewrite map_app. apply NoDup_app.
  - unfold visit_subdir. cbn [fst snd]. destruct (keep_dir name); [|constructor].
    rewrite dir_path_snoc. apply IHsub; auto.
    apply Forall_app. split; [exact Hpre | now constructor].
  - now apply IHrest.
  - intros r Hr Hr'.
    apply in_map_iff in Hr. destruct Hr as (e & <- & He).
    apply in_map_iff in Hr'. destruct Hr' as (e' & Hrel & He').
    assert (He1 : In e (flat_map (visit_subdir root max_depth exclude_tests
                                    (dir_path root pre)) [(name, sub)]))
      by (cbn [flat_map]; rewrite app_nil_r; exact He).
    apply visit_subdirs_located in He1; auto;
      try (cbn [map fst snd]; constructor; [assumption | constructor]).
    destruct He1 as (n & ds & f & Hn & Hds & Hf & Hr).
    destruct Hn as [<-|[]].
    apply visit_subdirs_located in He'; auto.
    destruct He' as (n' & ds' & f' & Hn' & Hds' & Hf' & Hr').
    rewrite Hr, Hr' in Hrel.
    apply relative_path_inj in Hrel; auto; try (apply Forall_app; split; auto).
    destruct Hrel as [Hrel _]. apply app_inv_head in Hrel. injection Hrel as <- _.
    contradiction.
Qed.

(** Below a well-formed tree no two discovered entries share a relative
    path. *)
Lemma walk_distinct (d : dir) :
  well_formed d ->
  forall pre, Forall entry_name pre ->
    NoDup (map rel_path (walk root max_depth exclude_tests (dir_path root pre) d)).
Proof.
  induction d as [files subdirs IH] using dir_induction.
  intros Hwf pre Hpre. rewrite walk_Dir.
  destruct (depth_of root (dir_path root pre) >? max_depth)%Z; [constructor|].
  inversion Hwf as [? ? Hfnames Hfnd Hdnames Hdnd Hsubs]; subst.
  rewrite map_app. apply NoDup_app.
  - unfold visit_files. apply visit_files_distinct; auto.
    + apply Forall_forall. intros n Hn. rewrite Forall_forall in Hfnames.
      apply Hfnames. revert Hn. apply Permutation_in, Permutation_map, sorted_perm.
    + eapply Permutation_NoDup; [|exact Hfnd].
      apply Permutation_map, Permutation_sym, sorted_perm.
  - now apply visit_subdirs_distinct.
  - intros r Hr Hr'.
    apply in_map_iff in Hr. destruct Hr as (e & <- & He).
    apply in_map_iff in Hr'. destruct Hr' as (e' & Hrel & He').
    apply in_visit_files in He. destruct He as (f & Hf & Hvisit).
    assert (Hname : entry_name (f_name f)).
    { rewrite Forall_forall in Hfnames. apply Hfnames. now apply in_map. }
    destruct (visit_file_located pre f e Hpre Hname Hvisit) as [_ Hr].
    apply visit_subdirs_located in He'; auto.
    destruct He' as (n' & ds' & f' & Hn' & Hds' & Hf' & Hr').
    rewrite Hr, Hr' in Hrel.
    apply relative_path_inj in Hrel; auto; try (apply Forall_app; split; auto).
    destruct Hrel as [Hrel _]. symmetry in Hrel.
    exact (app_cons_not_self _ _ _ _ Hrel).
Qed.

(** X6.  In a well-formed tree no two discovered entries have the same
    relative path. *)
Theorem relative_paths_unique (tree : dir) :
  well_formed tree ->
  NoDup (map rel_path (discover_files root tree max_depth exclude_tests)).
Proof.
  intro Hwf. unfold discover_files.
  change root with (dir_path root []) at 2.
  apply walk_distinct; [exact Hwf | constructor].
Qed.


Lemma relative_path_not_rooted (ds : list str) (f : file) :
  Forall entry_name ds -> entry_name (f_name f) ->
  startswith (relative_path ds f) [OsPath.sep] = false.
Proof.
  intros Hds Hf. unfold relative_path.
  assert (Hx : exists x xs, ds ++ [f_name f] = x :: xs /\ entry_name x).
  { destruct ds as [|x l]; cbn [app]; [now exists (f_name f), []|].
    inversion Hds; subst. now exists x, (l ++ [f_name f]). }
  destruct Hx as (x & xs & -> & [Hne Hsep]).
  destruct x as [|c x]; [congruence|].
  assert (Hc : N.eqb c OsPath.sep = false).
  { apply N.eqb_neq. intros ->. apply Hsep. now left. }
  destruct xs; cbn [join app startswith]; now rewrite Hc.
Qed.

(** X7.  The path of a discovered entry is the root joined with its
    relative path: [os.path.join(root, e.rel_path) == e.path]. *)
Theorem path_is_root_joined_with_rel_path (tree : dir) (e : FileEntry) :
  well_formed tree ->
  In e (discover_files root tree max_depth exclude_tests) ->
  OsPath.join2 root (rel_path e) = path e.
Proof.
  intros Hwf Hin. unfold discover_files in Hin.
  change root with (dir_path root []) in Hin at 2.
  apply walk_located in Hin; [|exact Hwf | constructor].
  destruct Hin as (ds & f & _ & Hds & Hf & Hp & Hr). cbn [app] in Hp, Hr.
  rewrite Hp, Hr, (@file_path_entries root ds f Hds Hf).
  unfold OsPath.join2, glue. rewrite (relative_path_not_rooted ds f Hds Hf).
  now destruct (is_empty root || endswith root [OsPath.sep]).
Qed.

Lemma rfind_from_app (c : char) (s1 s2 : str) (i acc : Z) :
  rfind_from c (s1 ++ s2) i acc
  = rfind_from c s2 (i + Z.of_nat (length s1))%Z (rfind_from c s1 i acc).
Proof.
  revert i acc. induction s1 as [|x s1 IH]; intros i acc; cbn [app rfind_from length].
  - f_equal. lia.
  - rewrite IH. f_equal. lia.
Qed.

Lemma rfind_from_absent (c : char) (s : str) (i acc : Z) :
  ~ In c s -> rfind_from c s i acc = acc.
Proof.
  revert i acc. induction s as [|x s IH]; intros i acc Hc; cbn [rfind_from]; [reflexivity|].
  destruct (N.eqb_spec x c) as [->|_]; [exfalso; apply Hc; now left|].
  apply IH. intro H. apply Hc. now right.
Qed.

(** The last component of a path that ends in an entry name. *)
Lemma basename_after_dir (x n : str) :
  ~ In OsPath.sep n -> x = [] \/ (exists x', x = x' ++ [OsPath.sep]) ->
  OsPath.basename (x ++ n) = n.
Proof.
  intros Hn [->|(x' & ->)]; unfold OsPath.basename, rfind, slice_from, index_of.
  - cbn [app]. rewrite rfind_from_absent by exact Hn. reflexivity.
  - rewrite rfind_from_app, (rfind_from_absent _ n _ _ Hn), rfind_from_app.
    cbn [rfind_from]. rewrite N.eqb_refl.
    rewrite (proj2 (Z.leb_le 0 _)) by lia.
    replace (Z.to_nat (0 + Z.of_nat (length x') + 1)) with (length (x' ++ [OsPath.sep]))
      by (rewrite length_app; cbn; lia).
    rewrite skipn_app, skipn_all, Nat.sub_diag. reflexivity.
Qed.

Lemma join_snoc (s : str) (x : str) (l : list str) (n : str) :
  join s ((x :: l) ++ [n]) = join s (x :: l) ++ s ++ n.
Proof.
  revert x. induction l as [|y l IH]; intro x; [reflexivity|].
  change (join s ((x :: y :: l) ++ [n])) with (x ++ s ++ join s ((y :: l) ++ [n])).
  rewrite IH. change (join s (x :: y :: l)) with (x ++ s ++ join s (y :: l)).
  now rewrite <- !app_assoc.
Qed.

Lemma basename_relative_path (a : str) (ds : list str) (f : file) :
  entry_name (f_name f) ->
  a = [] \/ (exists a', a = a' ++ [OsPath.sep]) ->
  OsPath.basename (a ++ relative_path ds f) = f_name f.
Proof.
  intros [_ Hf] Ha. unfold relative_path.
  destruct ds as [|x l].
  - cbn [app join]. now apply basename_after_dir.
  - rewrite join_snoc, !app_assoc. apply basename_after_dir; [exact Hf|].
    right. exists (a ++ join [OsPath.sep] (x :: l)). reflexivity.
Qed.

Lemma root_with_glue (a : str) :
  a ++ glue a = [] \/ exists a', a ++ glue a = a' ++ [OsPath.sep].
Proof.
  unfold glue. destruct a as [|c a]; [now left|]. right.
  cbn [is_empty orb]. destruct (endswith (c :: a) [OsPath.sep]) eqn:E.
  - rewrite app_nil_r. now apply rev_ends_with_sep.
  - now exists (c :: a).
Qed.

Lemma detect_language_basename (p q : str) :
  OsPath.basename p = OsPath.basename q -> _detect_language p = _detect_language q.
Proof. unfold _detect_language. now intros ->. Qed.

(** X8.  The language tag of a discovered entry depends on the name of
    the file only: it is the tag of the relative path as well. *)
Theorem language_from_file_name (tree : dir) (e : FileEntry) :
  well_formed tree ->
  In e (discover_files root tree max_depth exclude_tests) ->
  OsPath.basename (path e) = OsPath.basename (rel_path e)
  /\ language e = _detect_language (rel_path e).
Proof.
  intros Hwf Hin. unfold discover_files in Hin.
  pose proof Hin as Hprov. apply walk_provenance in Hprov.
  destruct Hprov as (ds0 & f0 & _ & _ & _ & Hvisit).
  apply visit_file_Some in Hvisit.
  destruct Hvisit as (_ & _ & _ & Hp0 & _ & _ & Hlang & _).
  change root with (dir_path root []) in Hin at 2.
  apply walk_located in Hin; [|exact Hwf | constructor].
  destruct Hin as (ds & f & _ & Hds & Hf & Hp & Hr). cbn [app] in Hp, Hr.
  assert (Hbase : OsPath.basename (path e) = OsPath.basename (rel_path e)).
  { rewrite Hp, Hr, (@file_path_entries root ds f Hds Hf), app_assoc.
    rewrite (basename_relative_path _ ds f Hf (root_with_glue root)).
    rewrite <- (app_nil_l (relative_path ds f)).
    now rewrite (basename_relative_path [] ds f Hf (or_introl eq_refl)). }
  split; [exact Hbase|].
  rewrite Hlang, <- Hp0. now apply detect_language_basename.
Qed.

Lemma filter_flat_map (A B : Type) (p : B -> bool) (g : A -> list B) (l : list A) :
  filter p (flat_map g l) = flat_map (fun x => filter p (g x)) l.
Proof.
  induction l as [|x l IH]; [reflexivity|].
  cbn [flat_map]. now rewrite filter_app, IH.
Qed.

Lemma visit_file_excluding_tests (dirpath : str) (f : file) :
  visit_file root true dirpath f
  = match visit_file root false dirpath f with
    | Some e => if _is_test_file (path e) then None else Some e
    | None => None
    end.
Proof.
  unfold visit_file.
  destruct (mem (f_name f) SKIP_FILES || startswith (f_name f) (py ".")); [reflexivity|].
  cbn [andb].
  destruct (f_stat f) as [sz|];
    [|now destruct (_is_test_file (OsPath.join2 dirpath (f_name f)))].
  destruct (sz >? LARGE_FILE)%Z;
    [now destruct (_is_test_file (OsPath.join2 dirpath (f_name f)))|].
  cbn [path]. now destruct (_is_test_file (OsPath.join2 dirpath (f_name f))).
Qed.

Lemma walk_excluding_tests (depth : Z) (d : dir) :
  forall dirpath,
    walk root depth true dirpath d
    = filter (fun e => negb (_is_test_file (path e))) (walk root depth false dirpath d).
Proof.
  induction d as [files subdirs IH] using dir_induction.
  intro dirpath. rewrite !walk_Dir.
  destruct (depth_of root dirpath >? depth)%Z; [reflexivity|].
  rewrite filter_app, filter_flat_map. f_equal.
  - unfold visit_files. induction (sorted file_leb files) as [|f l IHl]; [reflexivity|].
    cbn [map keep_some]. rewrite visit_file_excluding_tests.
    destruct (visit_file root false dirpath f) as [e|]; [|exact IHl].
    cbn [keep_some filter]. destruct (_is_test_file (path e)); cbn [negb]; now rewrite IHl.
  - induction subdirs as [|[name sub] rest IHrest]; [reflexivity|].
    inversion IH as [|? ? IHsub IHrest']; subst.
    cbn [flat_map]. rewrite IHrest by exact IHrest'. f_equal.
    unfold visit_subdir. cbn [fst snd]. destruct (keep_dir name); [apply IHsub | reflexivity].
Qed.

(** X9.  Test exclusion only removes entries: with the option the
    collector returns the entries of the run without it whose path is
    not a test file by the naming convention, in the same order. *)
Theorem exclude_tests_is_a_filter (tree : dir) :
  discover_files root tree max_depth true
  = filter (fun e => negb (_is_test_file (path e)))
      (discover_files root tree max_depth false).
Proof. unfold discover_files. apply walk_excluding_tests. Qed.

Lemma walk_deeper (depth deeper : Z) (d : dir) :
  (depth <= deeper)%Z ->
  forall dirpath e,
    In e (walk root depth exclude_tests dirpath d) ->
    In e (walk root deeper exclude_tests dirpath d).
Proof.
  intro Hle. induction d as [files subdirs IH] using dir_induction.
  intros dirpath e. rewrite !walk_Dir.
  destruct (Z.gtb_spec (depth_of root dirpath) depth) as [|Hd]; [contradiction|].
  destruct (Z.gtb_spec (depth_of root dirpath) deeper) as [|_]; [lia|].
  rewrite !in_app_iff, !in_flat_map.
  intros [H|([name sub] & Hsub & Hin)]; [now left|].
  right. exists (name, sub). split; [exact Hsub|].
  unfold visit_subdir in *. cbn [fst snd] in *.
  destruct (keep_dir name); [|contradiction].
  rewrite Forall_forall in IH. apply (IH sub (in_map snd _ _ Hsub)). exact Hin.
Qed.

(** X10.  A larger maximum depth never loses a file: every entry found
    with a depth limit is found with any larger limit. *)
Theorem deeper_walk_keeps_entries (tree : dir) (deeper : Z) (e : FileEntry) :
  (max_depth <= deeper)%Z ->
  In e (discover_files root tree max_depth exclude_tests) ->
  In e (discover_files root tree deeper exclude_tests).
Proof. intros Hle. unfold discover_files. now apply walk_deeper. Qed.

Lemma depth_of_root : depth_of root root = 0%Z.
Proof.
  unfold depth_of, slice_from, index_of.
  rewrite (proj2 (Z.leb_le 0 _)) by lia.
  now rewrite Nat2Z.id, skipn_all.
Qed.

(** X11.  With a negative maximum depth nothing is discovered, not even
    the files of the root, and the narrative output is the notice that
    no files were found. *)
Theorem negative_depth_finds_nothing
        (unparse : expr -> option str) (tree : dir) (git : churn_source)
        (include_private : bool) (token_budget : option Z) :
  (max_depth < 0)%Z ->
  discover_files root tree max_depth exclude_tests = []
  /\ generate_map unparse root tree git max_depth include_private token_budget exclude_tests
     = Some (py "No files found.").
Proof.
  intro Hneg.
  assert (Hnone : discover_files root tree max_depth exclude_tests = []).
  { unfold discover_files. destruct tree as [files subdirs].
    rewrite walk_Dir, depth_of_root.
    now destruct (Z.gtb_spec 0 max_depth); [|lia]. }
  split; [exact Hnone|]. unfold generate_map. now rewrite Hnone.
Qed.

End FileSet.

(* ------------------------------------------------------------------ *)
(** ** Counting with a dictionary *)

Section Counting.

Local Open Scope Z_scope.

Lemma str_eqb_neq (a b : str) : str_eqb a b = false <-> a <> b.
Proof.
  split.
  - intros H E. apply str_eqb_eq in E. congruence.
  - intro H. destruct (str_eqb a b) eqn:E; [|reflexivity].
    apply str_eqb_eq in E. contradiction.
Qed.

Lemma dict_get_set_same (V : Type) (d : Dict.dict V) (k : str) (v : V) :
  Dict.get (Dict.set d k v) k = Some v.
Proof.
  induction d as [|[k' v'] d IH]; cbn [Dict.set Dict.get].
  - now rewrite str_eqb_refl.
  - destruct (str_eqb k' k) eqn:E; cbn [Dict.get]; rewrite E; [reflexivity | exact IH].
Qed.

Lemma dict_get_set_other (V : Type) (d : Dict.dict V) (k k' : str) (v : V) :
  k <> k' -> Dict.get (Dict.set d k v) k' = Dict.get d k'.
Proof.
  intro Hk. induction d as [|[k0 v0] d IH]; cbn [Dict.set Dict.get].
  - now rewrite (proj2 (str_eqb_neq k k') Hk).
  - destruct (str_eqb k0 k) eqn:E; cbn [Dict.get].
    + apply str_eqb_eq in E. subst k0.
      now rewrite (proj2 (str_eqb_neq k k') Hk).
    + destruct (str_eqb k0 k'); [reflexivity | exact IH].
Qed.

Lemma counted_succ (n : Z) :
  0 <= n ->
  Some (match counted n with Some m => m | None => 0 end + 1) = counted (n + 1).
Proof.
  intro Hn. unfold counted.
  destruct (Z.eqb_spec n 0) as [->|Hn0]; [reflexivity|].
  destruct (Z.eqb_spec (n + 1) 0); [lia | reflexivity].
Qed.

(** One step of a counting loop: the key [k] is counted, or skipped. *)
Lemma count_step (d : Dict.dict Z) (k q : str) (n : Z) :
  0 <= n ->
  Dict.get d q = counted n ->
  Dict.get
    (Dict.set d k (match Dict.get d k with Some m => m | None => 0 end + 1)) q
  = counted (n + (if str_eqb k q then 1 else 0)).
Proof.
  intros Hn Hget. destruct (str_eqb k q) eqn:E.
  - apply str_eqb_eq in E. subst q.
    rewrite dict_get_set_same, Hget. now apply counted_succ.
  - apply str_eqb_neq in E. rewrite dict_get_set_other by exact E.
    now rewrite Z.add_0_r.
Qed.

Lemma log_count_cons (p line : str) (rest : list str) :
  log_count p (line :: rest)
  = (if str_eqb (strip line) p then 1 else 0) + log_count p rest.
Proof.
  unfold log_count. cbn [filter].
  destruct (str_eqb (strip line) p); cbn [length]; lia.
Qed.

Lemma log_count_nonneg (p : str) (l : list str) : 0 <= log_count p l.
Proof. unfold log_count. lia. Qed.

Lemma count_lines_fold (p : str) (log_lines : list str) (churn : Dict.dict Z) (n : Z) :
  p <> [] -> 0 <= n ->
  Dict.get churn p = counted n ->
  Dict.get (fold_left count_line log_lines churn) p = counted (n + log_count p log_lines).
Proof.
  intro Hp. revert churn n.
  induction log_lines as [|line rest IH]; intros churn n Hn Hget; cbn [fold_left].
  - unfold log_count. cbn. now rewrite Z.add_0_r.
  - rewrite log_count_cons, Z.add_assoc.
    pose proof (log_count_nonneg p rest).
    apply IH; [destruct (str_eqb (strip line) p); lia|].
    unfold count_line. destruct (truthy (strip line)) eqn:Ht.
    + now apply count_step.
    + destruct (strip line) as [|c s] eqn:Es; [|discriminate].
      rewrite (proj2 (str_eqb_neq [] p)) by congruence.
      now rewrite Z.add_0_r.
Qed.

(** X12.  The churn of a path is the number of lines of the change log
    that name it, surrounding white space apart; a path that no line
    names has no churn entry, and without a change log nothing has. *)
Theorem churn_counts_log_lines (stdout p : str) :
  p <> [] ->
  Dict.get (churn_of (Some stdout)) p = counted (log_count p (split newline stdout))
  /\ Dict.get (churn_of None) p = None.
Proof.
  intro Hp. split; [|reflexivity].
  unfold churn_of. destruct stdout as [|c s].
  - cbn. unfold counted, log_count. cbn.
    destruct p; [congruence | reflexivity].
  - cbn [truthy is_empty negb].
    rewrite (count_lines_fold p _ [] 0 Hp); [reflexivity | lia | reflexivity].
Qed.

Lemma mem_in (x : str) (l : list str) : mem x l = true <-> In x l.
Proof.
  unfold mem. rewrite existsb_exists. split.
  - intros (y & Hy & E). apply str_eqb_eq in E. now subst.
  - intro H. exists x. split; [exact H | apply str_eqb_refl].
Qed.

Lemma count_imports_fold (d : str) (imports : list str) (acc : Dict.dict Z) (n : Z) :
  mem d stdlib = false -> 0 <= n ->
  Dict.get acc d = counted n ->
  Dict.get (fold_left count_import imports acc) d
  = counted (n + Z.of_nat (count_occ (list_eq_dec N.eq_dec) imports d)).
Proof.
  intro Hd. revert acc n.
  induction imports as [|imp rest IH]; intros acc n Hn Hget; cbn [fold_left count_occ].
  - now rewrite Z.add_0_r.
  - assert (Hstep : Dict.get (count_import acc imp) d
                    = counted (n + (if str_eqb imp d then 1 else 0))).
    { unfold count_import. destruct (mem imp stdlib) eqn:Hs.
      - rewrite (proj2 (str_eqb_neq imp d)) by congruence. now rewrite Z.add_0_r.
      - now apply count_step. }
    destruct (list_eq_dec N.eq_dec imp d) as [->|Hne].
    + rewrite str_eqb_refl in Hstep.
      rewrite (IH _ (n + 1)); [f_equal; lia | lia | exact Hstep].
    + rewrite (proj2 (str_eqb_neq imp d) Hne), Z.add_0_r in Hstep.
      now apply IH.
Qed.

Lemma count_imports_stdlib (d : str) (imports : list str) (acc : Dict.dict Z) :
  mem d stdlib = true -> Dict.get acc d = None ->
  Dict.get (fold_left count_import imports acc) d = None.
Proof.
  intro Hd. revert acc.
  induction imports as [|imp rest IH]; intros acc Hget; cbn [fold_left]; [exact Hget|].
  apply IH. unfold count_import. destruct (mem imp stdlib) eqn:Hs; [exact Hget|].
  rewrite dict_get_set_other; [exact Hget | congruence].
Qed.

Lemma count_occ_distinct (l : list str) (d : str) :
  NoDup l ->
  Z.of_nat (count_occ (list_eq_dec N.eq_dec) l d) = if mem d l then 1 else 0.
Proof.
  induction 1 as [|x l Hx Hl IH]; [reflexivity|].
  cbn [count_occ]. unfold mem in *. cbn [existsb].
  destruct (list_eq_dec N.eq_dec x d) as [->|Hne].
  - rewrite str_eqb_refl. cbn [orb].
    assert (Hd : existsb (str_eqb d) l = false).
    { destruct (existsb (str_eqb d) l) eqn:E; [|reflexivity].
      exfalso. apply Hx. now apply (mem_in d l). }
    rewrite Hd in IH. lia.
  - rewrite (proj2 (str_eqb_neq d x)) by congruence. exact IH.
Qed.

Lemma import_uses_cons (d : str) (a : ModuleAPI) (rest : list ModuleAPI) :
  import_uses d (a :: rest)
  = (if mem d (api_imports a) then 1 else 0) + import_uses d rest.
Proof.
  unfold import_uses. cbn [filter].
  destruct (mem d (api_imports a)); cbn [length]; lia.
Qed.

Lemma import_counts_fold (d : str) (apis : list ModuleAPI) (acc : Dict.dict Z) (n : Z) :
  mem d stdlib = false -> 0 <= n ->
  Forall (fun a => NoDup (api_imports a)) apis ->
  Dict.get acc d = counted n ->
  Dict.get
    (fold_left (fun all_imports api => fold_left count_import (api_imports api) all_imports)
       apis acc) d
  = counted (n + import_uses d apis).
Proof.
  intros Hd Hn Hnd. revert acc n Hn.
  induction Hnd as [|a rest Ha Hrest IH]; intros acc n Hn Hget; cbn [fold_left].
  - unfold import_uses. cbn. now rewrite Z.add_0_r.
  - rewrite import_uses_cons, Z.add_assoc.
    apply IH; [destruct (mem d (api_imports a)); lia|].
    rewrite <- (count_occ_distinct _ d Ha).
    now apply count_imports_fold.
Qed.

(** X13.  The dependency counts: a package outside the standard-library
    list is counted once for every module that imports it, and is
    absent when none does; a standard-library module is never counted. *)
Theorem import_counts_modules (apis : list ModuleAPI) (d : str) :
  Forall (fun a => NoDup (api_imports a)) apis ->
  Dict.get (import_counts apis) d
  = if mem d stdlib then None else counted (import_uses d apis).
Proof.
  intro Hnd. unfold import_counts. destruct (mem d stdlib) eqn:Hd.
  - induction apis as [|a rest IH] using rev_ind; [reflexivity|].
    rewrite fold_left_app. cbn [fold_left].
    apply count_imports_stdlib; [exact Hd|].
    apply IH. apply Forall_app in Hnd. tauto.
  - now rewrite (import_counts_fold d apis [] 0 Hd (Z.le_refl 0) Hnd eq_refl).
Qed.

End Counting.

(* ------------------------------------------------------------------ *)
(** ** Ranking *)

Section Ranking.

Ltac score_terms e :=
  destruct (mem (language e) _);
  try destruct (mem (language e) _);
  destruct (Nat.eqb _ 0);
  destruct (truthy (description e));
  repeat match goal with
         | |- context [min_one ?s] =>
             destruct (min_one_cases s) as [[? ->]|[? ->]]
         end.

(** A flagged source file of the root has at least the three bonuses
    0.3, 0.2 and 0.1. *)
Lemma score_entry_main (max_lines : Z) (churn : Dict.dict Z) (max_churn : Z) (e : FileEntry) :
  is_entrypoint e = true -> source_language e = true -> at_root e = true ->
  unit_ratio (inject_Z (lines e) / inject_Z max_lines) ->
  (forall n, Dict.get churn (rel_path e) = Some n -> unit_ratio (inject_Z n / inject_Z max_churn)) ->
  6 # 10 <= score_entry max_lines churn max_churn e.
Proof.
  unfold source_language, at_root. intros Hep Hsrc Hroot [Hl0 Hl1] Hc.
  unfold score_entry. rewrite Hep, Hsrc, Hroot.
  set (r1 := inject_Z (lines e) / inject_Z max_lines) in *.
  destruct (Dict.get churn (rel_path e)) as [n|].
  - destruct (Hc n eq_refl) as [Hc0 Hc1].
    set (r2 := inject_Z n / inject_Z max_churn) in *.
    destruct (truthy (description e));
      match goal with |- context [min_one ?s] =>
        destruct (min_one_cases s) as [[? ->]|[? ->]] end; lra.
  - destruct (truthy (description e));
      match goal with |- context [min_one ?s] =>
        destruct (min_one_cases s) as [[? ->]|[? ->]] end; lra.
Qed.

(** Without the entrypoint and language bonuses a score stays at or
    below 0.55. *)
Lemma score_entry_plain (max_lines : Z) (churn : Dict.dict Z) (max_churn : Z) (e : FileEntry) :
  is_entrypoint e = false -> source_language e = false -> build_language e = false ->
  unit_ratio (inject_Z (lines e) / inject_Z max_lines) ->
  (forall n, Dict.get churn (rel_path e) = Some n -> unit_ratio (inject_Z n / inject_Z max_churn)) ->
  score_entry max_lines churn max_churn e <= 55 # 100.
Proof.
  unfold source_language, build_language. intros Hep Hsrc Hbuild [Hl0 Hl1] Hc.
  unfold score_entry. rewrite Hep, Hsrc, Hbuild.
  set (r1 := inject_Z (lines e) / inject_Z max_lines) in *.
  destruct (Dict.get churn (rel_path e)) as [n|].
  - destruct (Hc n eq_refl) as [Hc0 Hc1].
    set (r2 := inject_Z n / inject_Z max_churn) in *.
    destruct (Nat.eqb _ 0); destruct (truthy (description e));
      match goal with |- context [min_one ?s] =>
        destruct (min_one_cases s) as [[? ->]|[? ->]] end; lra.
  - destruct (Nat.eqb _ 0); destruct (truthy (description e));
      match goal with |- context [min_one ?s] =>
        destruct (min_one_cases s) as [[? ->]|[? ->]] end; lra.
Qed.

(** X14.  Whatever the line counts and the change log, an entrypoint in
    a source language that lies in the project root is scored strictly
    higher than any file that is no entrypoint and is neither source
    nor build file. *)
Theorem main_file_outranks_plain_file
        (entries : list FileEntry) (git : churn_source) (i j : nat) (e1 e2 : FileEntry) :
  Forall lines_counted entries ->
  nth_error entries i = Some e1 ->
  nth_error entries j = Some e2 ->
  is_entrypoint e1 = true -> source_language e1 = true -> at_root e1 = true ->
  is_entrypoint e2 = false -> source_language e2 = false -> build_language e2 = false ->
  exists s1 s2,
    nth_error (_score_importance entries git) i = Some s1
    /\ nth_error (_score_importance entries git) j = Some s2
    /\ importance s2 < importance s1.
Proof.
  intros Hnn H1 H2 Hep1 Hsrc1 Hroot1 Hep2 Hsrc2 Hbuild2.
  rewrite score_importance_map.
  eexists; eexists. split; [|split].
  - apply map_nth_error; exact H1.
  - apply map_nth_error; exact H2.
  - cbn [importance set_importance].
    assert (Hc : forall e n, Dict.get (churn_of git) (rel_path e) = Some n ->
                   unit_ratio (inject_Z n / inject_Z (max_churn_of (churn_of git))))
      by (intros e n Hn; eapply churn_ratio_bounds; [apply churn_of_positive | exact Hn]).
    pose proof (score_entry_main (max_lines_of entries) (churn_of git)
                  (max_churn_of (churn_of git)) e1 Hep1 Hsrc1 Hroot1
                  (@lines_ratio_bounds entries e1 Hnn (nth_error_In _ _ H1)) (Hc e1)) as Hhigh.
    pose proof (score_entry_plain (max_lines_of entries) (churn_of git)
                  (max_churn_of (churn_of git)) e2 Hep2 Hsrc2 Hbuild2
                  (@lines_ratio_bounds entries e2 Hnn (nth_error_In _ _ H2)) (Hc e2)) as Hlow.
    lra.
Qed.

Lemma importance_leb_total (a b : FileEntry) :
  importance_leb a b = true \/ importance_leb b a = true.
Proof.
  unfold importance_leb.
  destruct (Qlt_le_dec (- importance b) (- importance a)) as [H|H].
  - right. apply Qle_bool_iff. now apply Qlt_le_weak.
  - left. now apply Qle_bool_iff.
Qed.

Lemma importance_leb_ge (a b : FileEntry) :
  importance_leb a b = true -> importance b <= importance a.
Proof.
  unfold importance_leb. intro H. apply Qle_bool_iff in H. lra.
Qed.

Lemma Sorted_map_rel (A B : Type) (R : A -> A -> Prop) (R' : B -> B -> Prop)
      (g : A -> B) (l : list A) :
  (forall a b, R a b -> R' (g a) (g b)) ->
  Sorted R l -> Sorted R' (map g l).
Proof.
  intro Hg. induction 1 as [|x l Hl IH Hx]; cbn [map]; constructor; [exact IH|].
  destruct Hx; cbn [map]; constructor. now apply Hg.
Qed.

(** What [round_half_even] returns, against every integer. *)
Lemma round_half_even_ge (q : Q) (m : Z) :
  (m <= round_half_even q)%Z
  <-> (2 * Qnum q > (2 * m - 1) * Zpos (Qden q)
       \/ (2 * Qnum q = (2 * m - 1) * Zpos (Qden q) /\ Z.even m = true))%Z.
Proof.
  unfold round_half_even.
  set (n := Qnum q). set (d := Zpos (Qden q)).
  assert (Hd : (0 < d)%Z) by (unfold d; lia).
  pose proof (Z.div_mod n d ltac:(lia)) as Hdiv.
  pose proof (Z.mod_pos_bound n d Hd) as Hmod.
  set (f := (n / d)%Z) in *. set (r := (n mod d)%Z) in *.
  replace (n - f * d)%Z with r by lia.
  assert (Hcmp : forall a b : Z, (a <= b -> a * d <= b * d)%Z) by (intros; nia).
  destruct (Z.ltb_spec (2 * r) d) as [Hlt|Hge].
  - split.
    + intro Hm. left. pose proof (Hcmp (2 * m - 1) (2 * f - 1))%Z. nia.
    + intros [H|[H _]]; destruct (Z.le_gt_cases m f) as [|Hgt]; auto;
        pose proof (Hcmp (2 * f + 1) (2 * m - 1))%Z; nia.
  - destruct (Z.gtb_spec (2 * r) d) as [Hgt|Hle].
    + split.
      * intro Hm. left. pose proof (Hcmp (2 * m - 1) (2 * f + 1))%Z. nia.
      * intros [H|[H _]]; destruct (Z.le_gt_cases m (f + 1)) as [|Hgt']; auto;
          pose proof (Hcmp (2 * f + 3) (2 * m - 1))%Z; nia.
    + assert (Htie : (2 * r = d)%Z) by lia.
      assert (Hn : (2 * n = (2 * f + 1) * d)%Z) by nia.
      destruct (Z.even f) eqn:Hf.
      * split.
        -- intro Hm. left. pose proof (Hcmp (2 * m - 1) (2 * f - 1))%Z. nia.
        -- intros [H|[H He]]; destruct (Z.le_gt_cases m f) as [|Hgt']; auto.
           ++ pose proof (Hcmp (2 * f + 1) (2 * m - 1))%Z. nia.
           ++ assert (m = f + 1)%Z by nia. subst m.
              rewrite Z.even_add, Hf in He. discriminate.
      * split.
        -- intro Hm. destruct (Z.eq_dec m (f + 1)) as [->|Hne].
           ++ right. split; [nia|]. now rewrite Z.even_add, Hf.
           ++ left. pose proof (Hcmp (2 * m - 1) (2 * f - 1))%Z. nia.
        -- intros [H|[H _]]; destruct (Z.le_gt_cases m (f + 1)) as [|Hgt']; auto;
             pose proof (Hcmp (2 * f + 3) (2 * m - 1))%Z; nia.
Qed.

Lemma round_half_even_mono (p q : Q) :
  p <= q -> (round_half_even p <= round_half_even q)%Z.
Proof.
  intro Hpq. apply round_half_even_ge.
  destruct (proj1 (round_half_even_ge p (round_half_even p)) (Z.le_refl _)) as [H|[H He]];
    unfold Qle in Hpq;
    set (m := round_half_even p) in *;
    assert (Hd1 : (0 < Zpos (Qden p))%Z) by lia;
    assert (Hd2 : (0 < Zpos (Qden q))%Z) by lia.
  - left. nia.
  - destruct (Z.eq_dec (2 * Qnum q) ((2 * m - 1) * Zpos (Qden q))) as [E|E];
      [right; auto | left; nia].
Qed.

(** Rounding to three decimals keeps the order. *)
Lemma round3_mono (p q : Q) : p <= q -> round3 p <= round3 q.
Proof.
  intro Hpq. unfold round3.
  apply Qmult_le_compat_r; [|now compute].
  rewrite <- Zle_Qle. apply round_half_even_mono.
  apply Qmult_le_compat_r; [exact Hpq | now compute].
Qed.

End Ranking.

(* ------------------------------------------------------------------ *)
(** ** The JSON object *)

Section JsonObject.

Local Open Scope nat_scope.

Variable unparse : expr -> option str.
Variables (root : str) (tree : dir) (git : churn_source).
Variables (max_depth : Z) (include_private exclude_tests : bool).

Lemma fold_left_add_perm (l l' : list Z) :
  Permutation l l' -> forall a : Z, fold_left Z.add l a = fold_left Z.add l' a.
Proof.
  induction 1 as [|x l l' _ IH|x y l|l l' l'' _ IH1 _ IH2]; intro a; cbn [fold_left].
  - reflexivity.
  - apply IH.
  - f_equal. lia.
  - now rewrite IH1, IH2.
Qed.

Lemma scored_rel_paths (entries : list FileEntry) :
  map rel_path (_score_importance entries git) = map rel_path entries.
Proof. rewrite score_importance_map, map_map. now apply map_ext. Qed.

Lemma scored_lines (entries : list FileEntry) :
  map lines (_score_importance entries git) = map lines entries.
Proof. rewrite score_importance_map, map_map. now apply map_ext. Qed.

(** What [generate_json] returns, when it returns. *)
Lemma generate_json_Some (out : JsonMap) :
  generate_json unparse root tree git max_depth include_private exclude_tests = Some out ->
  exists apis,
    json_apis unparse root tree include_private
      (sorted importance_leb
         (_score_importance (discover_files root tree max_depth exclude_tests) git))
    = Some apis
    /\ j_entrypoints out
       = map rel_path
           (filter is_entrypoint
              (sorted importance_leb
                 (_score_importance (discover_files root tree max_depth exclude_tests) git)))
    /\ j_languages out
       = sorted_set
           (filter truthy
              (map language
                 (sorted importance_leb
                    (_score_importance (discover_files root tree max_depth exclude_tests)
                       git))))
    /\ j_files out
       = Z.of_nat
           (length
              (sorted importance_leb
                 (_score_importance (discover_files root tree max_depth exclude_tests) git)))
    /\ j_total_lines out
       = fold_left Z.add
           (map lines
              (sorted importance_leb
                 (_score_importance (discover_files root tree max_depth exclude_tests) git)))
           0%Z
    /\ j_file_tree out
       = map json_file
           (sorted importance_leb
              (_score_importance (discover_files root tree max_depth exclude_tests) git))
    /\ j_api out = json_api_array apis.
Proof.
  unfold generate_json.
  destruct (json_apis unparse root tree include_private _) as [apis|]; [|discriminate].
  intros [= <-]. exists apis. cbn. repeat split.
Qed.

(** X15.  When [generate_json] returns, the [file_tree] array lists the
    discovered files, each one once, in some order; [files] is their
    number and [total_lines] the sum of their line counts. *)
Theorem json_lists_discovered_files (out : JsonMap) :
  generate_json unparse root tree git max_depth include_private exclude_tests = Some out ->
  Permutation (map jf_path (j_file_tree out))
    (map rel_path (discover_files root tree max_depth exclude_tests))
  /\ j_files out = Z.of_nat (length (discover_files root tree max_depth exclude_tests))
  /\ j_total_lines out
     = fold_left Z.add (map lines (discover_files root tree max_depth exclude_tests)) 0%Z.
Proof.
  intro Hout. apply generate_json_Some in Hout.
  destruct Hout as (apis & _ & _ & _ & -> & -> & -> & _).
  set (found := discover_files root tree max_depth exclude_tests).
  pose proof (sorted_perm _ importance_leb (_score_importance found git)) as Hperm.
  split; [|split].
  - rewrite map_map.
    change (fun x => jf_path (json_file x)) with rel_path.
    rewrite <- (scored_rel_paths found). now apply Permutation_map.
  - f_equal. rewrite (Permutation_length Hperm), score_importance_map. apply length_map.
  - rewrite <- (scored_lines found).
    apply fold_left_add_perm. now apply Permutation_map.
Qed.

(** X16.  When [generate_json] returns, the [file_tree] array is ordered
    by importance, highest first, also after the rounding to three
    decimals. *)
Theorem json_file_tree_by_importance (out : JsonMap) :
  generate_json unparse root tree git max_depth include_private exclude_tests = Some out ->
  Sorted (fun a b => (jf_importance b <= jf_importance a)%Q) (j_file_tree out).
Proof.
  intro Hout. apply generate_json_Some in Hout.
  destruct Hout as (apis & _ & _ & _ & _ & _ & -> & _).
  apply Sorted_map_rel with (R := fun a b => importance_leb a b = true).
  - intros a b Hab. cbn [jf_importance json_file].
    apply round3_mono, importance_leb_ge, Hab.
  - apply sorted_Sorted, importance_leb_total.
Qed.

(** X17.  On a well-formed tree no path occurs twice in the [file_tree]
    that [generate_json] returns. *)
Theorem json_file_tree_paths_distinct (out : JsonMap) :
  well_formed tree ->
  generate_json unparse root tree git max_depth include_private exclude_tests = Some out ->
  NoDup (map jf_path (j_file_tree out)).
Proof.
  intros Hwf Hout. apply generate_json_Some in Hout.
  destruct Hout as (apis & _ & _ & _ & _ & _ & -> & _).
  rewrite map_map. change (fun x => jf_path (json_file x)) with rel_path.
  eapply Permutation_NoDup.
  - apply Permutation_sym, Permutation_map, sorted_perm.
  - rewrite scored_rel_paths. unfold discover_files.
    change root with (dir_path root []) at 2.
    apply walk_distinct; [exact Hwf | constructor].
Qed.

(** X18.  Every module of the [api] array that [generate_json] returns
    is a Python file of [file_tree] and has at least one function or
    class. *)
Theorem json_api_modules_are_listed (out : JsonMap) (m : JsonModule) :
  generate_json unparse root tree git max_depth include_private exclude_tests = Some out ->
  In m (j_api out) ->
  In (jm_module m) (map jf_path (j_file_tree out))
  /\ endswith (jm_module m) (py ".py") = true
  /\ (jm_functions m <> [] \/ jm_classes m <> []).
Proof.
  intros Hout Hm. apply generate_json_Some in Hout.
  destruct Hout as (apis & Hapis & _ & _ & _ & _ & -> & Hapi).
  rewrite Hapi in Hm. unfold json_api_array in Hm.
  apply in_map_iff in Hm. destruct Hm as (a & <- & Ha).
  apply filter_In in Ha. destruct Ha as [Ha Hhas].
  destruct (@in_json_apis unparse root tree include_private _ apis a Hapis Ha)
    as (e & api & He & Hpy & _ & ->).
  cbn [jm_module json_module api_path]. split; [|split].
  - rewrite map_map. apply in_map_iff. exists e. split; [reflexivity | exact He].
  - exact Hpy.
  - unfold has_api in Hhas. cbn [api_functions api_classes] in Hhas.
    cbn [jm_functions jm_classes json_module api_functions api_classes].
    destruct (api_functions api); destruct (api_classes api); cbn in Hhas |- *;
      try discriminate; [right | left | left]; discriminate.
Qed.

End JsonObject.

(* ------------------------------------------------------------------ *)
(** ** The budget of the narrative map *)

Section MapBudget.

Variable unparse : expr -> option str.
Variables (root : str) (tree : dir) (git : churn_source).
Variables (max_depth : Z) (include_private exclude_tests : bool).

Lemma dropwhile_keeps (f : char -> bool) (l : str) (c : char) :
  f c = false -> dropwhile f (l ++ [c]) <> [].
Proof.
  intro Hc. induction l as [|x l IH]; cbn [app dropwhile].
  - rewrite Hc. discriminate.
  - destruct (f x); [exact IH | discriminate].
Qed.

Lemma in_map_apis (entries : list FileEntry) (apis : list ModuleAPI) (a : ModuleAPI) :
  map_apis unparse root tree include_private entries = Some apis ->
  In a apis -> has_api a = true.
Proof.
  intros Hapis Ha. apply (proj1 (@in_gather _ _ _ _ _ a Hapis)) in Ha.
  destruct Ha as (e & found & _ & Hfound & Ha). unfold map_api_of in Hfound.
  destruct (endswith (rel_path e) (py ".py")); [|injection Hfound as <-; destruct Ha].
  destruct (extract_python_api unparse root tree (path e) include_private) as [[api|]|];
    [|injection Hfound as <-; destruct Ha|discriminate].
  injection Hfound as <-.
  destruct (has_api api) eqn:Hapi; [|destruct Ha].
  destruct Ha as [<-|[]]. exact Hapi.
Qed.

(** The API text of a non-empty list of modules does not strip to the
    empty string: it starts with a header line. *)
Lemma format_api_truthy (a : ModuleAPI) (apis : list ModuleAPI) :
  has_api a = true -> truthy (strip (_format_api (a :: apis))) = true.
Proof.
  intro Ha. unfold _format_api. cbn [flat_map]. unfold format_module at 1. rewrite Ha.
  cbn [negb].
  assert (Hstart : forall (h : str) (l : list str),
             exists t, join [newline] ((newline :: 35%N :: h) :: l) = newline :: 35%N :: t).
  { intros h l. destruct l; cbn [join app]; eexists; reflexivity. }
  match goal with
  | |- context [join [newline] (([?hd] ++ ?l1) ++ ?l2)] =>
      destruct (Hstart ([35; 35; 32]%N ++ api_path a) (l1 ++ l2)) as (t & Ht);
      change (join [newline] (([hd] ++ l1) ++ l2))
        with (join [newline] ((newline :: 35%N :: [35; 35; 32]%N ++ api_path a) :: l1 ++ l2))
  end.
  rewrite Ht. clear Ht Hstart.
  unfold strip, strip_by, lstrip_by, rstrip_by.
  change (dropwhile isspace (newline :: 35%N :: t)) with (35%N :: t).
  cbn [rev].
  assert (Hne : dropwhile isspace (rev t ++ [35%N]) <> [])
    by (apply dropwhile_keeps; reflexivity).
  match goal with
  | |- truthy (rev ?x) = true => destruct x as [|c s] eqn:E
  end.
  - exact (False_ind _ (Hne E)).
  - cbn [rev]. destruct (rev s); reflexivity.
Qed.

Lemma map_sections_with_api (entries : list FileEntry) (apis : list ModuleAPI)
      (sections : list str) :
  map_sections root max_depth entries apis = Some sections ->
  truthy (strip (_format_api apis)) = true ->
  existsb (fun section => startswith section (py "## Public API")) sections = true.
Proof.
  unfold map_sections. intros Hs Hapi. rewrite Hapi in Hs.
  destruct (_format_tree entries max_depth) as [tree_text|]; [|discriminate].
  match type of Hs with
  | Some ?l = Some _ =>
      assert (Hex : existsb (fun section => startswith section (py "## Public API")) l = true)
  end.
  { rewrite !existsb_app. apply orb_true_iff. right.
    apply orb_true_iff. right. apply orb_true_iff. right.
    apply orb_true_iff. right. apply orb_true_iff. left. reflexivity. }
  injection Hs as <-. exact Hex.
Qed.

(** With a Python file that has something to show, the sections of the
    map hold the Public API section, whatever the budget. *)
Lemma map_with_api_sections (e : FileEntry) (api : ModuleAPI) (token_budget : option Z)
      (text : str) :
  In e (discover_files root tree max_depth exclude_tests) ->
  endswith (rel_path e) (py ".py") = true ->
  extract_python_api unparse root tree (path e) include_private = Some (Some api) ->
  has_api api = true ->
  generate_map unparse root tree git max_depth include_private token_budget exclude_tests
  = Some text ->
  exists sections,
    existsb (fun section => startswith section (py "## Public API")) sections = true
    /\ text = trim_to_budget sections (join [newline] sections) token_budget
    /\ generate_map unparse root tree git max_depth include_private None exclude_tests
       = Some (join [newline] sections).
Proof.
  intros Hin Hpy Hext Hapi Hmap. unfold generate_map in *.
  destruct (@ranked_entries_keep root tree git max_depth exclude_tests e Hin)
    as (s & Hs & Hp & Hr).
  destruct (discover_files root tree max_depth exclude_tests) as [|e0 found] eqn:Hfound;
    [destruct Hin|].
  set (ranked := sorted importance_leb (_score_importance (e0 :: found) git)) in *.
  destruct (map_apis unparse root tree include_private ranked) as [all|] eqn:Hall;
    [|discriminate].
  assert (Hne : exists a apis, all = a :: apis /\ has_api a = true).
  { destruct all as [|a apis].
    - exfalso.
      assert (Hmem : In (mk_ModuleAPI (rel_path s) (api_docstring api) (api_functions api)
                           (api_classes api) (api_imports api) (api_exports api))
                        (@nil ModuleAPI)).
      { apply (proj2 (@in_gather _ _ _ _ _ _ Hall)).
        exists s, [mk_ModuleAPI (rel_path s) (api_docstring api) (api_functions api)
                     (api_classes api) (api_imports api) (api_exports api)].
        split; [exact Hs|]. split; [|now left].
        unfold map_api_of. rewrite Hr, Hpy, Hp, Hext, Hapi. reflexivity. }
      destruct Hmem.
    - exists a, apis. split; [reflexivity|].
      apply (in_map_apis ranked (a :: apis) a Hall). now left. }
  destruct Hne as (a & apis & -> & Ha).
  destruct (map_sections root max_depth ranked (a :: apis)) as [sections|] eqn:Hsec;
    [|discriminate].
  injection Hmap as <-. exists sections. split; [|split; reflexivity].
  exact (map_sections_with_api ranked (a :: apis) sections Hsec (format_api_truthy a apis Ha)).
Qed.

(** X19.  When at least one discovered Python file has a function or a
    class to show, a positive token budget bounds the narrative map: four
    characters per token, plus the 37 characters of the truncation
    marker. *)
Theorem budget_bounds_map_with_api (budget : Z) (text : str) (e : FileEntry) (api : ModuleAPI) :
  (0 < budget)%Z ->
  In e (discover_files root tree max_depth exclude_tests) ->
  endswith (rel_path e) (py ".py") = true ->
  extract_python_api unparse root tree (path e) include_private = Some (Some api) ->
  has_api api = true ->
  generate_map unparse root tree git max_depth include_private (Some budget) exclude_tests
  = Some text ->
  (Z.of_nat (length text) <= 4 * budget + 37)%Z.
Proof.
  intros Hpos Hin Hpy Hext Hapi Hmap.
  destruct (map_with_api_sections e api (Some budget) text Hin Hpy Hext Hapi Hmap)
    as (sections & Hhas & -> & _).
  exact (@trim_to_budget_bound sections budget Hpos Hhas).
Qed.

(** X26.  A negative token budget does not bound the map: with a Public
    API section the code slices with the negative bound, which drops the
    last 4 * |budget| characters of the untrimmed map, and appends the
    truncation marker. *)
Theorem negative_budget_cuts_the_tail
        (budget : Z) (text : str) (e : FileEntry) (api : ModuleAPI) :
  (budget < 0)%Z ->
  In e (discover_files root tree max_depth exclude_tests) ->
  endswith (rel_path e) (py ".py") = true ->
  extract_python_api unparse root tree (path e) include_private = Some (Some api) ->
  has_api api = true ->
  generate_map unparse root tree git max_depth include_private (Some budget) exclude_tests
  = Some text ->
  exists full,
    generate_map unparse root tree git max_depth include_private None exclude_tests
    = Some full
    /\ text = firstn (length full - Z.to_nat (4 * - budget)) full ++ TRUNCATION_MARKER.
Proof.
  intros Hneg Hin Hpy Hext Hapi Hmap.
  destruct (map_with_api_sections e api (Some budget) text Hin Hpy Hext Hapi Hmap)
    as (sections & Hhas & -> & Hfull).
  exists (join [newline] sections). split; [exact Hfull|].
  unfold trim_to_budget, CHARS_PER_TOKEN. rewrite Hhas.
  set (output := join [newline] sections).
  destruct (Z.eqb_spec budget 0) as [|_]; [lia|].
  assert (Hdiv : (0 <= Z.of_nat (length output) / 4)%Z) by (apply Z.div_pos; lia).
  rewrite (proj2 (Z.gtb_lt _ _)) by lia.
  rewrite (proj2 (Z.gtb_lt _ _)) by lia.
  unfold slice_to, index_of.
  destruct (Z.leb_spec 0 (budget * 4)) as [|_]; [lia|].
  do 3 f_equal. lia.
Qed.

End MapBudget.

(* ------------------------------------------------------------------ *)
(** ** The tree of the narrative map *)

Section TreeBuilding.

Local Open Scope nat_scope.

Lemma has_file_nil (p : list str) : ~ has_file [] p.
Proof. intro H. inversion H; subst; discriminate. Qed.

(** Where [tree_insert] raises, a file of the tree stands on the way. *)
Lemma tree_insert_None (dirs : list str) (leaf : str) (entry : FileEntry) :
  forall node, tree_insert node dirs leaf entry = None ->
    exists p rest, dirs = p ++ rest /\ has_file node p.
Proof.
  induction dirs as [|part dirs IH]; intros node H; cbn [tree_insert] in H; [discriminate|].
  destruct (Dict.get node part) as [[e|sub]|] eqn:Hget.
  - exists [part], dirs. split; [reflexivity|]. now apply has_file_here with e.
  - destruct (tree_insert sub dirs leaf entry) eqn:E; [discriminate|].
    destruct (IH sub E) as (p & rest & -> & Hp).
    exists (part :: p), rest. split; [reflexivity|]. now apply has_file_below with sub.
  - destruct (tree_insert [] dirs leaf entry) eqn:E; [discriminate|].
    destruct (IH [] E) as (p & rest & _ & Hp). now apply has_file_nil in Hp.
Qed.

(** [tree_insert] adds one file and no other. *)
Lemma tree_insert_Some (dirs : list str) (leaf : str) (entry : FileEntry) :
  forall node node' p,
    tree_insert node dirs leaf entry = Some node' ->
    has_file node' p -> has_file node p \/ p = dirs ++ [leaf].
Proof.
  induction dirs as [|part dirs IH]; intros node node' p H Hp; cbn [tree_insert] in H.
  - injection H as <-. cbn [app].
    inversion Hp as [? name e Hget | ? sub name rest Hget Hsub]; subst.
    + destruct (str_eqb leaf name) eqn:E.
      * apply str_eqb_eq in E. subst. now right.
      * apply str_eqb_neq in E. rewrite (dict_get_set_other _ node leaf name _ E) in Hget.
        left. now apply has_file_here with e.
    + destruct (str_eqb leaf name) eqn:E.
      * apply str_eqb_eq in E. subst.
        rewrite dict_get_set_same in Hget. discriminate.
      * apply str_eqb_neq in E. rewrite (dict_get_set_other _ node leaf name _ E) in Hget.
        left. now apply has_file_below with sub.
  - assert (Hstep : forall sub sub',
               (Dict.get node part = Some (TDir sub) \/ (Dict.get node part = None /\ sub = [])) ->
               tree_insert sub dirs leaf entry = Some sub' ->
               node' = Dict.set node part (TDir sub') ->
               has_file node p \/ p = (part :: dirs) ++ [leaf]).
    { intros sub sub' Hsub E ->.
      inversion Hp as [? name e Hget | ? sub0 name rest Hget Hrest]; subst.
      - destruct (str_eqb part name) eqn:En.
        + apply str_eqb_eq in En. subst.
          rewrite dict_get_set_same in Hget. discriminate.
        + apply str_eqb_neq in En.
          rewrite (dict_get_set_other _ node part name _ En) in Hget.
          left. now apply has_file_here with e.
      - destruct (str_eqb part name) eqn:En.
        + apply str_eqb_eq in En. subst.
          rewrite dict_get_set_same in Hget. injection Hget as <-.
          destruct (IH sub sub' rest E Hrest) as [Hold| ->].
          * destruct Hsub as [Hsub|[_ ->]].
            -- left. now apply has_file_below with sub.
            -- now apply has_file_nil in Hold.
          * now right.
        + apply str_eqb_neq in En.
          rewrite (dict_get_set_other _ node part name _ En) in Hget.
          left. now apply has_file_below with sub0. }
    destruct (Dict.get node part) as [[e|sub]|] eqn:Hget; [discriminate| |].
    + destruct (tree_insert sub dirs leaf entry) as [sub'|] eqn:E; [|discriminate].
      injection H as <-. apply (Hstep sub sub'); auto.
    + destruct (tree_insert [] dirs leaf entry) as [sub'|] eqn:E; [|discriminate].
      injection H as <-. apply (Hstep [] sub'); auto.
Qed.

Lemma parts_removelast_last (e : FileEntry) :
  removelast (parts_of e) ++ [last (parts_of e) []] = parts_of e.
Proof. symmetry. apply app_removelast_last, split_not_nil. Qed.

(** The loop of [_format_tree] over entries none of which stands in the
    way of another. *)
Lemma tree_add_fold (entries : list FileEntry) (max_depth : Z) :
  files_are_leaves entries ->
  forall (l : list FileEntry) (node : Dict.dict tnode),
    (forall e, In e l -> In e entries) ->
    (forall p, has_file node p -> exists e, In e entries /\ parts_of e = p) ->
    fold_left (tree_add max_depth) l (Some node) <> None.
Proof.
  intros Hleaves. induction l as [|x l IH]; intros node Hl Hinv; cbn [fold_left].
  - discriminate.
  - cbn [tree_add]. fold (parts_of x).
    destruct (Z.of_nat (length (parts_of x)) >? max_depth + 1)%Z.
    + apply IH; [intros e He; apply Hl; now right | exact Hinv].
    + destruct (tree_insert node (removelast (parts_of x)) (last (parts_of x) []) x)
        as [node'|] eqn:E.
      * apply IH; [intros e He; apply Hl; now right|].
        intros p Hp. destruct (tree_insert_Some _ _ _ _ _ _ E Hp) as [Hold| ->].
        -- now apply Hinv.
        -- exists x. split; [apply Hl; now left | symmetry; apply parts_removelast_last].
      * exfalso. destruct (tree_insert_None _ _ _ _ E) as (p & rest & Hdirs & Hp).
        destruct (Hinv p Hp) as (e & He & Hparts).
        apply (Hleaves e x He (Hl x (or_introl eq_refl))).
        exists (rest ++ [last (parts_of x) []]). split.
        -- destruct rest; discriminate.
        -- rewrite Hparts, app_assoc, <- Hdirs. symmetry. apply parts_removelast_last.
Qed.

Lemma format_tree_of_leaves (entries : list FileEntry) (max_depth : Z) :
  files_are_leaves entries -> _format_tree entries max_depth <> None.
Proof.
  intro Hleaves. unfold _format_tree.
  destruct (fold_left (tree_add max_depth) (sorted entry_path_leb entries) (Some []))
    as [tree|] eqn:E; [discriminate|].
  exfalso. revert E. apply (tree_add_fold entries max_depth Hleaves).
  - intros e He. now apply in_sorted in He.
  - intros p Hp. now apply has_file_nil in Hp.
Qed.

(** X20.  [_format_tree] returns its text whenever no entry stands where
    another entry needs a directory. *)
Theorem format_tree_returns (entries : list FileEntry) (max_depth : Z) :
  files_are_leaves entries ->
  exists text, _format_tree entries max_depth = Some text.
Proof.
  intro Hleaves. pose proof (format_tree_of_leaves entries max_depth Hleaves) as Hsome.
  destruct (_format_tree entries max_depth) as [text|]; [|congruence].
  exists text. reflexivity.
Qed.

End TreeBuilding.

(* ------------------------------------------------------------------ *)
(** ** The narrative map of a file-system tree *)

Section MapReturns.

Local Open Scope nat_scope.

Variable unparse : expr -> option str.
Variables (root : str) (tree : dir) (git : churn_source).
Variables (max_depth : Z) (include_private exclude_tests : bool).













End MapReturns.

(* ------------------------------------------------------------------ *)
(** ** Summaries, line counts and the dependency digest *)

Section Digest.

Local Open Scope nat_scope.

Lemma filter_map_comm (A B : Type) (p : B -> bool) (g : A -> B) (l : list A) :
  filter p (map g l) = map g (filter (fun x => p (g x)) l).
Proof.
  induction l as [|x l IH]; cbn [map filter]; [reflexivity|].
  destruct (p (g x)); cbn [map]; now rewrite IH.
Qed.

Lemma dedup_keeps (l : list str) (x : str) : In x l -> In x (dedup l).
Proof.
  induction l as [|y l IH]; cbn [dedup]; [tauto|].
  intros [->|Hx].
  - destruct (mem x l) eqn:E; [apply IH; now apply mem_in | now left].
  - destruct (mem y l); [|right]; now apply IH.
Qed.

(** X23.  The summary fields of the JSON object that [generate_json]
    returns agree with its [file_tree]: [entrypoints] are the paths of
    its flagged entries, in its order; [languages] are the languages of
    its entries, the empty one left out, sorted and without
    repetition. *)
Theorem json_summaries_agree_with_file_tree
        (unparse : expr -> option str) (root : str) (tree : dir) (git : churn_source)
        (max_depth : Z) (include_private exclude_tests : bool) (out : JsonMap) :
  generate_json unparse root tree git max_depth include_private exclude_tests = Some out ->
  j_entrypoints out = map jf_path (filter jf_entrypoint (j_file_tree out))
  /\ Sorted (fun a b => str_leb a b = true) (j_languages out)
  /\ NoDup (j_languages out)
  /\ (forall l, In l (j_languages out)
                <-> l <> [] /\ In l (map jf_language (j_file_tree out))).
Proof.
  intro Hout. apply generate_json_Some in Hout.
  destruct Hout as (apis & _ & -> & -> & _ & _ & -> & _).
  set (ranked := sorted importance_leb _).
  split; [|split; [|split]].
  - rewrite filter_map_comm, map_map. reflexivity.
  - apply sorted_Sorted, str_leb_total.
  - eapply Permutation_NoDup; [apply Permutation_sym, sorted_perm | apply dedup_NoDup].
  - intro l. rewrite map_map. change (fun x => jf_language (json_file x)) with language.
    unfold sorted_set. rewrite in_sorted. split.
    + intro Hl. apply in_dedup, filter_In in Hl. destruct Hl as [Hl Ht].
      split; [|exact Hl]. intros ->. discriminate.
    + intros [Hne Hl]. apply dedup_keeps, filter_In. split; [exact Hl|].
      destruct l; [congruence | reflexivity].
Qed.

Lemma startswith_rev_last (s : str) (c : char) :
  s <> [] -> startswith (rev s) [c] = N.eqb (last s 0%N) c.
Proof.
  intro Hs. destruct (exists_last Hs) as (s' & x & ->).
  rewrite rev_app_distr, last_last. cbn [rev app startswith].
  destruct (N.eqb x c); destruct (rev s'); reflexivity.
Qed.

Lemma iter_lines_from_length (s : str) :
  forall cur,
    length (iter_lines_from cur s)
    = count_char newline s
      + (if match s with
            | [] => is_empty cur
            | _ :: _ => N.eqb (last s 0%N) newline
            end
         then 0 else 1).
Proof.
  unfold count_char.
  induction s as [|c s IH]; intro cur; cbn [iter_lines_from count_occ].
  - now destruct cur.
  - destruct (N.eqb_spec c newline) as [->|Hc].
    + destruct (N.eq_dec newline newline) as [_|]; [|congruence].
      cbn [length]. rewrite IH. destruct s; cbn [is_empty last]; [|lia].
      rewrite N.eqb_refl. lia.
    + destruct (N.eq_dec c newline) as [|_]; [congruence|].
      rewrite IH. destruct s; cbn [is_empty last]; [|lia].
      now rewrite (proj2 (N.eqb_neq c newline) Hc).
Qed.

(** X24.  The line count of a readable file is the number of its line
    feeds, plus one for a last line that does not end in a line feed; a
    file that cannot be opened counts zero lines. *)
Theorem line_count_counts_line_feeds (f : file) (t : str) :
  f_text f = Some t ->
  count_lines f
  = (Z.of_nat (count_char newline t)
     + (if is_empty t || endswith t [newline] then 0 else 1))%Z.
Proof.
  intro Ht. unfold count_lines, iter_lines. rewrite Ht, iter_lines_from_length.
  destruct t as [|c t]; [reflexivity|].
  unfold endswith. cbn [is_empty orb].
  change (rev [newline]) with [newline].
  rewrite (startswith_rev_last (c :: t) newline) by discriminate.
  destruct (N.eqb (last (c :: t) 0%N) newline); lia.
Qed.

Lemma dict_set_not_nil (V : Type) (d : Dict.dict V) (k : str) (v : V) : Dict.set d k v <> [].
Proof.
  destruct d as [|[k' v'] d]; cbn [Dict.set]; [discriminate|].
  destruct (str_eqb k' k); discriminate.
Qed.

Lemma count_imports_nil (imports : list str) :
  forall acc,
    fold_left count_import imports acc = []
    <-> acc = [] /\ Forall (fun i => mem i stdlib = true) imports.
Proof.
  induction imports as [|i imports IH]; intro acc; cbn [fold_left].
  - split; [intro H; split; [exact H | constructor] | tauto].
  - rewrite IH. unfold count_import. destruct (mem i stdlib) eqn:E.
    + split; intros [Ha Hf]; (split; [exact Ha|]).
      * now constructor.
      * now inversion Hf.
    + split; intros [Ha Hf].
      * now apply dict_set_not_nil in Ha.
      * inversion Hf; congruence.
Qed.

Lemma import_counts_nil (apis : list ModuleAPI) :
  import_counts apis = [] <-> standard_imports apis.
Proof.
  unfold import_counts, standard_imports.
  assert (H : forall acc,
             fold_left (fun all_imports api =>
                          fold_left count_import (api_imports api) all_imports) apis acc = []
             <-> acc = []
                 /\ Forall (fun a => Forall (fun i => mem i stdlib = true) (api_imports a)) apis).
  { induction apis as [|a apis IH]; intro acc; cbn [fold_left].
    - split; [intro H; split; [exact H | constructor] | tauto].
    - rewrite IH, count_imports_nil. split.
      + intros [[Ha Hi] Hf]. split; [exact Ha | now constructor].
      + intros [Ha Hf]. inversion Hf; subst. tauto. }
  rewrite H. tauto.
Qed.

Lemma deps_sentence_iff (apis : list ModuleAPI) :
  _format_deps apis = py "No third-party dependencies detected."
  <-> standard_imports apis.
Proof.
  rewrite <- import_counts_nil. unfold _format_deps.
  destruct (import_counts apis) as [|kv rest] eqn:E.
  - split; reflexivity.
  - split; [|discriminate]. intro H. exfalso.
    pose proof (sorted_perm _ dep_leb (kv :: rest)) as Hperm.
    destruct (sorted dep_leb (kv :: rest)) as [|dc more] eqn:Es.
    + apply Permutation_nil in Hperm. discriminate.
    + cbn [map join] in H.
      change (py "  ") with [32%N; 32%N] in H.
      change (py "No third-party dependencies detected.")
        with (78%N :: py "o third-party dependencies detected.") in H.
      match type of H with
      | match ?m with _ => _ end = _ => destruct m
      end; cbn [app] in H; discriminate H.
Qed.

Lemma dep_leb_total (a b : str * Z) : dep_leb a b = true \/ dep_leb b a = true.
Proof. unfold dep_leb. destruct (Z.leb_spec (- snd a) (- snd b)); [now left | right]. lia. Qed.

(** X25.  The dependency digest is the sentence about no third-party
    dependencies exactly when every import of every module is one of
    the listed standard-library modules.  Otherwise it is the indented
    list: one line for each counted package, with its count, the
    packages in the order of decreasing counts. *)
Theorem deps_digest_sentence_or_list (apis : list ModuleAPI) :
  (_format_deps apis = py "No third-party dependencies detected."
   <-> standard_imports apis)
  /\ (~ standard_imports apis ->
      exists deps,
        Permutation deps (import_counts apis)
        /\ Sorted (fun a b => (snd b <= snd a)%Z) deps
        /\ _format_deps apis
           = join [newline] (map (fun dc => dep_line (fst dc) (snd dc)) deps)).
Proof.
  split; [apply deps_sentence_iff|].
  intro Hnot. exists (sorted dep_leb (import_counts apis)). split; [|split].
  - apply sorted_perm.
  - rewrite <- (map_id (sorted dep_leb (import_counts apis))).
    apply Sorted_map_rel with (R := fun a b => dep_leb a b = true).
    + intros a b Hab. unfold dep_leb in Hab. apply Z.leb_le in Hab. lia.
    + apply sorted_Sorted, dep_leb_total.
  - unfold _format_deps.
    destruct (import_counts apis) as [|kv rest] eqn:E; [|reflexivity].
    exfalso. apply Hnot, import_counts_nil, E.
Qed.

End Digest.

(* ------------------------------------------------------------------ *)
(** ** The two outputs side by side *)

Section TwoOutputs.

Variable unparse : expr -> option str.
Variables (root : str) (tree : dir) (git : churn_source).
Variables (max_depth : Z) (include_private exclude_tests : bool).

Lemma map_api_of_filter (e : FileEntry) :
  map_api_of unparse root tree include_private e
  = option_map (filter has_api) (json_api_of unparse root tree include_private e).
Proof.
  unfold map_api_of, json_api_of.
  destruct (endswith (rel_path e) (py ".py")); [|reflexivity].
  destruct (extract_python_api unparse root tree (path e) include_private) as [[api|]|];
    reflexivity.
Qed.

Lemma map_apis_filter (entries : list FileEntry) :
  map_apis unparse root tree include_private entries
  = option_map (filter has_api) (json_apis unparse root tree include_private entries).
Proof.
  unfold map_apis, json_apis.
  induction entries as [|e entries IH]; cbn [gather option_map]; [reflexivity|].
  rewrite IH, map_api_of_filter.
  destruct (json_api_of unparse root tree include_private e) as [found|];
    cbn [option_map]; [|reflexivity].
  destruct (gather (json_api_of unparse root tree include_private) entries) as [more|];
    cbn [option_map]; [|reflexivity].
  now rewrite filter_app.
Qed.

(** X27.  The two outputs show the same modules: the [api] array of the
    JSON object holds, in the same order, the modules that the Public
    API section of the narrative map is made of; and the extraction
    loop of the one output raises exactly when that of the other
    does. *)
Theorem json_api_matches_map_api :
  option_map j_api
    (generate_json unparse root tree git max_depth include_private exclude_tests)
  = option_map (map json_module)
      (map_apis unparse root tree include_private
         (sorted importance_leb
            (_score_importance (discover_files root tree max_depth exclude_tests) git))).
Proof.
  unfold generate_json. rewrite map_apis_filter.
  now destruct (json_apis unparse root tree include_private _).
Qed.

End TwoOutputs.

(* ------------------------------------------------------------------ *)
(** ** The further properties at work on the example project *)

Section FurtherExamples.

Local Open Scope nat_scope.

Ltac listed := vm_compute; repeat (try (left; reflexivity); right).



(** [main.py] of the example lists [run] and [Thing], not [_helper]. *)
Lemma api_lists_visible_definitions_witness :
  exists api,
    extract_python_api Demo.unparse Demo.root Demo.tree (py "/home/p/main.py") false
    = Some (Some api)
    /\ open_ Demo.root Demo.tree (py "/home/p/main.py") = Some Demo.main_py
    /\ f_ast Demo.main_py = Parsed (Module_ Demo.main_body)
    /\ map fs_name (api_functions api) = [py "run"]
    /\ map cs_name (api_classes api) = [py "Thing"].
Proof.
  eexists. split; [reflexivity|]. split; [reflexivity|]. split; [reflexivity|].
  exact (api_lists_visible_definitions Demo.unparse false Demo.root Demo.tree
           (py "/home/p/main.py") _ Demo.main_py Demo.main_body eq_refl eq_refl eq_refl).
Defined.

(** The class [Thing] of the example: [go] is its one listed method. *)
Lemma class_methods_listed_witness :
  exists api cls,
    extract_python_api Demo.unparse Demo.root Demo.tree (py "/home/p/main.py") false
    = Some (Some api)
    /\ In cls (api_classes api)
    /\ cs_name cls = py "Thing"
    /\ map fs_name (cs_methods cls) = [py "go"]
    /\ exists bases cbody f body,
         open_ Demo.root Demo.tree (py "/home/p/main.py") = Some f
         /\ f_ast f = Parsed (Module_ body)
         /\ In (ClassDef (cs_name cls) bases cbody) body
         /\ map fs_name (cs_methods cls)
            = filter (listed_method false) (function_names cbody)
         /\ Forall (fun m => fs_class_name m = cs_name cls) (cs_methods cls).
Proof.
  eexists. eexists. split; [reflexivity|]. split; [left; reflexivity|].
  split; [reflexivity|]. split; [reflexivity|].
  exact (class_methods_listed Demo.unparse false Demo.root Demo.tree
           (py "/home/p/main.py") _ _ eq_refl (or_introl eq_refl)).
Defined.

(** [import os.path, requests] of the example. *)
Lemma api_imports_sorted_distinct_witness :
  exists api,
    extract_python_api Demo.unparse Demo.root Demo.tree (py "/home/p/main.py") false
    = Some (Some api)
    /\ api_imports api = [py "os"; py "requests"]
    /\ Sorted (fun a b => str_leb a b = true) (api_imports api)
    /\ NoDup (api_imports api)
    /\ Forall (fun i => ~ In OsPath.extsep i) (api_imports api).
Proof.
  eexists. split; [reflexivity|]. split; [reflexivity|].
  exact (api_imports_sorted_distinct Demo.unparse false Demo.root Demo.tree
           (py "/home/p/main.py") _ eq_refl).
Defined.

Lemma relative_paths_unique_witness :
  well_formed Demo.tree
  /\ NoDup (map rel_path (discover_files Demo.root Demo.tree 10 false)).
Proof.
  split; [exact demo_well_formed|].
  exact (relative_paths_unique Demo.root 10%Z false Demo.tree demo_well_formed).
Defined.

Lemma path_is_root_joined_with_rel_path_witness :
  well_formed Demo.tree
  /\ In Demo.index_entry (discover_files Demo.root Demo.tree 10 false)
  /\ OsPath.join2 Demo.root (rel_path Demo.index_entry) = path Demo.index_entry.
Proof.
  assert (Hin : In Demo.index_entry (discover_files Demo.root Demo.tree 10 false))
    by listed.
  split; [exact demo_well_formed|]. split; [exact Hin|].
  exact (path_is_root_joined_with_rel_path Demo.root 10%Z false Demo.tree Demo.index_entry
           demo_well_formed Hin).
Defined.

Lemma language_from_file_name_witness :
  well_formed Demo.tree
  /\ In Demo.index_entry (discover_files Demo.root Demo.tree 10 false)
  /\ OsPath.basename (path Demo.index_entry) = OsPath.basename (rel_path Demo.index_entry)
  /\ language Demo.index_entry = _detect_language (rel_path Demo.index_entry).
Proof.
  assert (Hin : In Demo.index_entry (discover_files Demo.root Demo.tree 10 false))
    by listed.
  split; [exact demo_well_formed|]. split; [exact Hin|].
  exact (language_from_file_name Demo.root 10%Z false Demo.tree Demo.index_entry
           demo_well_formed Hin).
Defined.

(** [main.py] is found at depth 0 and at depth 10. *)
Lemma deeper_walk_keeps_entries_witness :
  (0 <= 10)%Z
  /\ In Demo.main_entry (discover_files Demo.root Demo.tree 0 false)
  /\ In Demo.main_entry (discover_files Demo.root Demo.tree 10 false).
Proof.
  assert (Hle : (0 <= 10)%Z) by lia.
  assert (Hin : In Demo.main_entry (discover_files Demo.root Demo.tree 0 false))
    by listed.
  split; [exact Hle|]. split; [exact Hin|].
  exact (deeper_walk_keeps_entries Demo.root 0%Z false Demo.tree 10%Z Demo.main_entry
           Hle Hin).
Defined.

Lemma negative_depth_finds_nothing_witness :
  (-1 < 0)%Z
  /\ discover_files Demo.root Demo.tree (-1) false = []
  /\ generate_map Demo.unparse Demo.root Demo.tree Demo.git_log (-1) false None false
     = Some (py "No files found.").
Proof.
  assert (Hneg : (-1 < 0)%Z) by lia.
  split; [exact Hneg|].
  exact (negative_depth_finds_nothing Demo.root (-1)%Z false Demo.unparse Demo.tree
           Demo.git_log false None Hneg).
Defined.

(** The change log of the example names [main.py] twice. *)
Lemma churn_counts_log_lines_witness :
  Dict.get (churn_of Demo.git_log) (py "main.py") = Some 2%Z
  /\ py "main.py" <> []
  /\ Dict.get (churn_of None) (py "main.py") = None.
Proof.
  assert (Hne : py "main.py" <> []) by discriminate.
  destruct (churn_counts_log_lines
              (py "main.py" ++ [newline] ++ py "web/index.js" ++ [newline] ++ py "main.py"
               ++ [newline])
              (py "main.py") Hne) as [Hlog Hnone].
  split; [exact Hlog|]. split; [exact Hne | exact Hnone].
Defined.

(** One module of the example imports [requests]; [os] is not counted. *)
Lemma import_counts_modules_witness :
  exists apis,
    map_apis Demo.unparse Demo.root Demo.tree false
      (discover_files Demo.root Demo.tree 10 false) = Some apis
    /\ Forall (fun a => NoDup (api_imports a)) apis
    /\ Dict.get (import_counts apis) (py "requests") = Some 1%Z
    /\ Dict.get (import_counts apis) (py "os") = None.
Proof.
  eexists. split; [vm_compute; reflexivity|].
  match goal with
  | |- Forall ?P ?apis /\ _ =>
      assert (Hnd : Forall P apis)
        by (repeat constructor; cbn [In]; intuition discriminate)
  end.
  split; [exact Hnd|]. split.
  - exact (import_counts_modules _ (py "requests") Hnd).
  - exact (import_counts_modules _ (py "os") Hnd).
Defined.

(** [main.py] against [notes.xyz] in the example. *)
Lemma main_file_outranks_plain_file_witness :
  Forall lines_counted (discover_files Demo.root Demo.tree 10 false)
  /\ nth_error (discover_files Demo.root Demo.tree 10 false) 2 = Some Demo.main_entry
  /\ nth_error (discover_files Demo.root Demo.tree 10 false) 3 = Some Demo.notes_entry
  /\ (is_entrypoint Demo.main_entry = true /\ source_language Demo.main_entry = true
      /\ at_root Demo.main_entry = true)
  /\ (is_entrypoint Demo.notes_entry = false /\ source_language Demo.notes_entry = false
      /\ build_language Demo.notes_entry = false)
  /\ exists s1 s2,
       nth_error (_score_importance (discover_files Demo.root Demo.tree 10 false)
                    Demo.git_log) 2 = Some s1
       /\ nth_error (_score_importance (discover_files Demo.root Demo.tree 10 false)
                       Demo.git_log) 3 = Some s2
       /\ (importance s2 < importance s1)%Q.
Proof.
  assert (H2 : nth_error (discover_files Demo.root Demo.tree 10 false) 2
               = Some Demo.main_entry) by (vm_compute; reflexivity).
  assert (H3 : nth_error (discover_files Demo.root Demo.tree 10 false) 3
               = Some Demo.notes_entry) by (vm_compute; reflexivity).
  split; [exact demo_lines_counted|]. split; [exact H2|]. split; [exact H3|].
  split; [split; [reflexivity | split; reflexivity]|].
  split; [split; [reflexivity | split; reflexivity]|].
  exact (main_file_outranks_plain_file (discover_files Demo.root Demo.tree 10 false)
           Demo.git_log 2 3 Demo.main_entry Demo.notes_entry demo_lines_counted H2 H3
           eq_refl eq_refl eq_refl eq_refl eq_refl eq_refl).
Defined.

Lemma json_lists_discovered_files_witness :
  exists out,
    generate_json Demo.unparse Demo.root Demo.tree Demo.git_log 10 false false = Some out
    /\ Permutation (map jf_path (j_file_tree out))
         (map rel_path (discover_files Demo.root Demo.tree 10 false))
    /\ j_files out = 5%Z
    /\ j_total_lines out = 6%Z.
Proof.
  destruct (generate_json Demo.unparse Demo.root Demo.tree Demo.git_log 10 false false)
    as [out|] eqn:Hout; [|vm_compute in Hout; discriminate].
  exists out. split; [reflexivity|].
  exact (json_lists_discovered_files Demo.unparse Demo.root Demo.tree Demo.git_log 10%Z
           false false out Hout).
Defined.

Lemma json_file_tree_by_importance_witness :
  exists out,
    generate_json Demo.unparse Demo.root Demo.tree Demo.git_log 10 false false = Some out
    /\ Sorted (fun a b => (jf_importance b <= jf_importance a)%Q) (j_file_tree out).
Proof.
  destruct (generate_json Demo.unparse Demo.root Demo.tree Demo.git_log 10 false false)
    as [out|] eqn:Hout; [|vm_compute in Hout; discriminate].
  exists out. split; [reflexivity|].
  exact (json_file_tree_by_importance Demo.unparse Demo.root Demo.tree Demo.git_log 10%Z
           false false out Hout).
Defined.

Lemma json_file_tree_paths_distinct_witness :
  well_formed Demo.tree
  /\ exists out,
       generate_json Demo.unparse Demo.root Demo.tree Demo.git_log 10 false false = Some out
       /\ NoDup (map jf_path (j_file_tree out)).
Proof.
  split; [exact demo_well_formed|].
  destruct (generate_json Demo.unparse Demo.root Demo.tree Demo.git_log 10 false false)
    as [out|] eqn:Hout; [|vm_compute in Hout; discriminate].
  exists out. split; [reflexivity|].
  exact (json_file_tree_paths_distinct Demo.unparse Demo.root Demo.tree Demo.git_log 10%Z
           false false out demo_well_formed Hout).
Defined.

(** The one module of the [api] array of the example is [main.py]. *)
Lemma json_api_modules_are_listed_witness :
  exists out m,
    generate_json Demo.unparse Demo.root Demo.tree Demo.git_log 10 false false = Some out
    /\ (In m (j_api out) /\ jm_module m = py "main.py")
    /\ In (jm_module m) (map jf_path (j_file_tree out))
    /\ endswith (jm_module m) (py ".py") = true
    /\ (jm_functions m <> [] \/ jm_classes m <> []).
Proof.
  eexists. eexists. split; [vm_compute; reflexivity|].
  split; [split; [left; reflexivity | reflexivity]|].
  apply (json_api_modules_are_listed Demo.unparse Demo.root Demo.tree Demo.git_log 10%Z
           false false); [vm_compute; reflexivity | left; reflexivity].
Defined.

Lemma json_summaries_agree_with_file_tree_witness :
  exists out,
    generate_json Demo.unparse Demo.root Demo.tree Demo.git_log 10 false false = Some out
    /\ j_entrypoints out = map jf_path (filter jf_entrypoint (j_file_tree out))
    /\ Sorted (fun a b => str_leb a b = true) (j_languages out)
    /\ NoDup (j_languages out)
    /\ (forall l, In l (j_languages out)
                  <-> l <> [] /\ In l (map jf_language (j_file_tree out))).
Proof.
  destruct (generate_json Demo.unparse Demo.root Demo.tree Demo.git_log 10 false false)
    as [out|] eqn:Hout; [|vm_compute in Hout; discriminate].
  exists out. split; [reflexivity|].
  exact (json_summaries_agree_with_file_tree Demo.unparse Demo.root Demo.tree Demo.git_log
           10%Z false false out Hout).
Defined.

(** The map of the example under a budget of 5 tokens: 57 characters. *)
Lemma budget_bounds_map_with_api_witness :
  (0 < 5)%Z
  /\ In Demo.main_entry (discover_files Demo.root Demo.tree 10 false)
  /\ endswith (rel_path Demo.main_entry) (py ".py") = true
  /\ (exists api,
        extract_python_api Demo.unparse Demo.root Demo.tree (path Demo.main_entry) false
        = Some (Some api) /\ has_api api = true)
  /\ exists text,
       generate_map Demo.unparse Demo.root Demo.tree Demo.git_log 10 false (Some 5%Z) false
       = Some text
       /\ (Z.of_nat (length text) <= 4 * 5 + 37)%Z.
Proof.
  assert (Hpos : (0 < 5)%Z) by lia.
  assert (Hin : In Demo.main_entry (discover_files Demo.root Demo.tree 10 false))
    by listed.
  split; [exact Hpos|]. split; [exact Hin|]. split; [reflexivity|].
  split; [eexists; split; reflexivity|].
  destruct (generate_map Demo.unparse Demo.root Demo.tree Demo.git_log 10 false
              (Some 5%Z) false) as [text|] eqn:Hmap;
    [|vm_compute in Hmap; discriminate].
  exists text. split; [reflexivity|].
  exact (budget_bounds_map_with_api Demo.unparse Demo.root Demo.tree Demo.git_log 10%Z
           false false 5%Z text Demo.main_entry _ Hpos Hin eq_refl eq_refl eq_refl Hmap).
Defined.

Lemma demo_files_are_leaves : files_are_leaves [Demo.main_entry; Demo.index_entry].
Proof.
  intros e e' He He' (rest & Hne & Heq). cbn [In] in He, He'.
  destruct He as [<-|[<-|[]]]; destruct He' as [<-|[<-|[]]]; vm_compute in Heq;
    try discriminate Heq; injection Heq as Heq; apply Hne; symmetry; exact Heq.
Qed.

(** [main.py] and [web/index.js] of the example. *)
Lemma format_tree_returns_witness :
  files_are_leaves [Demo.main_entry; Demo.index_entry]
  /\ exists text, _format_tree [Demo.main_entry; Demo.index_entry] 10 = Some text.
Proof.
  split; [exact demo_files_are_leaves|].
  exact (format_tree_returns [Demo.main_entry; Demo.index_entry] 10%Z demo_files_are_leaves).
Defined.



(** Below [/home/p] with a depth limit of 1: [web/index.js] is found,
    and nothing lies deeper. *)
Lemma depth_limit_below_proper_root_witness :
  proper_root Demo.root
  /\ well_formed Demo.tree
  /\ In Demo.index_entry (discover_files Demo.root Demo.tree 1 false)
  /\ (separators (rel_path Demo.index_entry) <= 1)%Z
  /\ file_at Demo.tree [py "web"] Demo.index_js
  /\ passes_filters Demo.root false [py "web"] Demo.index_js
  /\ separators (relative_path [py "web"] Demo.index_js) = 1%Z
  /\ exists e,
       In e (discover_files Demo.root Demo.tree 1 false)
       /\ path e = file_path Demo.root [py "web"] Demo.index_js
       /\ rel_path e = relative_path [py "web"] Demo.index_js.
Proof.
  assert (Hroot : proper_root Demo.root) by (split; reflexivity).
  assert (Hin : In Demo.index_entry (discover_files Demo.root Demo.tree 1 false))
    by listed.
  assert (Hat : file_at Demo.tree [py "web"] Demo.index_js).
  { apply file_below with (sub := Dir [Demo.index_js] []); [listed|].
    constructor. now left. }
  assert (Hpass : passes_filters Demo.root false [py "web"] Demo.index_js).
  { split; [repeat constructor|]. split; [reflexivity|]. split; [reflexivity|].
    split; [reflexivity|]. exists 9%Z. split; [reflexivity | discriminate]. }
  destruct (@depth_limit_below_proper_root Demo.root 1%Z false Demo.tree Hroot
              demo_well_formed) as [Hdeep Hfound].
  split; [exact Hroot|]. split; [exact demo_well_formed|]. split; [exact Hin|].
  split; [exact (Hdeep Demo.index_entry Hin)|].
  split; [exact Hat|]. split; [exact Hpass|]. split; [reflexivity|].
  exact (Hfound [py "web"] Demo.index_js Hat Hpass eq_refl).
Defined.

(** [main.py] of the example: one line feed and an open last line. *)
Lemma line_count_counts_line_feeds_witness :
  f_text Demo.main_py = Some Demo.main_text
  /\ count_lines Demo.main_py = 2%Z.
Proof.
  split; [reflexivity|].
  exact (line_count_counts_line_feeds Demo.main_py Demo.main_text eq_refl).
Defined.

(** The map of the example under a budget of -3 tokens: the last twelve
    characters are replaced by the marker. *)
Lemma negative_budget_cuts_the_tail_witness :
  (-3 < 0)%Z
  /\ In Demo.main_entry (discover_files Demo.root Demo.tree 10 false)
  /\ endswith (rel_path Demo.main_entry) (py ".py") = true
  /\ (exists api,
        extract_python_api Demo.unparse Demo.root Demo.tree (path Demo.main_entry) false
        = Some (Some api) /\ has_api api = true)
  /\ exists text full,
       generate_map Demo.unparse Demo.root Demo.tree Demo.git_log 10 false (Some (-3)%Z) false
       = Some text
       /\ generate_map Demo.unparse Demo.root Demo.tree Demo.git_log 10 false None false
          = Some full
       /\ text = firstn (length full - 12) full ++ TRUNCATION_MARKER.
Proof.
  assert (Hneg : (-3 < 0)%Z) by lia.
  assert (Hin : In Demo.main_entry (discover_files Demo.root Demo.tree 10 false))
    by listed.
  split; [exact Hneg|]. split; [exact Hin|]. split; [reflexivity|].
  split; [eexists; split; reflexivity|].
  destruct (generate_map Demo.unparse Demo.root Demo.tree Demo.git_log 10 false
              (Some (-3)%Z) false) as [text|] eqn:Hmap;
    [|vm_compute in Hmap; discriminate].
  destruct (negative_budget_cuts_the_tail Demo.unparse Demo.root Demo.tree Demo.git_log
              10%Z false false (-3)%Z text Demo.main_entry _ Hneg Hin eq_refl eq_refl
              eq_refl Hmap) as (full & Hfull & Htext).
  exists text, full. split; [reflexivity|]. split; [exact Hfull | exact Htext].
Defined.

End FurtherExamples.
